(** * Remo WhatsApp reminder bot: a shallow embedding and its properties

    The development follows the three source files of the bot:
    - [utils/admin.js]: the JSON-file-backed admin store ([Module Admin]);
    - [bot.js]: the natural-language time parser ([Module Regex],
      [Module Parser]), the connection manager ([Module Connection]), the
      command handlers and the dispatcher ([Module Bot]), the other
      exports ([Module Exports]);
    - [index.js]: start-up and the keep-alive timer (the events [Start] and
      [KeepAlive] of [Bot.step]).

    JavaScript strings are modelled as [string]: every character is one
    UTF-16 code unit below 256 (the Latin-1 range), on which [toLowerCase]
    keeps the length of a string.  Numbers are integers of [Z]; the
    arithmetic of the code on them is exact below 2^53.  Dates are those of
    luxon in the zone Asia/Dhaka, as milliseconds since the epoch. *)

From Stdlib Require Import ZArith List Bool Ascii String DecimalString Lia.
Import ListNotations.

Set Warnings "-register-all".

Local Open Scope string_scope.
Local Open Scope Z_scope.

(** ** JavaScript string primitives used by the bot *)

Module JS.

Definition code (c : ascii) : N := N_of_ascii c.

Definition between (lo hi : N) (c : ascii) : bool :=
  ((lo <=? code c) && (code c <=? hi))%N.

(** [A-Z], and the upper-case letters of Latin-1 (U+00C0..U+00DE but the
    multiplication sign U+00D7). *)
Definition isUpper (c : ascii) : bool :=
  between 65 90 c || (between 192 222 c && negb (code c =? 215)%N).

Definition lowerChar (c : ascii) : ascii :=
  if isUpper c then ascii_of_N (code c + 32) else c.

Fixpoint toLowerCase (s : string) : string :=
  match s with
  | EmptyString => EmptyString
  | String c s' => String (lowerChar c) (toLowerCase s')
  end.

(** [\s] and the characters removed by [trim]: TAB, LF, VT, FF, CR, SP and
    NBSP (the members of WhiteSpace and LineTerminator below 256). *)
Definition isSpace (c : ascii) : bool :=
  between 9 13 c || (code c =? 32)%N || (code c =? 160)%N.

(** [\d] *)
Definition isDigit (c : ascii) : bool := between 48 57 c.

(** [\w], which decides [\b] *)
Definition isWord (c : ascii) : bool :=
  between 97 122 c || between 65 90 c || isDigit c || (code c =? 95)%N.

(** [s.startsWith(p)] *)
Fixpoint startsWith (p s : string) : bool :=
  match p with
  | EmptyString => true
  | String a p' =>
      match s with
      | EmptyString => false
      | String b s' => Ascii.eqb a b && startsWith p' s'
      end
  end.

Fixpoint indexOfFrom (w s : string) (i : Z) : Z :=
  if startsWith w s then i
  else match s with
       | EmptyString => -1
       | String _ s' => indexOfFrom w s' (i + 1)
       end.

(** [s.indexOf(w)]: the first index at which [w] occurs, or -1. *)
Definition indexOf (w s : string) : Z := indexOfFrom w s 0.

(** [s.includes(w)] *)
Definition includes (w s : string) : bool := 0 <=? indexOf w s.

Fixpoint drop (n : nat) (s : string) : string :=
  match n, s with
  | O, _ => s
  | S _, EmptyString => EmptyString
  | S n', String _ s' => drop n' s'
  end.

Fixpoint take (n : nat) (s : string) : string :=
  match n, s with
  | O, _ => EmptyString
  | S _, EmptyString => EmptyString
  | S n', String c s' => String c (take n' s')
  end.

(** [s.substring(start)]: a negative start counts as 0 and a start beyond
    the end gives the empty string. *)
Definition substring (s : string) (start : Z) : string :=
  drop (Z.to_nat (Z.max 0 start)) s.

Definition len (s : string) : Z := Z.of_nat (String.length s).

Definition isEmpty (s : string) : bool :=
  match s with EmptyString => true | _ => false end.

Fixpoint trimStart (s : string) : string :=
  match s with
  | EmptyString => EmptyString
  | String c s' => if isSpace c then trimStart s' else s
  end.

Fixpoint trimEnd (s : string) : string :=
  match s with
  | EmptyString => EmptyString
  | String c s' =>
      let t := trimEnd s' in
      if isSpace c && isEmpty t then EmptyString else String c t
  end.

Definition trim (s : string) : string := trimEnd (trimStart s).

(** [s.endsWith(suffix)] *)
Definition endsWith (suffix s : string) : bool :=
  (String.length suffix <=? String.length s)%nat
  && String.eqb (drop (String.length s - String.length suffix) s) suffix.

(** [s.split(sep)] for a separator of one character *)
Fixpoint split (sep : ascii) (s : string) : list string :=
  match s with
  | EmptyString => [EmptyString]
  | String c s' =>
      if Ascii.eqb c sep then EmptyString :: split sep s'
      else match split sep s' with
           | part :: parts => String c part :: parts
           | [] => [String c EmptyString]
           end
  end.

Definition digitValue (c : ascii) : Z := Z.of_N (code c) - 48.

Fixpoint parseDigits (acc : Z) (s : string) : Z :=
  match s with
  | EmptyString => acc
  | String c s' =>
      if isDigit c then parseDigits (10 * acc + digitValue c) s' else acc
  end.

(** [parseInt(s)] for a string that starts with a decimal digit, which is
    what every caller passes (a capture of [\d+] or of [\d{1,2}]).  The
    result is the exact integer, which is what JavaScript returns below
    2^53; from there on JavaScript rounds, and the statements about an
    amount bound it (see [DateTime.inRange]). *)
Definition parseInt (s : string) : Z := parseDigits 0 s.

End JS.

(** ** A backtracking matcher for the regular expressions of [bot.js]

    The matcher follows the ECMAScript semantics: alternatives are tried
    from left to right, quantifiers are greedy, a match is looked for at
    every start index from the left, and a capture group remembers the
    text its last successful traversal consumed. *)

Module Regex.
Import JS.

Inductive regex : Type :=
| Eps
| Lit (s : string)            (* a run of literal characters *)
| Space                       (* \s *)
| Digit                       (* \d *)
| NonDigit                    (* \D *)
| Cat (a b : regex)
| Alt (a b : regex)           (* a|b *)
| Star (a : regex)            (* a*, greedy; the patterns have no group under it *)
| Group (n : nat) (a : regex) (* the n-th capturing group *)
| WordBoundary                (* \b *)
| Bol.                        (* ^ *)

Definition Plus (a : regex) : regex := Cat a (Star a).   (* a+ *)
Definition Opt (a : regex) : regex := Alt a Eps.          (* a? *)

Record cursor : Type := {
  prev : option ascii;          (* the character before the position *)
  rest : string;                (* the input from the position on *)
  pos : nat;
  caps : list (nat * string)
}.

Definition next (st : cursor) : option ascii :=
  match rest st with
  | EmptyString => None
  | String c _ => Some c
  end.

Definition advance (st : cursor) : option (ascii * cursor) :=
  match rest st with
  | EmptyString => None
  | String c s' =>
      Some (c, {| prev := Some c; rest := s'; pos := S (pos st); caps := caps st |})
  end.

(** One literal character; under the flag [i] both sides are compared
    after case folding. *)
Definition sameChar (i : bool) (p c : ascii) : bool :=
  if i then Ascii.eqb (lowerChar p) (lowerChar c) else Ascii.eqb p c.

Fixpoint eat (i : bool) (lit : string) (st : cursor) : option cursor :=
  match lit with
  | EmptyString => Some st
  | String p lit' =>
      match advance st with
      | Some (c, st') => if sameChar i p c then eat i lit' st' else None
      | None => None
      end
  end.

Definition class (p : ascii -> bool) (st : cursor)
    (k : cursor -> option cursor) : option cursor :=
  match advance st with
  | Some (c, st') => if p c then k st' else None
  | None => None
  end.

Definition wordSide (o : option ascii) : bool :=
  match o with Some c => isWord c | None => false end.

Definition capture (n : nat) (from to : cursor) : cursor :=
  {| prev := prev to; rest := rest to; pos := pos to;
     caps := (n, take (pos to - pos from) (rest from)) :: caps to |}.

Definition orElse {A : Type} (x y : option A) : option A :=
  match x with Some _ => x | None => y end.

(** The iterations of [a*]: one more traversal of the body, which has to
    consume something, and then the rest of the iterations; failing that,
    no more iteration.  The fuel is the number of characters left, plus
    one. *)
Fixpoint starLoop (body : cursor -> (cursor -> option cursor) -> option cursor)
    (fuel : nat) (st : cursor) (k : cursor -> option cursor) : option cursor :=
  match fuel with
  | O => k st
  | S fuel' =>
      orElse
        (body st
           (fun st' =>
              if (pos st <? pos st')%nat then starLoop body fuel' st' k else None))
        (k st)
  end.

(** [rmatch i r st k]: match [r] at [st] and hand every way of doing so,
    in priority order, to the continuation [k] until one succeeds. *)
Fixpoint rmatch (i : bool) (r : regex) (st : cursor)
    (k : cursor -> option cursor) {struct r} : option cursor :=
  match r with
  | Eps => k st
  | Lit s => match eat i s st with Some st' => k st' | None => None end
  | Space => class isSpace st k
  | Digit => class isDigit st k
  | NonDigit => class (fun c => negb (isDigit c)) st k
  | Cat a b => rmatch i a st (fun st' => rmatch i b st' k)
  | Alt a b => orElse (rmatch i a st k) (rmatch i b st k)
  | Star a => starLoop (rmatch i a) (S (String.length (rest st))) st k
  | Group n a => rmatch i a st (fun st' => k (capture n st st'))
  | WordBoundary =>
      if xorb (wordSide (prev st)) (wordSide (next st)) then k st else None
  | Bol => if (pos st =? 0)%nat then k st else None
  end.

Record result : Type := {
  index : nat;                  (* where the match starts *)
  matched : string;             (* the matched text, m[0] *)
  groups : list (nat * string)
}.

Fixpoint lookup (n : nat) (l : list (nat * string)) : option string :=
  match l with
  | [] => None
  | (m, s) :: l' => if (n =? m)%nat then Some s else lookup n l'
  end.

(** [m[n]], [None] standing for [undefined] *)
Definition group (n : nat) (m : result) : option string := lookup n (groups m).

(** [m[n]] for a group that took part in the match *)
Definition groupText (n : nat) (m : result) : string :=
  match group n m with Some s => s | None => EmptyString end.

Definition matchAt (i : bool) (r : regex) (p : option ascii) (s : string)
    (idx : nat) : option result :=
  match rmatch i r {| prev := p; rest := s; pos := idx; caps := [] |} Some with
  | Some st =>
      Some {| index := idx; matched := take (pos st - idx) s; groups := caps st |}
  | None => None
  end.

Fixpoint execFrom (i : bool) (r : regex) (p : option ascii) (s : string)
    (idx : nat) : option result :=
  match matchAt i r p s idx with
  | Some m => Some m
  | None =>
      match s with
      | EmptyString => None
      | String c s' => execFrom i r (Some c) s' (S idx)
      end
  end.

(** [s.match(r)] for a regular expression without the flag [g] *)
Definition exec (i : bool) (r : regex) (s : string) : option result :=
  execFrom i r None s 0.

(** [s.replace(r, rep)] without the flag [g]: the first match is replaced *)
Definition replace (i : bool) (r : regex) (rep s : string) : string :=
  match exec i r s with
  | Some m =>
      take (index m) s ++ rep ++ drop (index m + String.length (matched m)) s
  | None => s
  end.

Fixpoint replaceAllFrom (fuel : nat) (i : bool) (r : regex) (rep : string)
    (p : option ascii) (s : string) (idx : nat) : string :=
  match fuel with
  | O => s
  | S fuel' =>
      match matchAt i r p s idx with
      | Some m =>
          match String.length (matched m) with
          | O =>
              (* an empty match: the next search starts one character on *)
              match s with
              | EmptyString => rep
              | String c s' =>
                  rep ++ String c
                    (replaceAllFrom fuel' i r rep (Some c) s' (S idx))
              end
          | S n =>
              rep ++ replaceAllFrom fuel' i r rep
                       (String.get n s) (drop (S n) s) (idx + S n)
          end
      | None =>
          match s with
          | EmptyString => EmptyString
          | String c s' =>
              String c (replaceAllFrom fuel' i r rep (Some c) s' (S idx))
          end
      end
  end.

(** [s.replace(r, rep)] with the flag [g]: every match is replaced *)
Definition replaceAll (i : bool) (r : regex) (rep s : string) : string :=
  replaceAllFrom (S (String.length s)) i r rep None s 0.

End Regex.

(** ** Dates and the clock (the part of luxon that [bot.js] uses)

    A [DateTime] in the zone Asia/Dhaka is its number of milliseconds since
    the epoch; the zone has the fixed offset UTC+6.  The arithmetic below
    is that of luxon on the time values of [inRange]: beyond the last time
    value of a [Date] luxon returns an invalid [DateTime], which has no
    number of milliseconds. *)

Module DateTime.

Definition t : Type := Z.

Definition msPerMinute : Z := 60000.
Definition msPerHour : Z := 3600000.
Definition msPerDay : Z := 86400000.
Definition zoneOffset : Z := 6 * msPerHour.     (* Asia/Dhaka *)

(** [d.plus({ hours: n })], [d.plus({ minutes: n })], [d.plus({ days: n })]:
    the time value of the sum, which is a valid [DateTime] as long as it is
    [inRange] *)
Definition plusHours (d : t) (n : Z) : t := d + n * msPerHour.
Definition plusMinutes (d : t) (n : Z) : t := d + n * msPerMinute.
Definition plusDays (d : t) (n : Z) : t := d + n * msPerDay.

(** [d.set({ hour: h, minute: m, second: 0, millisecond: 0 })]: the local
    calendar day of [d] is kept; hours and minutes beyond their usual range
    carry over as in [Date.UTC]. *)
Definition setTime (d : t) (h m : Z) : t :=
  let wall := d + zoneOffset in
  wall - wall mod msPerDay + h * msPerHour + m * msPerMinute - zoneOffset.

Definition ltb (a b : t) : bool := a <? b.

(** The last time value of a [Date], 100,000,000 days after the epoch: a
    [DateTime] whose local time lies beyond it is invalid. *)
Definition lastTimeValue : Z := 100000000 * msPerDay.

(** 2010-01-01T00:00:00Z; the zone Asia/Dhaka has been six hours ahead of
    UTC from the end of 2009. *)
Definition fixedOffsetSince : Z := 1262304000000.

(** A range of time values on which the definitions above are luxon's:
    those from 2010 on that stay a week away from the last time value,
    which leaves room for the offset of the zone and for the hours and days
    that [parseNaturalTime] adds on its way to a due time.  The numbers
    that are added to a time value of this range and give one are below
    2^53, so that [parseInt] and the arithmetic of JavaScript are exact on
    them. *)
Definition inRange (d : t) : bool :=
  (fixedOffsetSince <=? d) && (d <=? lastTimeValue - 7 * msPerDay).

(** The system clock: the n-th element is what the n-th later call of
    [DateTime.now()] returns. *)
Definition Clock : Type := nat -> t.

Definition M (A : Type) : Type := Clock -> A * Clock.

Definition ret {A : Type} (a : A) : M A := fun c => (a, c).

Definition bind {A B : Type} (m : M A) (f : A -> M B) : M B :=
  fun c => let (a, c') := m c in f a c'.

(** [DateTime.now().setZone(TIMEZONE)] *)
Definition now : M t := fun c => (c 0%nat, fun n => c (S n)).

Definition constant (d : t) : Clock := fun _ => d.

End DateTime.

(** ** The natural-language time parser ([parseNaturalTime] in [bot.js]) *)

Module Parser.
Import JS Regex.

Definition seq (l : list regex) : regex := fold_right Cat Eps l.

Fixpoint alts (l : list regex) : regex :=
  match l with
  | [] => Eps
  | [a] => a
  | a :: l' => Alt a (alts l')
  end.

(** [/in\s+(\d+)\s+(hour|hr|minute|min|h|m)(?:s?)\b/i] *)
Definition inPattern : regex :=
  seq [Lit "in"; Plus Space; Group 1 (Plus Digit); Plus Space;
       Group 2 (alts [Lit "hour"; Lit "hr"; Lit "minute"; Lit "min"; Lit "h"; Lit "m"]);
       Opt (Lit "s"); WordBoundary].

(** [(\d{1,2})(?::(\d{2}))?\s*(am|pm)?], the tail shared by the three
    clock-time patterns; [\d{1,2}] is written as a digit and an optional
    digit, [\d{2}] as two digits *)
Definition clockTime : list regex :=
  [Group 1 (seq [Digit; Opt Digit]);
   Opt (seq [Lit ":"; Group 2 (seq [Digit; Digit])]);
   Star Space;
   Opt (Group 3 (alts [Lit "am"; Lit "pm"]))].

(** [/tomorrow\s+(?:at\s+)?(\d{1,2})(?::(\d{2}))?\s*(am|pm)?/i] *)
Definition tomorrowPattern : regex :=
  seq ([Lit "tomorrow"; Plus Space; Opt (seq [Lit "at"; Plus Space])] ++ clockTime)%list.

(** [/(?:daily|every\s+day)\s+(?:at\s+)?(\d{1,2})(?::(\d{2}))?\s*(am|pm)?/i] *)
Definition dailyPattern : regex :=
  seq ([alts [Lit "daily"; seq [Lit "every"; Plus Space; Lit "day"]];
        Plus Space; Opt (seq [Lit "at"; Plus Space])] ++ clockTime)%list.

(** [/(\d{1,2})(?::(\d{2}))?\s*(am|pm)?/i] *)
Definition timePattern : regex := seq clockTime.

(** [/\s+/g] *)
Definition spaces : regex := Plus Space.

(** [/^(to|that|for)\s+/i] *)
Definition leadingWord : regex :=
  seq [Bol; Group 1 (alts [Lit "to"; Lit "that"; Lit "for"]); Plus Space].

Definition triggerWords : list string :=
  ["remind me"; "reminder"; "alarm"; "alert me"].

(** The loop over [triggerWords]: the first word that the lower-cased text
    includes cuts the text after its first occurrence, and ends the loop.
    The index is found in [text.toLowerCase()] and used in [text], as in
    the code; the two have the same length on the strings of the model,
    whose characters are below U+0100. *)
Fixpoint afterTrigger (words : list string) (text : string) : string :=
  match words with
  | [] => text
  | word :: words' =>
      if includes word (toLowerCase text)
      then trim (substring text (indexOf word (toLowerCase text) + len word))
      else afterTrigger words' text
  end.

(** The text that the time patterns are matched against: the trigger word
    and the command prefix are removed. *)
Definition extractMessage (text : string) : string :=
  let message := afterTrigger triggerWords text in
  if startsWith "!addreminder" message || startsWith "/addreminder" message
  then trim (substring message (indexOf " " message + 1))
  else message.

(** [message.replace(pattern, '').replace(/\s+/g, ' ').trim()] *)
Definition removeMatch (pattern : regex) (message : string) : string :=
  trim (replaceAll false spaces " " (replace true pattern "" message)).

(** [parsedMessage.replace(/^(to|that|for)\s+/i, '').trim()] *)
Definition dropLeadingWord (parsedMessage : string) : string :=
  trim (replace true leadingWord "" parsedMessage).

(** The conversion to the 24-hour clock, written out three times in the
    source. *)
Definition to24 (hours : Z) (ampm : option string) : Z :=
  let hours :=
    match ampm with
    | Some "pm" => if hours <? 12 then hours + 12 else hours
    | _ => hours
    end in
  match ampm with
  | Some "am" => if hours =? 12 then 0 else hours
  | _ => hours
  end.

(** [hours], [minutes] and [ampm] of a match of one of the clock-time
    patterns *)
Definition clockOf (m : result) : Z * Z :=
  let hours := parseInt (groupText 1 m) in
  let minutes := match group 2 m with Some s => parseInt s | None => 0 end in
  let ampm := option_map toLowerCase (group 3 m) in
  (to24 hours ampm, minutes).

Record ParsedTime : Type := {
  dueAt : option DateTime.t;    (* [null] is [None] *)
  message : string
}.

Import DateTime.

Notation "x <- m ;; k" := (bind m (fun x => k))
  (at level 61, m at next level, right associativity).

(** The two variables the patterns update *)
Definition vars : Type := (option DateTime.t * string)%type.

(** Pattern 1: "in X hours/minutes" *)
Definition patternIn (message : string) (v : vars) : M vars :=
  match exec true inPattern message with
  | Some inMatch =>
      let amount := parseInt (groupText 1 inMatch) in
      let unit := toLowerCase (groupText 2 inMatch) in
      d <- now ;;
      let d :=
        if startsWith "h" unit then plusHours d amount
        else if startsWith "m" unit then plusMinutes d amount
        else d in
      ret (Some d, dropLeadingWord (removeMatch inPattern message))
  | None => ret v
  end.

(** Pattern 2: "tomorrow at X" or "tomorrow X" *)
Definition patternTomorrow (message : string) (v : vars) : M vars :=
  match exec true tomorrowPattern message, fst v with
  | Some tomorrowMatch, None =>
      let (hours, minutes) := clockOf tomorrowMatch in
      d <- now ;;
      ret (Some (setTime (plusDays d 1) hours minutes),
           dropLeadingWord (removeMatch tomorrowPattern message))
  | _, _ => ret v
  end.

(** [dueAt = now.set(...)], pushed to the next day when a second reading
    of the clock is already past it *)
Definition todayOrTomorrow (hours minutes : Z) : M DateTime.t :=
  d <- now ;;
  let due := setTime d hours minutes in
  n <- now ;;
  ret (if ltb due n then plusDays due 1 else due).

(** Pattern 3: "daily at X" or "every day at X" *)
Definition patternDaily (message : string) (v : vars) : M vars :=
  match exec true dailyPattern message, fst v with
  | Some dailyMatch, None =>
      let (hours, minutes) := clockOf dailyMatch in
      due <- todayOrTomorrow hours minutes ;;
      ret (Some due, "Daily: " ++ removeMatch dailyPattern message)
  | _, _ => ret v
  end.

(** The generic time pattern, tried when no pattern has set [dueAt] *)
Definition patternTime (message : string) (v : vars) : M vars :=
  match fst v with
  | None =>
      match exec true timePattern message with
      | Some timeMatch =>
          let (hours, minutes) := clockOf timeMatch in
          due <- todayOrTomorrow hours minutes ;;
          ret (Some due, removeMatch timePattern message)
      | None => ret v
      end
  | Some _ => ret v
  end.

(** Default: one hour from now *)
Definition defaultDue (message : string) (v : vars) : M vars :=
  match fst v with
  | None => d <- now ;; ret (Some (plusHours d 1), message)
  | Some _ => ret v
  end.

(** [parseNaturalTime(text)].  The JSDoc type of the result is
    [Object|null]; [None] stands for [null]. *)
Definition parseNaturalTime (text : string) : M (option ParsedTime) :=
  let message := extractMessage text in
  v <- patternIn message (None, message) ;;
  v <- patternTomorrow message v ;;
  v <- patternDaily message v ;;
  v <- patternTime message v ;;
  v <- defaultDue message v ;;
  let parsedMessage := if isEmpty (snd v) then "Reminder" else snd v in
  ret (Some {| dueAt := fst v; message := parsedMessage |}).

End Parser.

(** ** The admin store ([utils/admin.js]) *)

Module Admin.

(** What [JSON.parse] returns.  The properties of an object are looked up
    by name; the first binding of a name is the property. *)
Inductive json : Type :=
| JNull
| JBool (b : bool)
| JNum (n : Z)
| JStr (s : string)
| JArr (items : list json)
| JObj (props : list (string * json)).

(** The text of [data/admins.json]: either it parses or [JSON.parse]
    throws. *)
Inductive content : Type :=
| NotJson
| Json (j : json).

(** The file system as far as the store touches it.  [adminsFile] is [None]
    when the file does not exist.  [writable] tells whether [fs.writeFile]
    succeeds; a failed write leaves the file as it was.  [fs.mkdir] with
    [recursive: true] and [fs.readFile] of an existing file are taken to
    succeed. *)
Record fs : Type := {
  adminsFile : option content;
  writable : bool
}.

(** Creator's JID (hardcoded as per requirements) *)
Definition CREATOR_JID : string := "8801316655254@s.whatsapp.net".

(** A JID argument: [None] is a missing one ([undefined] or [null]). *)
Definition jid : Type := option string.

Inductive outcome (A : Type) : Type :=
| Ok (a : A)
| Throw (msg : string).
Arguments Ok {A} a.
Arguments Throw {A} msg.

(** [fs.writeFile(ADMINS_FILE, JSON.stringify(data, null, 2))] *)
Definition writeFile (data : json) (f : fs) : outcome unit * fs :=
  if writable f
  then (Ok tt, {| adminsFile := Some (Json data); writable := writable f |})
  else (Throw "EACCES", f).

Definition adminsDoc (admins : list json) : json :=
  JObj [("admins", JArr admins)].

(** [ensureAdminsFile()]: a missing file is created with an empty admins
    array; every error is caught and only logged. *)
Definition ensureAdminsFile (f : fs) : fs :=
  match adminsFile f with
  | Some _ => f                              (* fs.access succeeds *)
  | None => snd (writeFile (adminsDoc []) f)
  end.

Fixpoint property (name : string) (props : list (string * json)) : option json :=
  match props with
  | [] => None
  | (k, v) :: props' => if String.eqb k name then Some v else property name props'
  end.

(** [!parsed] *)
Definition falsy (j : json) : bool :=
  match j with
  | JNull => true
  | JBool b => negb b
  | JNum n => n =? 0
  | JStr s => JS.isEmpty s
  | JArr _ => false
  | JObj _ => false
  end.

(** [parsed.admins] when [Array.isArray(parsed.admins)] *)
Definition adminsArray (parsed : json) : option (list json) :=
  match parsed with
  | JObj props =>
      match property "admins" props with
      | Some (JArr items) => Some items
      | _ => None
      end
  | _ => None
  end.

(** [readAdminsFromFile()]: never throws; a file that cannot be read or
    parsed, or that has no admins array, counts as the empty list. *)
Definition readAdminsFromFile (f : fs) : list json * fs :=
  let f := ensureAdminsFile f in
  match adminsFile f with
  | None => ([], f)                          (* fs.readFile throws *)
  | Some NotJson => ([], f)                  (* JSON.parse throws *)
  | Some (Json parsed) =>
      if falsy parsed then ([], f)
      else match adminsArray parsed with
           | Some admins => (admins, f)
           | None => ([], f)
           end
  end.

(** [writeAdminsToFile(admins)]: logs and rethrows *)
Definition writeAdminsToFile (admins : list json) (f : fs) : outcome unit * fs :=
  writeFile (adminsDoc admins) f.

(** [isCreator(jid)] *)
Definition isCreator (j : jid) : bool :=
  match j with
  | Some s => String.eqb s CREATOR_JID
  | None => false
  end.

(** [item === s] for a string [s] *)
Definition isString (s : string) (item : json) : bool :=
  match item with
  | JStr t => String.eqb t s
  | _ => false
  end.

(** [admins.includes(s)] for a string [s] *)
Definition includes (s : string) (admins : list json) : bool :=
  existsb (isString s) admins.

(** [!jid] *)
Definition missing (j : jid) : bool :=
  match j with
  | Some s => JS.isEmpty s
  | None => true
  end.

Definition text (j : jid) : string :=
  match j with Some s => s | None => EmptyString end.

(** [isAdmin(jid)] *)
Definition isAdmin (j : jid) (f : fs) : bool * fs :=
  if missing j then (false, f)
  else if isCreator j then (true, f)
  else let (admins, f) := readAdminsFromFile f in
       (includes (text j) admins, f).

Record reply : Type := {
  success : bool;
  message : string
}.

(** [promoteAdmin(promoterJid, targetJid)] *)
Definition promoteAdmin (promoterJid targetJid : jid) (f : fs) : reply * fs :=
  if negb (isCreator promoterJid) then
    ({| success := false; message := "Only the creator can promote admins" |}, f)
  else if missing targetJid || negb (JS.includes "@s.whatsapp.net" (text targetJid)) then
    ({| success := false; message := "Invalid JID format" |}, f)
  else if isCreator targetJid then
    ({| success := false; message := "Creator is already admin" |}, f)
  else
    let (admins, f) := readAdminsFromFile f in
    if includes (text targetJid) admins then
      ({| success := false; message := "User is already an admin" |}, f)
    else
      let admins := (admins ++ [JStr (text targetJid)])%list in
      match writeAdminsToFile admins f with
      | (Ok _, f) =>
          ({| success := true; message := "User promoted to admin successfully" |}, f)
      | (Throw _, f) =>
          ({| success := false; message := "Failed to promote user" |}, f)
      end.

(** [demoteAdmin(demoterJid, targetJid)] *)
Definition demoteAdmin (demoterJid targetJid : jid) (f : fs) : reply * fs :=
  if negb (isCreator demoterJid) then
    ({| success := false; message := "Only the creator can demote admins" |}, f)
  else if missing targetJid || negb (JS.includes "@s.whatsapp.net" (text targetJid)) then
    ({| success := false; message := "Invalid JID format" |}, f)
  else if isCreator targetJid then
    ({| success := false; message := "Cannot demote the creator" |}, f)
  else
    let (admins, f) := readAdminsFromFile f in
    if negb (includes (text targetJid) admins) then
      ({| success := false; message := "User is not an admin" |}, f)
    else
      let newAdmins := filter (fun j => negb (isString (text targetJid) j)) admins in
      match writeAdminsToFile newAdmins f with
      | (Ok _, f) =>
          ({| success := true; message := "User demoted from admin successfully" |}, f)
      | (Throw _, f) =>
          ({| success := false; message := "Failed to demote user" |}, f)
      end.

Record adminList : Type := {
  creator : string;
  admins : list json
}.

(** [getAdminList()] *)
Definition getAdminList (f : fs) : adminList * fs :=
  let (admins, f) := readAdminsFromFile f in
  ({| creator := CREATOR_JID; admins := admins |}, f).

(** [initAdminSystem()] *)
Definition initAdminSystem (f : fs) : fs :=
  snd (readAdminsFromFile (ensureAdminsFile f)).

(** The admin list that the file stores: the admins array of a well-formed
    document, and no admin otherwise. *)
Definition stored (f : fs) : list json :=
  match adminsFile f with
  | Some (Json parsed) =>
      match adminsArray parsed with Some admins => admins | None => [] end
  | _ => []
  end.

End Admin.

(** ** Outbound effects of the bot

    What the handlers do to the outside world, in the order they do it.
    The texts of the messages are built from templates with emoji and
    formatted dates; a message is represented by its template and the data
    that fills it.  [console.log] output and the uptime of the process are
    left out. *)

Module Effects.
Import Admin.

Record reminder : Type := {
  id : string;
  text : string;
  dueAt : DateTime.t;
  status : string
}.

Inductive template : Type :=
| Pong
| Help (isUserAdmin isGroup : bool)
| BotInfo (now : DateTime.t) (connected : bool)
| CurrentTime (now : DateTime.t)
| AdminsOnly
| AdminList (creator : string) (admins : list json)
| AdminRestricted
| CreatorOnly
| PromoteUsage
| InvalidNumber (phoneNumber : string)
| DemoteUsage
| InvalidNumberShort
| Result (message : string)
| Promoted (promoter : string)
| Demoted (demoter : string)
| BroadcastRestricted
| BroadcastUsage
| Broadcast (message sender : string)
| BroadcastSent (recipients : nat)
| BroadcastFailed (error : string)
| AddReminderUsage
| TimeNotUnderstood
| ReminderSet (r : reminder)
| ReminderFailed (error : string)
| NoReminders
| ReminderList (pending : list reminder)
| RemindersFailed (error : string)
| CancelUsage
| Cancelled (reminderId : string)
| CancelNotFound (reminderId : string)
| CancelFailed (error : string)
| NaturalNotUnderstood
| NaturalReminderSet (r : reminder)
| NaturalReminderFailed (error : string)
| UnknownCommand
| CommandError (error : string)
| Startup (now : DateTime.t)
| Online
| Welcome.

Inductive effect : Type :=
| Send (to : json) (text : template)   (* sock.sendMessage(to, { text }) *)
| Presence (state : string)            (* sock.sendPresenceUpdate(state) *)
| Delay (ms : Z)                       (* await delay(ms) *)
| CreateBot                            (* createBot(options) *)
| StatusChange (status : string)       (* onStatusChange(status) *)
| QRGenerated                          (* onQRGenerated(...) *)
| Connected                            (* onConnected() *)
| Disconnected.                        (* onDisconnected() *)

Definition isSend (e : effect) : bool :=
  match e with Send _ _ => true | _ => false end.

End Effects.

(** ** The connection manager (the [connection.update] handler of [createBot]) *)

Module Connection.
Import Effects.

(** The JavaScript values that an update carries.  An object records
    whether it is an instance of [Boom]. *)
Inductive value : Type :=
| Undefined
| Null
| Bool (b : bool)
| Num (n : Z)
| Str (s : string)
| Object (boom : bool) (props : list (string * value)).

Fixpoint property (name : string) (props : list (string * value)) : value :=
  match props with
  | [] => Undefined
  | (k, v) :: props' => if String.eqb k name then v else property name props'
  end.

(** [v?.name], for the names read here ([error], [output], [statusCode]):
    a primitive has no such property. *)
Definition optGet (v : value) (name : string) : value :=
  match v with
  | Object _ props => property name props
  | _ => Undefined
  end.

(** [v instanceof Boom] *)
Definition instanceofBoom (v : value) : bool :=
  match v with
  | Object boom _ => boom
  | _ => false
  end.

(** [a === b] against a number or a string; distinct objects are never
    strictly equal. *)
Definition strictEq (a b : value) : bool :=
  match a, b with
  | Undefined, Undefined => true
  | Null, Null => true
  | Bool x, Bool y => Bool.eqb x y
  | Num x, Num y => x =? y
  | Str x, Str y => String.eqb x y
  | _, _ => false
  end.

(** [!!v] *)
Definition truthy (v : value) : bool :=
  match v with
  | Undefined => false
  | Null => false
  | Bool b => b
  | Num n => negb (n =? 0)
  | Str s => negb (JS.isEmpty s)
  | Object _ _ => true
  end.

(** [DisconnectReason] of the messaging library *)
Module DisconnectReason.
Definition connectionClosed : value := Num 428.
Definition loggedOut : value := Num 401.
End DisconnectReason.

Definition MAX_RETRIES : Z := 5.

(** Bot state: the module-level variables [isConnected] and
    [connectionRetries]. *)
Record state : Type := {
  isConnected : bool;
  connectionRetries : Z
}.

Definition initial : state := {| isConnected := false; connectionRetries := 0 |}.

Record update : Type := {
  connection : value;
  lastDisconnect : value;
  qr : value
}.

(** [(lastDisconnect?.error instanceof Boom)?.output?.statusCode] *)
Definition statusCode (u : update) : value :=
  optGet (optGet (Bool (instanceofBoom (optGet (lastDisconnect u) "error"))) "output")
         "statusCode".

(** [statusCode !== DisconnectReason.loggedOut] *)
Definition shouldReconnect (u : update) : bool :=
  negb (strictEq (statusCode u) DisconnectReason.loggedOut).

(** [Math.min(1000 * Math.pow(2, connectionRetries), 30000)] *)
Definition delayTime (connectionRetries : Z) : Z :=
  Z.min (1000 * 2 ^ connectionRetries) 30000.

(** The handling of the QR code *)
Definition onQR (u : update) : list effect :=
  if truthy (qr u) then [StatusChange "qr_ready"; QRGenerated] else [].

(** The branch [connection === 'close'].  The boolean tells whether the
    handler returns from inside the branch (with [createBot(options)]). *)
Definition onClose (u : update) (s : state) : state * list effect * bool :=
  let s := {| isConnected := false; connectionRetries := connectionRetries s |} in
  let s :=
    if strictEq (statusCode u) DisconnectReason.connectionClosed
    then {| isConnected := isConnected s; connectionRetries := 0 |}
    else s in
  if shouldReconnect u && (connectionRetries s <? MAX_RETRIES) then
    let retries := connectionRetries s + 1 in
    ({| isConnected := isConnected s; connectionRetries := retries |},
     [Disconnected; StatusChange "disconnected"; Delay (delayTime retries); CreateBot],
     true)
  else
    (s, [Disconnected; StatusChange "disconnected"], false).

(** The retry delays among the effects of a run *)
Definition delays (l : list effect) : list Z :=
  flat_map (fun e => match e with Delay ms => [ms] | _ => [] end) l.


End Connection.

(** ** The command handlers and the dispatcher ([bot.js]) *)

Module Bot.
Import JS Admin Effects.

(** The reminder service ([services/reminder.js]) is an external
    collaborator: the handlers are written against its interface.  Each
    call may throw. *)
Record ReminderService : Type := {
  Store : Type;
  initReminderSystem : Store -> outcome unit * Store;
  createReminder :
    string -> string -> string -> option DateTime.t -> Store -> outcome reminder * Store;
  getUserReminders : string -> Store -> outcome (list reminder) * Store;
  deleteReminder : string -> string -> Store -> outcome bool * Store
}.

Section Handlers.

Variable svc : ReminderService.

Record world : Type := {
  files : Admin.fs;
  clock : DateTime.Clock;
  conn : Connection.state;
  reminders : Store svc
}.

(** A handler: it may throw, it changes the world, and it leaves a trace
    of effects.  [sock.sendMessage] is recorded as issued and returns. *)
Definition H (A : Type) : Type := world -> outcome A * world * list effect.

Definition ret {A : Type} (a : A) : H A := fun w => (Ok a, w, []).

Definition bind {A B : Type} (m : H A) (f : A -> H B) : H B :=
  fun w =>
    match m w with
    | (Ok a, w1, e1) => let '(r, w2, e2) := f a w1 in (r, w2, (e1 ++ e2)%list)
    | (Throw msg, w1, e1) => (Throw msg, w1, e1)
    end.

(** [try { m } catch (error) { h(error.message) }] *)
Definition catch {A : Type} (m : H A) (h : string -> H A) : H A :=
  fun w =>
    match m w with
    | (Throw msg, w1, e1) => let '(r, w2, e2) := h msg w1 in (r, w2, (e1 ++ e2)%list)
    | done => done
    end.

Definition throw {A : Type} (msg : string) : H A := fun w => (Throw msg, w, []).

Definition emit (e : effect) : H unit := fun w => (Ok tt, w, [e]).

(** [await sock.sendMessage(to, { text })] *)
Definition send (to : json) (text : template) : H unit := emit (Send to text).

Definition sendTo (to : string) (text : template) : H unit := send (JStr to) text.

Definition onFiles {A : Type} (f : Admin.fs -> A * Admin.fs) : H A :=
  fun w =>
    let (a, fs') := f (files w) in
    (Ok a, {| files := fs'; clock := clock w; conn := conn w; reminders := reminders w |}, []).

Definition onClock {A : Type} (m : DateTime.M A) : H A :=
  fun w =>
    let (a, c') := m (clock w) in
    (Ok a, {| files := files w; clock := c'; conn := conn w; reminders := reminders w |}, []).

Definition onStore {A : Type} (f : Store svc -> outcome A * Store svc) : H A :=
  fun w =>
    let (r, s') := f (reminders w) in
    (r, {| files := files w; clock := clock w; conn := conn w; reminders := s' |}, []).

Definition connected : H bool := fun w => (Ok (Connection.isConnected (conn w)), w, []).

Notation "x <- m ;; k" := (bind m (fun x => k))
  (at level 61, m at next level, right associativity).
Notation "m ;; k" := (bind m (fun _ => k))
  (at level 61, right associativity).

(** [DateTime.now().setZone(TIMEZONE)]; [toRelative()] reads the clock too *)
Definition now : H DateTime.t := onClock DateTime.now.

(** [formatJID(jid)]: [replace] exists on strings only *)
Definition formatJID (j : json) : H string :=
  if falsy j then ret "Unknown"
  else match j with
       | JStr s => ret (Regex.replace false (Regex.Lit "@s.whatsapp.net") "" s)
       | _ => throw "jid.replace is not a function"
       end.

Fixpoint forEach {A : Type} (l : list A) (body : A -> H unit) : H unit :=
  match l with
  | [] => ret tt
  | a :: l' => body a ;; forEach l' body
  end.

(** The socket: [sock.user.id], missing until the session is open *)
Record socket : Type := { userId : option string }.

Definition sendHelpMessage (jid : string) (isUserAdmin isGroup : bool) : H unit :=
  sendTo jid (Help isUserAdmin isGroup).

Definition sendBotInfo (jid : string) : H unit :=
  t <- now ;;
  c <- connected ;;
  sendTo jid (BotInfo t c).

Definition sendCurrentTime (jid : string) : H unit :=
  t <- now ;;
  _ <- now ;;
  sendTo jid (CurrentTime t).

Definition handleAdminsCommand (jid : string) (isUserAdmin : bool) : H unit :=
  if negb isUserAdmin then sendTo jid AdminsOnly
  else
    adminList <- onFiles getAdminList ;;
    forEach (admins adminList) (fun adminJid => _ <- formatJID adminJid ;; ret tt) ;;
    sendTo jid (AdminList (creator adminList) (admins adminList)).

(** [parts[1].replace(/\D/g, '')] *)
Definition digitsOf (part : string) : string :=
  Regex.replaceAll false Regex.NonDigit "" part.

Definition validNumber (phoneNumber : string) : bool :=
  startsWith "880" phoneNumber && (String.length phoneNumber =? 13)%nat.

Definition handlePromoteCommand (jid sender text : string)
    (isUserAdmin isUserCreator : bool) : H unit :=
  if negb isUserAdmin then sendTo jid AdminRestricted
  else if negb isUserCreator then sendTo jid CreatorOnly
  else
    match split " " text with
    | _ :: part :: _ =>
        let phoneNumber := digitsOf part in
        if negb (validNumber phoneNumber) then sendTo jid (InvalidNumber phoneNumber)
        else
          let targetJid := phoneNumber ++ "@s.whatsapp.net" in
          result <- onFiles (promoteAdmin (Some sender) (Some targetJid)) ;;
          sendTo jid (Result (message result)) ;;
          if success result
          then catch (sendTo targetJid (Promoted sender)) (fun _ => ret tt)
          else ret tt
    | _ => sendTo jid PromoteUsage
    end.

Definition handleDemoteCommand (jid sender text : string)
    (isUserAdmin isUserCreator : bool) : H unit :=
  if negb isUserAdmin then sendTo jid AdminRestricted
  else if negb isUserCreator then sendTo jid CreatorOnly
  else
    match split " " text with
    | _ :: part :: _ =>
        let phoneNumber := digitsOf part in
        if negb (validNumber phoneNumber) then sendTo jid InvalidNumberShort
        else
          let targetJid := phoneNumber ++ "@s.whatsapp.net" in
          result <- onFiles (demoteAdmin (Some sender) (Some targetJid)) ;;
          sendTo jid (Result (message result)) ;;
          if success result
          then catch (sendTo targetJid (Demoted sender)) (fun _ => ret tt)
          else ret tt
    | _ => sendTo jid DemoteUsage
    end.

(** [text.substring(text.indexOf(' ') + 1).trim()] *)
Definition argument (text : string) : string :=
  trim (substring text (indexOf " " text + 1)).

Definition handleBroadcastCommand (jid sender text : string) (isUserAdmin : bool) : H unit :=
  if negb isUserAdmin then sendTo jid BroadcastRestricted
  else
    let broadcastMessage := argument text in
    if isEmpty broadcastMessage then sendTo jid BroadcastUsage
    else
      catch
        (adminList <- onFiles getAdminList ;;
         let broadcastText := Broadcast broadcastMessage sender in
         catch (sendTo CREATOR_JID broadcastText) (fun _ => ret tt) ;;
         forEach (admins adminList) (fun adminJid =>
           if negb (isString CREATOR_JID adminJid) && negb (isString sender adminJid)
           then catch (send adminJid broadcastText ;; emit (Delay 1000))
                      (fun _ => _ <- formatJID adminJid ;; ret tt)
           else ret tt) ;;
         sendTo jid (BroadcastSent (List.length (admins adminList) + 1)))
        (fun error => sendTo jid (BroadcastFailed error)).

(** The reminder handlers read [toRelative()] off the clock once for each
    reminder they show. *)
Definition handleAddReminder (jid sender text pushName : string) : H unit :=
  catch
    (let reminderText := argument text in
     if isEmpty reminderText then sendTo jid AddReminderUsage
     else
       parsedTime <- onClock (Parser.parseNaturalTime reminderText) ;;
       match parsedTime with
       | None => sendTo jid TimeNotUnderstood
       | Some parsedTime =>
           reminder <- onStore (createReminder svc jid sender
                                  (Parser.message parsedTime) (Parser.dueAt parsedTime)) ;;
           _ <- now ;;
           sendTo jid (ReminderSet reminder)
       end)
    (fun error => sendTo jid (ReminderFailed error)).

Definition handleMyReminders (jid sender : string) : H unit :=
  catch
    (reminders <- onStore (getUserReminders svc sender) ;;
     let pendingReminders := filter (fun r => String.eqb (status r) "pending") reminders in
     match pendingReminders with
     | [] => sendTo jid NoReminders
     | _ =>
         forEach pendingReminders (fun _ => _ <- now ;; ret tt) ;;
         sendTo jid (ReminderList pendingReminders)
     end)
    (fun error => sendTo jid (RemindersFailed error)).

Definition handleCancelReminder (jid sender text : string) : H unit :=
  catch
    (let reminderId := argument text in
     if isEmpty reminderId then sendTo jid CancelUsage
     else
       success <- onStore (deleteReminder svc reminderId sender) ;;
       if success : bool then sendTo jid (Cancelled (take 8 reminderId))
       else sendTo jid (CancelNotFound reminderId))
    (fun error => sendTo jid (CancelFailed error)).

Definition handleNaturalReminder (jid sender text pushName : string) : H unit :=
  catch
    (parsedTime <- onClock (Parser.parseNaturalTime text) ;;
     match parsedTime with
     | None => sendTo jid NaturalNotUnderstood
     | Some parsedTime =>
         reminder <- onStore (createReminder svc jid sender
                                (Parser.message parsedTime) (Parser.dueAt parsedTime)) ;;
         _ <- now ;;
         sendTo jid (NaturalReminderSet reminder)
     end)
    (fun error => sendTo jid (NaturalReminderFailed error)).

Record groupUpdate : Type := {
  groupId : string;
  participants : list string;
  action : string
}.

(** [sock.user.id.split(':')[0] + '@s.whatsapp.net'] *)
Definition ownJid (sock : socket) : H string :=
  match userId sock with
  | Some id => ret (hd EmptyString (split ":" id) ++ "@s.whatsapp.net")
  | None => throw "Cannot read properties of undefined"
  end.

Definition handleGroupParticipantsUpdate (sock : socket) (u : groupUpdate) : H unit :=
  catch
    (if String.eqb (action u) "add"
     then me <- ownJid sock ;;
          if existsb (String.eqb me) (participants u)
          then sendTo (groupId u) Welcome
          else ret tt
     else ret tt)
    (fun _ => ret tt).

Record params : Type := {
  jid : string;
  sender : string;
  text : string;
  pushName : string;
  isGroup : bool
}.

(** [handleCommand(sock, params)]: the command routing.  Whatever a handler
    throws is answered with an error message. *)
Definition handleCommand (p : params) : H unit :=
  catch
    (isUserAdmin <- onFiles (isAdmin (Some (sender p))) ;;
     let isUserCreator := isCreator (Some (sender p)) in
     let lowerText := toLowerCase (text p) in
     if String.eqb lowerText "!ping" || String.eqb lowerText "/ping" then
       sendTo (jid p) Pong
     else if String.eqb lowerText "!help" || String.eqb lowerText "/help"
             || String.eqb lowerText "!start" then
       sendHelpMessage (jid p) isUserAdmin (isGroup p)
     else if String.eqb lowerText "!info" || String.eqb lowerText "/info" then
       sendBotInfo (jid p)
     else if String.eqb lowerText "!time" || String.eqb lowerText "/time" then
       sendCurrentTime (jid p)
     else if String.eqb lowerText "!admins" || String.eqb lowerText "/admins" then
       handleAdminsCommand (jid p) isUserAdmin
     else if startsWith "!promote" lowerText || startsWith "/promote" lowerText then
       handlePromoteCommand (jid p) (sender p) (text p) isUserAdmin isUserCreator
     else if startsWith "!demote" lowerText || startsWith "/demote" lowerText then
       handleDemoteCommand (jid p) (sender p) (text p) isUserAdmin isUserCreator
     else if startsWith "!broadcast" lowerText || startsWith "/broadcast" lowerText then
       handleBroadcastCommand (jid p) (sender p) (text p) isUserAdmin
     else if startsWith "!addreminder" lowerText || startsWith "/addreminder" lowerText then
       handleAddReminder (jid p) (sender p) (text p) (pushName p)
     else if startsWith "!myreminders" lowerText || startsWith "/myreminders" lowerText then
       handleMyReminders (jid p) (sender p)
     else if startsWith "!cancelreminder" lowerText
             || startsWith "/cancelreminder" lowerText then
       handleCancelReminder (jid p) (sender p) (text p)
     else if JS.includes "remind me" (toLowerCase (text p))
             || JS.includes "reminder" (toLowerCase (text p))
             || JS.includes "alarm" (toLowerCase (text p)) then
       handleNaturalReminder (jid p) (sender p) (text p) (pushName p)
     else if startsWith "!" (text p) || startsWith "/" (text p) then
       sendTo (jid p) UnknownCommand
     else ret tt)
    (fun error => catch (sendTo (jid p) (CommandError error)) (fun _ => ret tt)).

(** [msg.message], with the fields that the bot reads.  A media message is
    given by its caption, the empty string when it has none. *)
Record content : Type := {
  conversation : option string;
  extendedTextMessage : option string;
  imageMessage : option string;
  videoMessage : option string;
  documentMessage : option string
}.

Record inbound : Type := {
  message : option content;
  fromMe : bool;
  remoteJid : string;
  participant : option string;
  senderName : option string       (* msg.pushName *)
}.

Record upsert : Type := {
  type : string;
  messages : list inbound
}.

(** [a || b] on strings that may be missing *)
Definition orString (a : option string) (b : string) : string :=
  match a with
  | Some s => if isEmpty s then b else s
  | None => b
  end.

(** The text of a message; [None] for an unsupported message type. *)
Definition textOf (c : content) : option string :=
  match conversation c with
  | Some t => if isEmpty t then None else Some t
  | None => None
  end.

Definition messageText (c : content) : option string :=
  match textOf c with
  | Some t => Some t
  | None =>
      match extendedTextMessage c, imageMessage c, videoMessage c, documentMessage c with
      | Some t, _, _, _ => Some t
      | None, Some caption, _, _ => Some caption
      | None, None, Some caption, _ => Some caption
      | None, None, None, Some caption => Some caption
      | None, None, None, None => None
      end
  end.

(** [isJidBroadcast(jid)] of the messaging library *)
Definition isJidBroadcast (jid : string) : bool := endsWith "@broadcast" jid.

(** The body of the loop of [handleMessagesUpsert] *)
Definition handleMessage (msg : inbound) : H unit :=
  match message msg with
  | None => ret tt
  | Some messageContent =>
      if fromMe msg then ret tt
      else if isJidBroadcast (remoteJid msg) then ret tt
      else
        match messageText messageContent with
        | None => ret tt
        | Some text =>
            _ <- now ;;                              (* the log timestamp *)
            if negb (isEmpty (trim text))
            then handleCommand
                   {| jid := remoteJid msg;
                      sender := orString (participant msg) (remoteJid msg);
                      text := trim text;
                      pushName := orString (senderName msg) "User";
                      isGroup := endsWith "@g.us" (remoteJid msg) |}
            else ret tt
        end
  end.

Definition handleMessagesUpsert (m : upsert) : H unit :=
  if negb (String.eqb (type m) "notify") then ret tt
  else forEach (messages m) handleMessage.

Definition sendStartupMessage : H unit :=
  catch (t <- now ;; sendTo CREATOR_JID (Startup t)) (fun _ => ret tt).

Definition notifyAdmins : H unit :=
  catch
    (adminList <- onFiles getAdminList ;;
     catch (sendTo CREATOR_JID Online) (fun _ => ret tt) ;;
     forEach (admins adminList) (fun adminJid =>
       if negb (isString CREATOR_JID adminJid)
       then catch (send adminJid Online ;; _ <- formatJID adminJid ;; ret tt)
                  (fun _ => _ <- formatJID adminJid ;; ret tt)
       else ret tt))
    (fun _ => ret tt).

Definition setConn (s : Connection.state) : H unit :=
  fun w => (Ok tt, {| files := files w; clock := clock w; conn := s;
                      reminders := reminders w |}, []).

(** The branch [connection === 'close'] of the [connection.update] handler *)
Definition closeConnection (u : Connection.update) : H bool :=
  fun w =>
    let '(s, effects, returned) := Connection.onClose u (conn w) in
    (Ok returned, {| files := files w; clock := clock w; conn := s;
                     reminders := reminders w |}, effects).

Definition isState (u : Connection.update) (name : string) : bool :=
  Connection.strictEq (Connection.connection u) (Connection.Str name).

(** The [connection.update] handler of [createBot] *)
Definition onConnectionUpdate (u : Connection.update) : H unit :=
  forEach (Connection.onQR u) emit ;;
  returned <- (if isState u "close" then closeConnection u else ret false) ;;
  if returned : bool then ret tt
  else
    (if isState u "connecting" then emit (StatusChange "connecting") else ret tt) ;;
    if isState u "open" then
      setConn {| Connection.isConnected := true; Connection.connectionRetries := 0 |} ;;
      emit Connected ;;
      emit (StatusChange "connected") ;;
      emit (Presence "available") ;;
      sendStartupMessage ;;
      notifyAdmins
    else ret tt.

(** What the process reacts to: start-up ([index.js]), the events that
    [createBot] subscribes to, and the keep-alive timer of [index.js]. *)
Inductive event : Type :=
| Start
| CredsUpdate
| ConnectionUpdate (u : Connection.update)
| MessagesUpsert (m : upsert)
| MessagesUpdate
| GroupParticipantsUpdate (u : groupUpdate)
| GroupsUpdate
| KeepAlive.

(** [startBot()] of [index.js] *)
Definition startBot : H unit :=
  onFiles (fun f => (tt, initAdminSystem f)) ;;
  onStore (initReminderSystem svc) ;;
  emit CreateBot.

Definition step (sock : socket) (e : event) : H unit :=
  match e with
  | Start => catch startBot (fun _ => ret tt)
  | CredsUpdate => ret tt                     (* saveCreds *)
  | ConnectionUpdate u => onConnectionUpdate u
  | MessagesUpsert m => catch (handleMessagesUpsert m) (fun _ => ret tt)
  | MessagesUpdate => ret tt
  | GroupParticipantsUpdate u => handleGroupParticipantsUpdate sock u
  | GroupsUpdate => ret tt
  | KeepAlive => ret tt                       (* the empty body of setInterval *)
  end.

Definition effectsOf {A : Type} (m : H A) (w : world) : list effect := snd (m w).

Definition worldAfter {A : Type} (m : H A) (w : world) : world := snd (fst (m w)).

End Handlers.

Arguments ret {svc A} a.
Arguments bind {svc A B} m f.
Arguments catch {svc A} m h.
Arguments throw {svc A} msg.
Arguments emit {svc} e.
Arguments send {svc} to text.
Arguments sendTo {svc} to text.
Arguments onFiles {svc A} f.
Arguments onClock {svc A} m.
Arguments onStore {svc A} f.
Arguments forEach {svc A} l body.
Arguments effectsOf {svc A} m w.
Arguments worldAfter {svc A} m w.

End Bot.

(** ** The exports of [bot.js] besides [createBot] *)

Module Exports.
Import JS Admin Effects Bot.

Section Exported.
Variable svc : ReminderService.

(** [botSocket], the module variable: [null] until [createBot] has made the
    socket. *)
Definition botSocket : Type := option socket.

(** [getBotSocket()] *)
Definition getBotSocket (sock : botSocket) : H svc botSocket := ret sock.

(** [isBotConnected()] *)
Definition isBotConnected : H svc bool := connected svc.

(** [sendMessage(jid, message)]: refuses unless there is a socket and the
    connection is open; what the socket throws is logged and thrown
    again. *)
Definition sendMessage (sock : botSocket) (jid : json) (message : template) : H svc unit :=
  bind (connected svc) (fun isConnected =>
    if match sock with None => true | Some _ => false end || negb isConnected
    then throw "Bot is not connected"
    else catch (send jid message) (fun error => throw error)).

End Exported.
End Exports.

(** * Properties *)

(** ** Vocabulary of the statements *)

Module Spec.
Import JS Regex Parser DateTime.

(** The result of a call of [parseNaturalTime] made under a given clock *)
Definition parseAt (text : string) (c : Clock) : option ParsedTime :=
  fst (parseNaturalTime text c).

(** Which of the four time patterns decides the result *)
Inductive shape : Type :=
| InShape (m : result)
| TomorrowShape (m : result)
| DailyShape (m : result)
| TimeShape (m : result)
| NoShape.

Definition shapeOf (message : string) : shape :=
  match exec true inPattern message with
  | Some m => InShape m
  | None =>
      match exec true tomorrowPattern message with
      | Some m => TomorrowShape m
      | None =>
          match exec true dailyPattern message with
          | Some m => DailyShape m
          | None =>
              match exec true timePattern message with
              | Some m => TimeShape m
              | None => NoShape
              end
          end
      end
  end.

(** The due time as a function of the text and of the first two readings
    of the clock *)
Definition dueOf (message : string) (t0 t1 : DateTime.t) : DateTime.t :=
  match shapeOf message with
  | InShape m =>
      let amount := parseInt (groupText 1 m) in
      let unit := toLowerCase (groupText 2 m) in
      if startsWith "h" unit then plusHours t0 amount
      else if startsWith "m" unit then plusMinutes t0 amount
      else t0
  | TomorrowShape m =>
      setTime (plusDays t0 1) (fst (clockOf m)) (snd (clockOf m))
  | DailyShape m | TimeShape m =>
      let due := setTime t0 (fst (clockOf m)) (snd (clockOf m)) in
      if ltb due t1 then plusDays due 1 else due
  | NoShape => plusHours t0 1
  end.

(** The cleaned message as a function of the text *)
Definition cleaned (message : string) : string :=
  match shapeOf message with
  | InShape _ => dropLeadingWord (removeMatch inPattern message)
  | TomorrowShape _ => dropLeadingWord (removeMatch tomorrowPattern message)
  | DailyShape _ => "Daily: " ++ removeMatch dailyPattern message
  | TimeShape _ => removeMatch timePattern message
  | NoShape => message
  end.

Definition orReminder (parsedMessage : string) : string :=
  if isEmpty parsedMessage then "Reminder" else parsedMessage.

End Spec.

(** What a successful traversal of a regular expression looks like: the
    cursor before and the cursor after. *)
Module RegexSpec.
Import JS Regex.

Inductive Path (i : bool) : regex -> cursor -> cursor -> Prop :=
| PathEps st : Path i Eps st st
| PathLit s st st' : eat i s st = Some st' -> Path i (Lit s) st st'
| PathSpace st c st' :
    advance st = Some (c, st') -> isSpace c = true -> Path i Space st st'
| PathDigit st c st' :
    advance st = Some (c, st') -> isDigit c = true -> Path i Digit st st'
| PathNonDigit st c st' :
    advance st = Some (c, st') -> isDigit c = false -> Path i NonDigit st st'
| PathCat a b st mid st' :
    Path i a st mid -> Path i b mid st' -> Path i (Cat a b) st st'
| PathAltL a b st st' : Path i a st st' -> Path i (Alt a b) st st'
| PathAltR a b st st' : Path i b st st' -> Path i (Alt a b) st st'
| PathStarNil a st : Path i (Star a) st st
| PathStarCons a st mid st' :
    Path i a st mid -> (pos st < pos mid)%nat -> Path i (Star a) mid st' ->
    Path i (Star a) st st'
| PathGroup n a st st' : Path i a st st' -> Path i (Group n a) st (capture n st st')
| PathWordBoundary st :
    xorb (wordSide (prev st)) (wordSide (next st)) = true ->
    Path i WordBoundary st st
| PathBol st : pos st = 0%nat -> Path i Bol st st.

(** The last character of [x], or [p] when [x] is empty *)
Fixpoint lastOf (p : option ascii) (x : string) : option ascii :=
  match x with
  | EmptyString => p
  | String c x' => lastOf (Some c) x'
  end.


Fixpoint allChars (p : ascii -> bool) (s : string) : bool :=
  match s with
  | EmptyString => true
  | String c s' => p c && allChars p s'
  end.


(** The cursor after the text [x] has been consumed, [r] being left *)
Definition after (st : cursor) (x r : string) : cursor :=
  {| prev := lastOf (prev st) x; rest := r;
     pos := (pos st + String.length x)%nat; caps := caps st |}.




End RegexSpec.

Module PhraseSpec.
Import JS RegexSpec.









End PhraseSpec.

Module ConnSpec.
Import Effects Connection.


(** The delays of the retries 1 to 5 *)
Definition backoff : list Z := map delayTime [1; 2; 3; 4; 5].

(** A disconnect that the library reports as "logged out" *)
Definition loggedOutUpdate : update :=
  {| connection := Str "close";
     lastDisconnect :=
       Object false
         [("error", Object true [("output", Object false [("statusCode", Num 401)])])];
     qr := Undefined |}.

End ConnSpec.

Module StringSpec.

(** [w] occurs in [s] *)
Definition contains (w s : string) : Prop := exists a b, s = a ++ w ++ b.

End StringSpec.

(** The command table of the dispatcher as the specification words it: a
    fixed list of commands, each with the test that selects it, of which
    the first that matches is invoked. *)
Module DispatchSpec.
Import JS Admin Effects Bot.

Inductive command : Type :=
| Ping | HelpCommand | Info | Time | Admins | Promote | Demote | BroadcastCommand
| AddReminder | MyReminders | CancelReminder | NaturalReminder.

(** The lower-cased text is one of the given words *)
Definition oneOf (words : list string) (lowerText : string) : bool :=
  existsb (String.eqb lowerText) words.

(** The lower-cased text starts with the command name after [!] or [/] *)
Definition prefixed (name : string) (lowerText : string) : bool :=
  startsWith ("!" ++ name) lowerText || startsWith ("/" ++ name) lowerText.

(** The lower-cased text includes one of the given keywords *)
Definition mentions (words : list string) (lowerText : string) : bool :=
  existsb (fun word => JS.includes word lowerText) words.

Definition table : list (command * (string -> bool)) :=
  [(Ping, oneOf ["!ping"; "/ping"]);
   (HelpCommand, oneOf ["!help"; "/help"; "!start"]);
   (Info, oneOf ["!info"; "/info"]);
   (Time, oneOf ["!time"; "/time"]);
   (Admins, oneOf ["!admins"; "/admins"]);
   (Promote, prefixed "promote");
   (Demote, prefixed "demote");
   (BroadcastCommand, prefixed "broadcast");
   (AddReminder, prefixed "addreminder");
   (MyReminders, prefixed "myreminders");
   (CancelReminder, prefixed "cancelreminder");
   (NaturalReminder, mentions ["remind me"; "reminder"; "alarm"])].

Definition selects (text : string) (entry : command * (string -> bool)) : bool :=
  snd entry (toLowerCase text).

Definition firstMatch (text : string) : option command :=
  option_map fst (find (selects text) table).

Section Invoke.
Variable svc : ReminderService.

(** The handler of each command *)
Definition invoke (c : command) (p : params) (isUserAdmin isUserCreator : bool)
    : H svc unit :=
  match c with
  | Ping => sendTo (jid p) Pong
  | HelpCommand => sendHelpMessage svc (jid p) isUserAdmin (isGroup p)
  | Info => sendBotInfo svc (jid p)
  | Time => sendCurrentTime svc (jid p)
  | Admins => handleAdminsCommand svc (jid p) isUserAdmin
  | Promote =>
      handlePromoteCommand svc (jid p) (sender p) (text p) isUserAdmin isUserCreator
  | Demote =>
      handleDemoteCommand svc (jid p) (sender p) (text p) isUserAdmin isUserCreator
  | BroadcastCommand =>
      handleBroadcastCommand svc (jid p) (sender p) (text p) isUserAdmin
  | AddReminder => handleAddReminder svc (jid p) (sender p) (text p) (pushName p)
  | MyReminders => handleMyReminders svc (jid p) (sender p)
  | CancelReminder => handleCancelReminder svc (jid p) (sender p) (text p)
  | NaturalReminder => handleNaturalReminder svc (jid p) (sender p) (text p) (pushName p)
  end.

(** The text is a command attempt: it starts with [!] or [/] *)
Definition looksLikeCommand (text : string) : bool :=
  startsWith "!" text || startsWith "/" text.

(** Dispatch by the table *)
Definition dispatch (p : params) : H svc unit :=
  catch
    (bind (onFiles (isAdmin (Some (sender p)))) (fun isUserAdmin =>
       match firstMatch (text p) with
       | Some c => invoke c p isUserAdmin (isCreator (Some (sender p)))
       | None =>
           if looksLikeCommand (text p) then sendTo (jid p) UnknownCommand
           else ret tt
       end))
    (fun error => catch (sendTo (jid p) (CommandError error)) (fun _ => ret tt)).

(** A handler replies: when it returns, it has sent a message. *)
Definition replies {A : Type} (m : H svc A) : Prop :=
  forall w,
    match fst (fst (m w)) with
    | Ok _ => existsb isSend (snd (m w)) = true
    | Throw _ => True
    end.

(** A handler answers: whether it returns or throws, it has sent a
    message. *)
Definition answers {A : Type} (m : H svc A) : Prop :=
  forall w, existsb isSend (snd (m w)) = true.

(** The events that come from outside: an inbound message, a change of the
    participants of a group, and the opening of the connection *)
Definition inboundEvent (e : event) : Prop :=
  match e with
  | MessagesUpsert _ => True
  | GroupParticipantsUpdate _ => True
  | ConnectionUpdate u => isState u "open" = true
  | _ => False
  end.

(** The same world with another reminder store *)
Definition withReminders (w : world svc) (s : Store svc) : world svc :=
  {| files := files svc w; clock := clock svc w; conn := conn svc w; reminders := s |}.

(** A handler that neither reads nor writes the reminder store *)
Definition blind {A : Type} (m : H svc A) : Prop :=
  forall w s,
    m (withReminders w s) = (let '(r, w1, e) := m w in (r, withReminders w1 s, e)).

(** The messages among the effects *)
Definition sends (l : list effect) : list effect := filter isSend l.

End Invoke.
End DispatchSpec.

(** Modelled from the spec: the reminder store, an external collaborator of
    which only the calls are in the sources ("create/list/delete reminder
    records keyed by user identity").  It keeps the records in memory and
    starts no timer. *)
Module MemoryReminders.
Import Admin Effects.

Record entry : Type := {
  chat : string;
  owner : string;
  item : reminder
}.

Definition store : Type := list entry.

Definition freshId (s : store) : string :=
  "r" ++ NilEmpty.string_of_uint (Nat.to_uint (List.length s)).

Definition create (chat owner message : string) (dueAt : option DateTime.t)
    (s : store) : outcome reminder * store :=
  match dueAt with
  | None => (Throw "Invalid due time", s)
  | Some d =>
      let r := {| id := freshId s; text := message; dueAt := d; status := "pending" |} in
      (Ok r, (s ++ [{| chat := chat; owner := owner; item := r |}])%list)
  end.

Definition ownedBy (who : string) (e : entry) : bool := String.eqb (owner e) who.

Definition listFor (who : string) (s : store) : outcome (list reminder) * store :=
  (Ok (map item (filter (ownedBy who) s)), s).

Definition identifies (reminderId who : string) (e : entry) : bool :=
  ownedBy who e && String.eqb (id (item e)) reminderId.

Definition delete (reminderId who : string) (s : store) : outcome bool * store :=
  if existsb (identifies reminderId who) s
  then (Ok true, filter (fun e => negb (identifies reminderId who e)) s)
  else (Ok false, s).

Definition service : Bot.ReminderService :=
  {| Bot.Store := store;
     Bot.initReminderSystem := fun s => (Ok tt, s);
     Bot.createReminder := create;
     Bot.getUserReminders := listFor;
     Bot.deleteReminder := delete |}.

(** A world to run examples in: no admins file yet, a clock that stands
    still, a fresh connection state and no reminders. *)
Definition emptyWorld : Bot.world service :=
  Bot.Build_world service
    {| adminsFile := None; writable := true |}
    (DateTime.constant 0)
    Connection.initial
    ([] : store).

End MemoryReminders.

(** ** Vocabulary of the statements about the handlers *)

Module TextSpec.
Import JS.

(** The characters of [s] that satisfy [p], in their order *)
Fixpoint keep (p : ascii -> bool) (s : string) : string :=
  match s with
  | EmptyString => EmptyString
  | String c s' => if p c then String c (keep p s') else keep p s'
  end.

(** Some character of [s] satisfies [p]. *)
Fixpoint anyChar (p : ascii -> bool) (s : string) : bool :=
  match s with
  | EmptyString => false
  | String c s' => p c || anyChar p s'
  end.

(** A character that [trim] keeps *)
Definition isInk (c : ascii) : bool := negb (isSpace c).

(** The text after the first space of [s], if [s] has a space *)
Fixpoint afterSpace (s : string) : option string :=
  match s with
  | EmptyString => None
  | String c s' =>
      if Ascii.eqb " " c then Some s'
      else afterSpace s'
  end.

End TextSpec.

Module PatternSpec.
Import JS Regex.

(** Every traversal of the expression consumes a decimal digit. *)
Fixpoint requiresDigit (r : regex) : bool :=
  match r with
  | Digit => true
  | Cat a b => requiresDigit a || requiresDigit b
  | Alt a b => requiresDigit a && requiresDigit b
  | Group _ a => requiresDigit a
  | _ => false
  end.

(** The expression can be traversed without consuming anything. *)
Fixpoint nullable (r : regex) : bool :=
  match r with
  | Eps => true
  | Lit s => isEmpty s
  | Cat a b => nullable a && nullable b
  | Alt a b => nullable a || nullable b
  | Star _ => true
  | Group _ a => nullable a
  | _ => false
  end.

(** The expression has a capturing group of number [n]. *)
Fixpoint hasGroup (n : nat) (r : regex) : bool :=
  match r with
  | Cat a b | Alt a b => hasGroup n a || hasGroup n b
  | Star a => hasGroup n a
  | Group m a => (n =? m)%nat || hasGroup n a
  | _ => false
  end.

(** The text from its first decimal digit on *)
Fixpoint fromFirstDigit (s : string) : string :=
  match s with
  | EmptyString => EmptyString
  | String c s' => if isDigit c then s else fromFirstDigit s'
  end.

(** The first decimal digit of a text together with the character after
    it when that is a digit too *)
Definition leadingHour (s : string) : string :=
  match fromFirstDigit s with
  | String a (String b _) => if isDigit b then String a (String b "") else String a ""
  | String a EmptyString => String a ""
  | EmptyString => EmptyString
  end.

(** What follows the hour in the three clock-time patterns:
    [(?::(\d{2}))?\s*(am|pm)?] *)
Definition afterHour : regex := Parser.seq (List.tl Parser.clockTime).

(** The local midnight that starts the day of [d] *)
Definition startOfDay (d : DateTime.t) : DateTime.t := DateTime.setTime d 0 0.

End PatternSpec.

Module HandlerSpec.
Import JS Admin Effects Bot.

(** The usage notes of the three commands that take their argument with
    [text.substring(text.indexOf(' ') + 1).trim()] *)
Definition isUsage (t : template) : bool :=
  match t with
  | AddReminderUsage | CancelUsage | BroadcastUsage => true
  | _ => false
  end.

(** A message that the loop of [handleMessagesUpsert] passes over: it has
    no content, it is the bot's own, it comes from a broadcast list or its
    content is of no supported type. *)
Definition skipped (msg : inbound) : bool :=
  match message msg with
  | None => true
  | Some messageContent =>
      fromMe msg
      || isJidBroadcast (remoteJid msg)
      || match messageText messageContent with None => true | Some _ => false end
  end.

(** A message that gets no answer: one that is passed over, or one whose
    text is blank *)
Definition silent (msg : inbound) : bool :=
  skipped msg
  || match message msg with
     | Some messageContent =>
         match messageText messageContent with
         | Some text => isEmpty (trim text)
         | None => true
         end
     | None => true
     end.

(** The admins a broadcast goes to after the creator: every entry of the
    stored list that is neither the creator nor the sender *)
Definition broadcastTargets (sender : string) (admins : list json) : list json :=
  filter (fun adminJid => negb (isString CREATOR_JID adminJid)
                          && negb (isString sender adminJid)) admins.


(** An effect that is no usage note of the three *)
Definition notUsage (e : effect) : bool :=
  match e with
  | Send _ t => negb (isUsage t)
  | _ => true
  end.

Definition notDelay (e : effect) : bool :=
  match e with
  | Delay _ => false
  | _ => true
  end.

Definition isText (j : json) : bool :=
  match j with JStr _ => true | _ => false end.

(** The reminders that [!myreminders] shows *)
Definition pendingOf (reminders : list reminder) : list reminder :=
  filter (fun r => String.eqb (status r) "pending") reminders.

(** A JID that is shown without an error: a string, or a value that counts
    as missing *)
Definition showable (j : json) : bool := isText j || falsy j.

(** [msg.key.participant || msg.key.remoteJid], the sender of a message *)
Definition senderOf (msg : inbound) : string :=
  orString (participant msg) (remoteJid msg).

Section Invariants.
Variable svc : ReminderService.

(** The admin list that the file of a world stores *)
Definition adminsOf (w : world svc) : list json := stored (files svc w).

(** A handler that leaves a component of the world as it was, whether it
    returns or throws *)
Definition preserves {X A : Type} (proj : world svc -> X) (m : H svc A) : Prop :=
  forall w, proj (worldAfter m w) = proj w.

(** A handler all of whose effects are of the class [Q] *)
Definition only {A : Type} (Q : effect -> bool) (m : H svc A) : Prop :=
  forall w e, In e (effectsOf m w) -> Q e = true.

(** The [connection.update] handler called for each update of a sequence,
    whatever the calls before have come to: the world it leaves and the
    effects it has had *)
Fixpoint runUpdates (us : list Connection.update) (w : world svc)
    : world svc * list effect :=
  match us with
  | [] => (w, [])
  | u :: us' =>
      let w1 := worldAfter (onConnectionUpdate svc u) w in
      let (w2, e2) := runUpdates us' w1 in
      (w2, (effectsOf (onConnectionUpdate svc u) w ++ e2)%list)
  end.

End Invariants.
End HandlerSpec.

(** Worlds and events to run the handlers on *)
Module Examples.
Import Admin Effects Bot.

Definition alice : string := "8801712345678@s.whatsapp.net".
Definition bob : string := "8801812345678@s.whatsapp.net".

(** A text message of a private chat *)
Definition textFrom (who text : string) (own : bool) : inbound :=
  {| message := Some {| conversation := Some text;
                        extendedTextMessage := None;
                        imageMessage := None;
                        videoMessage := None;
                        documentMessage := None |};
     fromMe := own;
     remoteJid := who;
     participant := None;
     senderName := None |}.

Definition batch (l : list inbound) : upsert := {| type := "notify"; messages := l |}.

(** An admins file that lists two admins and can be written *)
Definition aliceAndBob : fs :=
  {| adminsFile := Some (Json (adminsDoc [JStr alice; JStr bob])); writable := true |}.

(** A number that the file does not list *)
Definition carol : string := "8801912345678@s.whatsapp.net".

(** A world whose admins file lists two admins *)
Definition twoAdmins : world MemoryReminders.service :=
  Build_world MemoryReminders.service
    {| adminsFile := Some (Json (adminsDoc [JStr alice; JStr bob])); writable := true |}
    (DateTime.constant 0)
    Connection.initial
    ([] : MemoryReminders.store).

(** A world whose admins file holds a number among the admins *)
Definition brokenAdmins : world MemoryReminders.service :=
  Build_world MemoryReminders.service
    {| adminsFile := Some (Json (adminsDoc [JStr alice; JNum 7])); writable := true |}
    (DateTime.constant 0)
    Connection.initial
    ([] : MemoryReminders.store).

Definition openUpdate : Connection.update :=
  {| Connection.connection := Connection.Str "open";
     Connection.lastDisconnect := Connection.Undefined;
     Connection.qr := Connection.Undefined |}.

Definition noSocket : socket := {| userId := None |}.

End Examples.

(** ** Strings *)

Section StringFacts.
Import JS StringSpec.

Lemma startsWith_iff (w s : string) : startsWith w s = true <-> exists b, s = w ++ b.
Proof.
  revert s. induction w as [|c w IH]; intro s; simpl.
  - split; [exists s; reflexivity|reflexivity].
  - destruct s as [|d s].
    + split; [discriminate|intros [b Hb]; discriminate].
    + rewrite andb_true_iff, Ascii.eqb_eq, IH.
      split.
      * intros [-> [b ->]]. exists b. reflexivity.
      * intros [b Hb]. inversion Hb. split; [reflexivity|exists b; reflexivity].
Qed.

Lemma indexOfFrom_found (w s : string) (i : Z) :
  0 <= i -> (0 <= indexOfFrom w s i <-> contains w s).
Proof.
  revert i. induction s as [|c s IH]; intros i Hi; simpl.
  - destruct (startsWith w "") eqn:Hp.
    + apply startsWith_iff in Hp. destruct Hp as [b Hb].
      split; [intros _; exists "", b; exact Hb|intros _; exact Hi].
    + split; [lia|]. intros [a [b Hab]].
      assert (startsWith w "" = true) as Hq; [|congruence].
      apply startsWith_iff. destruct a; [exists b; exact Hab|discriminate].
  - destruct (startsWith w (String c s)) eqn:Hp.
    + apply startsWith_iff in Hp. destruct Hp as [b Hb].
      split; [intros _; exists "", b; exact Hb|intros _; exact Hi].
    + rewrite (IH (i + 1)) by lia.
      split; intros [a [b Hab]].
      * exists (String c a), b. simpl. rewrite Hab. reflexivity.
      * destruct a as [|d a].
        -- assert (startsWith w (String c s) = true) as Hq; [|congruence].
           apply startsWith_iff. exists b. exact Hab.
        -- exists a, b. now inversion Hab.
Qed.

(** [s.includes(w)] holds exactly when [w] occurs in [s]. *)
Lemma includes_iff (w s : string) : includes w s = true <-> contains w s.
Proof.
  unfold includes, indexOf. rewrite Z.leb_le. apply indexOfFrom_found. lia.
Qed.

End StringFacts.

(** ** The time parser *)

Section ParserFacts.
Import JS Regex Parser DateTime Spec.

(** [parseNaturalTime] in closed form: it always returns an object, whose
    two fields are given by [dueOf] and [cleaned]. *)
Lemma parseAt_closed_form (text : string) (c : Clock) :
  parseAt text c =
  Some {| dueAt := Some (dueOf (extractMessage text) (c 0%nat) (c 1%nat));
          message := orReminder (cleaned (extractMessage text)) |}.
Proof.
  unfold parseAt, parseNaturalTime, dueOf, cleaned, shapeOf.
  generalize (extractMessage text); intro msg.
  unfold patternIn, patternTomorrow, patternDaily, patternTime, defaultDue,
    todayOrTomorrow, bind, ret, now.
  destruct (exec true inPattern msg) as [mi|]; simpl.
  - destruct (exec true tomorrowPattern msg), (exec true dailyPattern msg); reflexivity.
  - destruct (exec true tomorrowPattern msg) as [mt|]; simpl.
    + destruct (clockOf mt) as [h mn]; simpl.
      destruct (exec true dailyPattern msg); reflexivity.
    + destruct (exec true dailyPattern msg) as [md|]; simpl.
      * destruct (clockOf md) as [h mn]; reflexivity.
      * destruct (exec true timePattern msg) as [mg|]; simpl.
        -- destruct (clockOf mg) as [h mn]; reflexivity.
        -- reflexivity.
Qed.

(** C1 (as stated, refuted): the same text parsed under two clocks that
    are a minute apart gives two different due times. *)
Lemma due_time_depends_on_the_clock :
  option_map dueAt (parseAt "call mom" (constant 0))
  <> option_map dueAt (parseAt "call mom" (constant 60000)).
Proof. vm_compute. discriminate. Qed.

(** C1 (as amended): the cleaned message is a function of the text alone;
    the due time is a function of the text and of the readings of the
    clock, of which the first two only are looked at. *)
Theorem parseNaturalTime_message_is_pure (text : string) (c1 c2 : Clock) :
  option_map message (parseAt text c1) = option_map message (parseAt text c2)
  /\ (c1 0%nat = c2 0%nat -> c1 1%nat = c2 1%nat -> parseAt text c1 = parseAt text c2).
Proof.
  rewrite !parseAt_closed_form. split; [reflexivity|].
  intros H0 H1. rewrite H0, H1. reflexivity.
Qed.

Lemma parseNaturalTime_message_is_pure_witness :
  parseAt "remind me daily at 8pm to take medicine"
          (fun n => match n with O => 0 | 1%nat => 5 | _ => 100 end)
  = parseAt "remind me daily at 8pm to take medicine"
          (fun n => match n with O => 0 | 1%nat => 5 | _ => 200 end).
Proof.
  apply (proj2 (parseNaturalTime_message_is_pure
                  "remind me daily at 8pm to take medicine"
                  (fun n => match n with O => 0 | 1%nat => 5 | _ => 100 end)
                  (fun n => match n with O => 0 | 1%nat => 5 | _ => 200 end)));
    reflexivity.
Defined.

End ParserFacts.

(** ** The regular-expression matcher *)

Section RegexFacts.
Import JS Regex RegexSpec.

Lemma orElse_some {A : Type} (x y : option A) (v : A) :
  orElse x y = Some v -> x = Some v \/ y = Some v.
Proof. destruct x; simpl; auto. Qed.

Lemma class_sound (p : ascii -> bool) (st : cursor) (k : cursor -> option cursor)
    (x : cursor) :
  class p st k = Some x ->
  exists c st', advance st = Some (c, st') /\ p c = true /\ k st' = Some x.
Proof.
  unfold class. destruct (advance st) as [[c st']|]; [|discriminate].
  destruct (p c) eqn:Hp; [|discriminate]. eauto.
Qed.

(** Soundness of the matcher: a success comes from a traversal whose end
    the continuation accepts. *)
Lemma rmatch_sound (i : bool) (r : regex) :
  forall st k x, rmatch i r st k = Some x ->
  exists st', Path i r st st' /\ k st' = Some x.
Proof.
  induction r as [|s| | | |a IHa b IHb|a IHa b IHb|a IHa|n a IHa| |];
    intros st k x H; cbn [rmatch] in H.
  - exists st. split; [constructor|exact H].
  - destruct (eat i s st) as [st'|] eqn:He; [|discriminate].
    exists st'. split; [constructor; exact He|exact H].
  - apply class_sound in H. destruct H as [c [st' [Ha [Hp Hk]]]].
    exists st'. split; [econstructor; eassumption|exact Hk].
  - apply class_sound in H. destruct H as [c [st' [Ha [Hp Hk]]]].
    exists st'. split; [econstructor; eassumption|exact Hk].
  - apply class_sound in H. destruct H as [c [st' [Ha [Hp Hk]]]].
    exists st'. split; [|exact Hk].
    apply PathNonDigit with c; [exact Ha|]. destruct (isDigit c); [discriminate|reflexivity].
  - apply IHa in H. destruct H as [mid [Pa H]].
    apply IHb in H. destruct H as [st' [Pb H]].
    exists st'. split; [econstructor; eassumption|exact H].
  - apply orElse_some in H. destruct H as [H|H].
    + apply IHa in H. destruct H as [st' [P H]]. exists st'. split; [apply PathAltL; exact P|exact H].
    + apply IHb in H. destruct H as [st' [P H]]. exists st'. split; [apply PathAltR; exact P|exact H].
  - revert H. generalize (S (String.length (rest st))). intro fuel.
    revert st k x. induction fuel as [|fuel IHf]; intros st k x H; cbn [starLoop] in H.
    + exists st. split; [constructor|exact H].
    + apply orElse_some in H. destruct H as [H|H].
      * apply IHa in H. destruct H as [mid [Pa H]].
        destruct (Nat.ltb_spec (pos st) (pos mid)) as [Hlt|Hge]; [|discriminate].
        apply IHf in H. destruct H as [st' [Ps H]].
        exists st'. split; [econstructor; eassumption|exact H].
      * exists st. split; [constructor|exact H].
  - apply IHa in H. destruct H as [st' [P H]].
    exists (capture n st st'). split; [constructor; exact P|exact H].
  - destruct (xorb _ _) eqn:Hx; [|discriminate].
    exists st. split; [constructor; exact Hx|exact H].
  - destruct (Nat.eqb_spec (pos st) 0) as [Hp|Hp]; [|discriminate].
    exists st. split; [constructor; exact Hp|exact H].
Qed.

Lemma append_assoc (a b c : string) : (a ++ b) ++ c = a ++ (b ++ c).
Proof. induction a as [|x a IH]; simpl; [reflexivity|rewrite IH; reflexivity]. Qed.

Lemma length_append (a b : string) :
  String.length (a ++ b) = (String.length a + String.length b)%nat.
Proof. induction a as [|x a IH]; simpl; [reflexivity|rewrite IH; reflexivity]. Qed.

Lemma lastOf_append (p : option ascii) (a b : string) :
  lastOf p (a ++ b) = lastOf (lastOf p a) b.
Proof. revert p. induction a as [|x a IH]; intro p; simpl; [reflexivity|apply IH]. Qed.

Lemma take_append (a b : string) : take (String.length a) (a ++ b) = a.
Proof. induction a as [|x a IH]; simpl; [destruct b; reflexivity|rewrite IH; reflexivity]. Qed.


















End RegexFacts.

(** ** Completeness of the matcher on the phrase "in N unit" *)

Section Completeness.
Import JS Regex RegexSpec Parser PhraseSpec.

































End Completeness.

(** ** The phrase "in N hours" *)

Section PhraseFacts.
Import JS Regex RegexSpec Parser PhraseSpec.














Import DateTime Spec.





End PhraseFacts.

(** ** The connection manager *)

Section ConnectionFacts.
Import Effects Connection ConnSpec.

Lemma optGet_primitive (b : bool) (name : string) : optGet (Bool b) name = Undefined.
Proof. reflexivity. Qed.

Lemma statusCode_undefined (u : update) : statusCode u = Undefined.
Proof. unfold statusCode. rewrite optGet_primitive. reflexivity. Qed.

Lemma shouldReconnect_true (u : update) : shouldReconnect u = true.
Proof. unfold shouldReconnect. rewrite statusCode_undefined. reflexivity. Qed.

(** What the [close] branch does, the status code being what it is *)
Lemma onClose_cases (u : update) (s : state) :
  onClose u s =
  if connectionRetries s <? MAX_RETRIES
  then ({| isConnected := false; connectionRetries := connectionRetries s + 1 |},
        [Disconnected; StatusChange "disconnected";
         Delay (delayTime (connectionRetries s + 1)); CreateBot], true)
  else ({| isConnected := false; connectionRetries := connectionRetries s |},
        [Disconnected; StatusChange "disconnected"], false).
Proof.
  unfold onClose. rewrite shouldReconnect_true, statusCode_undefined. simpl.
  destruct (connectionRetries s <? MAX_RETRIES); reflexivity.
Qed.

(** C3: on every close event the extracted status code is [undefined],
    whatever the disconnect carries; so [shouldReconnect] is true for every
    cause, the logged-out one included, and the test against
    [connectionClosed] never resets the retry counter: the counter is
    incremented when below the maximum and kept otherwise. *)
Theorem close_status_code_is_undefined (u : update) (s : state) :
  statusCode u = Undefined
  /\ shouldReconnect u = true
  /\ shouldReconnect loggedOutUpdate = true
  /\ strictEq (statusCode u) DisconnectReason.connectionClosed = false
  /\ connectionRetries (fst (fst (onClose u s))) =
     (if connectionRetries s <? MAX_RETRIES
      then connectionRetries s + 1 else connectionRetries s).
Proof.
  split; [|split; [|split; [|split]]].
  - apply statusCode_undefined.
  - apply shouldReconnect_true.
  - apply shouldReconnect_true.
  - rewrite statusCode_undefined. reflexivity.
  - rewrite onClose_cases. destruct (connectionRetries s <? MAX_RETRIES); reflexivity.
Qed.

Lemma delays_app (a b : list effect) : delays (a ++ b) = (delays a ++ delays b)%list.
Proof. unfold delays. apply flat_map_app. Qed.






End ConnectionFacts.

(** ** The admin store *)

Section AdminFacts.
Import Admin StringSpec.

Lemma isString_iff (s : string) (item : json) : isString s item = true <-> item = JStr s.
Proof.
  destruct item; simpl; try (split; [discriminate|congruence]).
  rewrite String.eqb_eq. split; congruence.
Qed.

Lemma includes_In (s : string) (l : list json) : includes s l = true <-> In (JStr s) l.
Proof.
  unfold includes. rewrite existsb_exists. split.
  - intros [x [Hx Hs]]. apply isString_iff in Hs. congruence.
  - intro H. exists (JStr s). split; [exact H|apply isString_iff; reflexivity].
Qed.

Lemma includes_false (s : string) (l : list json) :
  includes s l = false <-> ~ In (JStr s) l.
Proof. rewrite <- includes_In. destruct (includes s l); split; congruence. Qed.

Lemma isCreator_iff (j : jid) : isCreator j = true <-> j = Some CREATOR_JID.
Proof.
  destruct j as [s|]; simpl; [|split; discriminate].
  rewrite String.eqb_eq. split; congruence.
Qed.

(** Reading returns the stored list, and keeps it: the only change a read
    can make is to create a missing file with an empty array. *)
Lemma read_stored (f : fs) :
  fst (readAdminsFromFile f) = stored f
  /\ stored (snd (readAdminsFromFile f)) = stored f
  /\ writable (snd (readAdminsFromFile f)) = writable f.
Proof.
  unfold readAdminsFromFile, ensureAdminsFile, stored, writeFile, adminsArray, falsy.
  destruct f as [[[|parsed]|] w]; cbn [adminsFile writable].
  - repeat split.
  - destruct parsed as [|b|n|s|items|props]; simpl;
      try destruct b; try destruct (n =? 0); try destruct (JS.isEmpty s);
      try (destruct (property "admins" props) as [[]|] eqn:Hp; simpl; rewrite ?Hp);
      repeat split.
  - destruct w; repeat split.
Qed.

Lemma write_cases (l : list json) (f : fs) :
  (writable f = true /\ fst (writeAdminsToFile l f) = Ok tt
   /\ stored (snd (writeAdminsToFile l f)) = l)
  \/ (writable f = false /\ exists msg, writeAdminsToFile l f = (Throw msg, f)).
Proof.
  unfold writeAdminsToFile, writeFile. destruct (writable f) eqn:Hw.
  - left. auto.
  - right. split; [reflexivity|eexists; reflexivity].
Qed.

(** [promoteAdmin] by cases, the read of the file replaced by what it
    returns *)
Lemma promoteAdmin_cases (promoter target : jid) (f : fs) :
  promoteAdmin promoter target f =
  if negb (isCreator promoter) then
    ({| success := false; message := "Only the creator can promote admins" |}, f)
  else if missing target || negb (JS.includes "@s.whatsapp.net" (text target)) then
    ({| success := false; message := "Invalid JID format" |}, f)
  else if isCreator target then
    ({| success := false; message := "Creator is already admin" |}, f)
  else if includes (text target) (stored f) then
    ({| success := false; message := "User is already an admin" |},
     snd (readAdminsFromFile f))
  else if writable f then
    ({| success := true; message := "User promoted to admin successfully" |},
     snd (writeAdminsToFile (stored f ++ [JStr (text target)])
            (snd (readAdminsFromFile f))))
  else
    ({| success := false; message := "Failed to promote user" |},
     snd (readAdminsFromFile f)).
Proof.
  unfold promoteAdmin.
  destruct (negb (isCreator promoter)); [reflexivity|].
  destruct (missing target || _); [reflexivity|].
  destruct (isCreator target); [reflexivity|].
  destruct (read_stored f) as [Hr [_ Hw]].
  destruct (readAdminsFromFile f) as [l f1]. cbn [fst snd] in *. subst l.
  destruct (includes (text target) (stored f)); [reflexivity|].
  destruct (write_cases (stored f ++ [JStr (text target)]) f1) as [[Hw1 [Hok _]]|[Hw1 [msg Hth]]].
  - rewrite <- Hw, Hw1.
    destruct (writeAdminsToFile _ f1) as [[|] f2]; cbn [fst snd] in *;
      [reflexivity|discriminate].
  - rewrite <- Hw, Hw1, Hth. reflexivity.
Qed.

Lemma demoteAdmin_cases (demoter target : jid) (f : fs) :
  demoteAdmin demoter target f =
  if negb (isCreator demoter) then
    ({| success := false; message := "Only the creator can demote admins" |}, f)
  else if missing target || negb (JS.includes "@s.whatsapp.net" (text target)) then
    ({| success := false; message := "Invalid JID format" |}, f)
  else if isCreator target then
    ({| success := false; message := "Cannot demote the creator" |}, f)
  else if negb (includes (text target) (stored f)) then
    ({| success := false; message := "User is not an admin" |},
     snd (readAdminsFromFile f))
  else if writable f then
    ({| success := true; message := "User demoted from admin successfully" |},
     snd (writeAdminsToFile
            (filter (fun j => negb (isString (text target) j)) (stored f))
            (snd (readAdminsFromFile f))))
  else
    ({| success := false; message := "Failed to demote user" |},
     snd (readAdminsFromFile f)).
Proof.
  unfold demoteAdmin.
  destruct (negb (isCreator demoter)); [reflexivity|].
  destruct (missing target || _); [reflexivity|].
  destruct (isCreator target); [reflexivity|].
  destruct (read_stored f) as [Hr [_ Hw]].
  destruct (readAdminsFromFile f) as [l f1]. cbn [fst snd] in *. subst l.
  destruct (negb (includes (text target) (stored f))); [reflexivity|].
  destruct (write_cases (filter (fun j => negb (isString (text target) j)) (stored f)) f1)
    as [[Hw1 [Hok _]]|[Hw1 [msg Hth]]].
  - rewrite <- Hw, Hw1.
    destruct (writeAdminsToFile _ f1) as [[|] f2]; cbn [fst snd] in *;
      [reflexivity|discriminate].
  - rewrite <- Hw, Hw1, Hth. reflexivity.
Qed.

Lemma stored_after_write (l : list json) (f : fs) :
  writable f = true ->
  stored (snd (writeAdminsToFile l (snd (readAdminsFromFile f)))) = l.
Proof.
  intro Hw. destruct (read_stored f) as [_ [_ Hw1]].
  destruct (write_cases l (snd (readAdminsFromFile f))) as [[_ [_ H]]|[H _]];
    [exact H|congruence].
Qed.

Lemma stored_after_read (f : fs) : stored (snd (readAdminsFromFile f)) = stored f.
Proof. apply read_stored. Qed.

Lemma missing_false (j : jid) : missing j = false <-> exists s, j = Some s /\ s <> "".
Proof.
  destruct j as [s|]; simpl.
  - split.
    + intro H. exists s. split; [reflexivity|]. intros ->. discriminate.
    + intros [t [Ht Hne]]. inversion Ht; subst. destruct t; [congruence|reflexivity].
  - split; [discriminate|intros [s [H _]]; discriminate].
Qed.

(** What [promoteAdmin] returns and what it leaves in the store *)
Lemma promoteAdmin_outcome (promoter target : jid) (f : fs) :
  (success (fst (promoteAdmin promoter target f)) = true <->
     promoter = Some CREATOR_JID
     /\ exists t, target = Some t
               /\ contains "@s.whatsapp.net" t
               /\ t <> CREATOR_JID
               /\ ~ In (JStr t) (stored f)
               /\ writable f = true)
  /\ (success (fst (promoteAdmin promoter target f)) = true ->
      stored (snd (promoteAdmin promoter target f))
      = (stored f ++ [JStr (text target)])%list)
  /\ (success (fst (promoteAdmin promoter target f)) = false ->
      stored (snd (promoteAdmin promoter target f)) = stored f).
Proof.
  rewrite promoteAdmin_cases.
  destruct (isCreator promoter) eqn:Hp; cbn [negb].
  2:{ split; [|split]; cbn [fst snd success]; try congruence.
      split; [discriminate|]. intros [H _]. apply isCreator_iff in H. congruence. }
  apply isCreator_iff in Hp.
  destruct (missing target) eqn:Hm; cbn [orb].
  { split; [|split]; cbn [fst snd success]; try congruence.
    split; [discriminate|]. intros [_ [t [-> [Hc _]]]].
    destruct t; [|discriminate]. destruct Hc as [a [b Hab]].
    destruct a; discriminate. }
  apply missing_false in Hm. destruct Hm as [t [-> Hne]]. cbn [text].
  destruct (JS.includes "@s.whatsapp.net" t) eqn:Hi; cbn [negb].
  2:{ split; [|split]; cbn [fst snd success]; try congruence.
      split; [discriminate|]. intros [_ [t' [Ht [Hc _]]]]. inversion Ht; subst t'.
      apply includes_iff in Hc. congruence. }
  apply includes_iff in Hi.
  destruct (isCreator (Some t)) eqn:Hc.
  { split; [|split]; cbn [fst snd success]; try congruence.
    split; [discriminate|]. intros [_ [t' [Ht [_ [Hn _]]]]]. inversion Ht; subst t'.
    apply isCreator_iff in Hc. congruence. }
  assert (t <> CREATOR_JID) as Hnc.
  { intros ->. rewrite (proj2 (isCreator_iff (Some CREATOR_JID)) eq_refl) in Hc.
    discriminate. }
  destruct (includes t (stored f)) eqn:Hin.
  { split; [|split]; cbn [fst snd success]; try congruence.
    - split; [discriminate|]. intros [_ [t' [Ht [_ [_ [Hn _]]]]]]. inversion Ht; subst t'.
      apply includes_In in Hin. contradiction.
    - intros _. apply stored_after_read. }
  apply includes_false in Hin.
  destruct (writable f) eqn:Hw.
  - split; [|split]; cbn [fst snd success]; try congruence.
    + split; [|reflexivity]. intros _. split; [exact Hp|].
      exists t. repeat split; assumption.
    + intros _. apply stored_after_write. exact Hw.
  - split; [|split]; cbn [fst snd success]; try congruence.
    + split; [discriminate|]. intros [_ [t' [_ [_ [_ [_ H]]]]]]. discriminate.
    + intros _. apply stored_after_read.
Qed.

(** C5: [promoteAdmin] succeeds exactly when the promoter is the creator,
    the target contains '@s.whatsapp.net', is not the creator and is not in
    the stored list, and the file can be written; a success appends the
    target, and only it, to the stored list; every failure leaves the
    stored list as it was. *)
Theorem promoteAdmin_success_iff (promoter target : jid) (f : fs) :
  (success (fst (promoteAdmin promoter target f)) = true <->
     promoter = Some CREATOR_JID
     /\ exists t, target = Some t
               /\ contains "@s.whatsapp.net" t
               /\ t <> CREATOR_JID
               /\ ~ In (JStr t) (stored f)
               /\ writable f = true)
  /\ (success (fst (promoteAdmin promoter target f)) = true ->
      stored (snd (promoteAdmin promoter target f))
      = (stored f ++ [JStr (text target)])%list)
  /\ (success (fst (promoteAdmin promoter target f)) = false ->
      stored (snd (promoteAdmin promoter target f)) = stored f).
Proof. exact (promoteAdmin_outcome promoter target f). Qed.

Lemma promoteAdmin_success_iff_witness :
  stored (snd (promoteAdmin (Some CREATOR_JID) (Some "8801712345678@s.whatsapp.net")
                 {| adminsFile := None; writable := true |}))
  = [JStr "8801712345678@s.whatsapp.net"].
Proof.
  apply (proj1 (proj2 (promoteAdmin_success_iff (Some CREATOR_JID)
                         (Some "8801712345678@s.whatsapp.net")
                         {| adminsFile := None; writable := true |}))).
  reflexivity.
Defined.

(** C7: the creator is a constant of the store.  [isAdmin] answers true for
    the creator whatever the file holds, [getAdminList] reports the same
    creator for every file, and [promoteAdmin] and [demoteAdmin] refuse the
    creator as a target, whoever asks: they return a failure and leave the
    file, and so the stored list, untouched. *)
Theorem creator_is_fixed (who : jid) (f : fs) :
  fst (isAdmin (Some CREATOR_JID) f) = true
  /\ creator (fst (getAdminList f)) = CREATOR_JID
  /\ success (fst (promoteAdmin who (Some CREATOR_JID) f)) = false
  /\ snd (promoteAdmin who (Some CREATOR_JID) f) = f
  /\ success (fst (demoteAdmin who (Some CREATOR_JID) f)) = false
  /\ snd (demoteAdmin who (Some CREATOR_JID) f) = f.
Proof.
  split; [reflexivity|]. split.
  - unfold getAdminList. destruct (readAdminsFromFile f). reflexivity.
  - rewrite promoteAdmin_cases, demoteAdmin_cases.
    destruct (isCreator who); simpl; repeat split.
Qed.

(** C8: [isAdmin] consults the file as it is when the call is made: the
    answer is true exactly for a non-empty JID that is the creator or is in
    the list stored in the file, and false for an empty or missing JID; the
    call leaves the stored list as it is.  So the next call sees every
    change: after a successful promotion the target is an admin, and after
    a successful demotion it no longer is. *)
Theorem isAdmin_reads_the_file (j : jid) (f : fs) :
  (fst (isAdmin j f) = true <->
     exists s, j = Some s /\ s <> "" /\ (s = CREATOR_JID \/ In (JStr s) (stored f)))
  /\ fst (isAdmin None f) = false
  /\ fst (isAdmin (Some "") f) = false
  /\ stored (snd (isAdmin j f)) = stored f
  /\ (forall who t,
        success (fst (promoteAdmin who (Some t) f)) = true ->
        fst (isAdmin (Some t) (snd (promoteAdmin who (Some t) f))) = true)
  /\ (forall who t,
        success (fst (demoteAdmin who (Some t) f)) = true ->
        fst (isAdmin (Some t) (snd (demoteAdmin who (Some t) f))) = false).
Proof.
  assert (forall j g, fst (isAdmin j g) = true <->
            exists s, j = Some s /\ s <> "" /\ (s = CREATOR_JID \/ In (JStr s) (stored g)))
    as Hiff.
  { intros k g. unfold isAdmin.
    destruct (missing k) eqn:Hm.
    - split; [discriminate|]. intros [s [-> [Hne _]]].
      destruct s; [congruence|discriminate].
    - apply missing_false in Hm. destruct Hm as [s [-> Hne]].
      destruct (isCreator (Some s)) eqn:Hc.
      + apply isCreator_iff in Hc. inversion Hc; subst s.
        split; [|reflexivity]. intros _. exists CREATOR_JID. auto.
      + destruct (read_stored g) as [Hr _].
        destruct (readAdminsFromFile g) as [l g1]. cbn [fst snd text] in *. subst l.
        rewrite includes_In. split.
        * intro Hin. exists s. auto.
        * intros [s' [Hs [_ [->|Hin]]]]; inversion Hs; subst.
          -- rewrite (proj2 (isCreator_iff (Some CREATOR_JID)) eq_refl) in Hc.
             discriminate.
          -- exact Hin. }
  split; [apply Hiff|]. split; [reflexivity|]. split; [reflexivity|]. split.
  { unfold isAdmin. destruct (missing j); [reflexivity|].
    destruct (isCreator j); [reflexivity|].
    pose proof (stored_after_read f) as Hs.
    destruct (readAdminsFromFile f). exact Hs. }
  split.
  - intros who t Hok.
    destruct (promoteAdmin_outcome who (Some t) f) as [Hs [Happ _]].
    apply Hs in Hok as Hcond. destruct Hcond as [_ [t' [Ht [Hc _]]]].
    inversion Ht; subst t'.
    apply Hiff. exists t. split; [reflexivity|]. split.
    + intros ->. destruct Hc as [a [b Hab]]. destruct a; discriminate.
    + right. rewrite (Happ Hok). apply in_or_app. right. left. reflexivity.
  - intros who t Hok.
    destruct (fst (isAdmin (Some t) (snd (demoteAdmin who (Some t) f)))) eqn:Hres;
      [|reflexivity].
    apply Hiff in Hres. destruct Hres as [s [Hs [_ Hor]]]. inversion Hs; subst s.
    rewrite demoteAdmin_cases in Hok, Hor.
    destruct (negb (isCreator who)); [discriminate|].
    destruct (missing (Some t) || _); [discriminate|].
    destruct (isCreator (Some t)) eqn:Hc; [discriminate|].
    destruct (negb (includes (text (Some t)) (stored f))); [discriminate|].
    destruct (writable f) eqn:Hw; [|discriminate].
    cbn [snd] in Hor. rewrite stored_after_write in Hor by exact Hw.
    destruct Hor as [->|Hin].
    + rewrite (proj2 (isCreator_iff (Some CREATOR_JID)) eq_refl) in Hc. discriminate.
    + apply filter_In in Hin. destruct Hin as [_ Hneg]. cbn [text] in Hneg.
      rewrite (proj2 (isString_iff t (JStr t)) eq_refl) in Hneg. discriminate.
Qed.

End AdminFacts.

(** ** The dispatcher and the handlers *)

Section BotFacts.
Import JS Admin Effects Bot DispatchSpec.

Variable svc : ReminderService.

Lemma replies_send (to : json) (t : template) : replies svc (send to t).
Proof. intro w. reflexivity. Qed.

Lemma replies_sendTo (to : string) (t : template) : replies svc (sendTo to t).
Proof. intro w. reflexivity. Qed.

(** A sequence replies as soon as its first part does... *)
Lemma replies_first {A B : Type} (m : H svc A) (k : A -> H svc B) :
  replies svc m -> replies svc (bind m k).
Proof.
  intros Hm w. specialize (Hm w). unfold bind.
  destruct (m w) as [[[a|msg] w1] e1]; cbn [fst snd] in *; [|exact I].
  destruct (k a w1) as [[[b|msg] w2] e2]; cbn [fst snd]; [|exact I].
  rewrite existsb_app, Hm. reflexivity.
Qed.

(** ... or its continuation does. *)
Lemma replies_then {A B : Type} (m : H svc A) (k : A -> H svc B) :
  (forall a, replies svc (k a)) -> replies svc (bind m k).
Proof.
  intros Hk w. unfold bind.
  destruct (m w) as [[[a|msg] w1] e1]; cbn [fst snd] in *; [|exact I].
  specialize (Hk a w1).
  destruct (k a w1) as [[[b|msg] w2] e2]; cbn [fst snd] in *; [|exact I].
  rewrite existsb_app, Hk. apply orb_true_r.
Qed.

(** A guarded handler replies when both the body and the catch block do. *)
Lemma replies_catch {A : Type} (m : H svc A) (h : string -> H svc A) :
  replies svc m -> (forall msg, replies svc (h msg)) -> replies svc (catch m h).
Proof.
  intros Hm Hh w. specialize (Hm w). unfold catch.
  destruct (m w) as [[[a|msg] w1] e1]; cbn [fst snd] in *; [exact Hm|].
  specialize (Hh msg w1).
  destruct (h msg w1) as [[[b|msg'] w2] e2]; cbn [fst snd] in *; [|exact I].
  rewrite existsb_app, Hh. apply orb_true_r.
Qed.

(** A catch block that replies makes up for a body that throws. *)
Lemma answers_catch {A : Type} (m : H svc A) (h : string -> H svc A) :
  replies svc m -> (forall msg, answers svc (h msg)) -> answers svc (catch m h).
Proof.
  intros Hm Hh w. specialize (Hm w). unfold catch.
  destruct (m w) as [[[a|msg] w1] e1]; cbn [fst snd] in *; [exact Hm|].
  specialize (Hh msg w1).
  destruct (h msg w1) as [[r w2] e2]; cbn [fst snd] in *.
  rewrite existsb_app, Hh. apply orb_true_r.
Qed.

Lemma answers_error (to : string) (error : string) :
  answers svc (catch (sendTo to (CommandError error)) (fun _ => ret tt)).
Proof. intro w. reflexivity. Qed.

Ltac replies_step :=
  match goal with
  | |- replies _ (sendTo _ _) => apply replies_sendTo
  | |- replies _ (send _ _) => apply replies_send
  | |- replies _ (catch _ _) => apply replies_catch; [|intro]
  | |- replies _ (bind (sendTo _ _) _) => apply replies_first, replies_sendTo
  | |- replies _ (bind _ _) => apply replies_then; intro
  | |- replies _ (if ?c then _ else _) => destruct c
  | |- replies _ (match ?x with _ => _ end) => destruct x
  end.

Ltac replies_auto := repeat replies_step.

Lemma sendHelpMessage_replies jid a g : replies svc (sendHelpMessage svc jid a g).
Proof. unfold sendHelpMessage. replies_auto. Qed.

Lemma sendBotInfo_replies jid : replies svc (sendBotInfo svc jid).
Proof. unfold sendBotInfo. replies_auto. Qed.

Lemma sendCurrentTime_replies jid : replies svc (sendCurrentTime svc jid).
Proof. unfold sendCurrentTime. replies_auto. Qed.

Lemma handleAdminsCommand_replies jid a : replies svc (handleAdminsCommand svc jid a).
Proof. unfold handleAdminsCommand. replies_auto. Qed.

Lemma handlePromoteCommand_replies jid sender text a c :
  replies svc (handlePromoteCommand svc jid sender text a c).
Proof. unfold handlePromoteCommand. replies_auto. Qed.

Lemma handleDemoteCommand_replies jid sender text a c :
  replies svc (handleDemoteCommand svc jid sender text a c).
Proof. unfold handleDemoteCommand. replies_auto. Qed.

Lemma handleBroadcastCommand_replies jid sender text a :
  replies svc (handleBroadcastCommand svc jid sender text a).
Proof. unfold handleBroadcastCommand. replies_auto. Qed.

Lemma handleAddReminder_replies jid sender text name :
  replies svc (handleAddReminder svc jid sender text name).
Proof. unfold handleAddReminder. replies_auto. Qed.

Lemma handleMyReminders_replies jid sender : replies svc (handleMyReminders svc jid sender).
Proof. unfold handleMyReminders. replies_auto. Qed.

Lemma handleCancelReminder_replies jid sender text :
  replies svc (handleCancelReminder svc jid sender text).
Proof. unfold handleCancelReminder. replies_auto. Qed.

Lemma handleNaturalReminder_replies jid sender text name :
  replies svc (handleNaturalReminder svc jid sender text name).
Proof. unfold handleNaturalReminder. replies_auto. Qed.

(** Every command of the table has a handler that replies. *)
Lemma invoke_replies (c : command) (p : params) (a cr : bool) :
  replies svc (invoke svc c p a cr).
Proof.
  destruct c; cbn [invoke].
  - apply replies_sendTo.
  - apply sendHelpMessage_replies.
  - apply sendBotInfo_replies.
  - apply sendCurrentTime_replies.
  - apply handleAdminsCommand_replies.
  - apply handlePromoteCommand_replies.
  - apply handleDemoteCommand_replies.
  - apply handleBroadcastCommand_replies.
  - apply handleAddReminder_replies.
  - apply handleMyReminders_replies.
  - apply handleCancelReminder_replies.
  - apply handleNaturalReminder_replies.
Qed.

(** The routing of [handleCommand] is the first match in the table. *)
Lemma routing_is_first_match (p : params) (a : bool) (w : world svc) :
  (let isUserCreator := isCreator (Some (sender p)) in
   let lowerText := toLowerCase (text p) in
   if String.eqb lowerText "!ping" || String.eqb lowerText "/ping" then
     sendTo (jid p) Pong
   else if String.eqb lowerText "!help" || String.eqb lowerText "/help"
           || String.eqb lowerText "!start" then
     sendHelpMessage svc (jid p) a (isGroup p)
   else if String.eqb lowerText "!info" || String.eqb lowerText "/info" then
     sendBotInfo svc (jid p)
   else if String.eqb lowerText "!time" || String.eqb lowerText "/time" then
     sendCurrentTime svc (jid p)
   else if String.eqb lowerText "!admins" || String.eqb lowerText "/admins" then
     handleAdminsCommand svc (jid p) a
   else if startsWith "!promote" lowerText || startsWith "/promote" lowerText then
     handlePromoteCommand svc (jid p) (sender p) (text p) a isUserCreator
   else if startsWith "!demote" lowerText || startsWith "/demote" lowerText then
     handleDemoteCommand svc (jid p) (sender p) (text p) a isUserCreator
   else if startsWith "!broadcast" lowerText || startsWith "/broadcast" lowerText then
     handleBroadcastCommand svc (jid p) (sender p) (text p) a
   else if startsWith "!addreminder" lowerText || startsWith "/addreminder" lowerText then
     handleAddReminder svc (jid p) (sender p) (text p) (pushName p)
   else if startsWith "!myreminders" lowerText || startsWith "/myreminders" lowerText then
     handleMyReminders svc (jid p) (sender p)
   else if startsWith "!cancelreminder" lowerText
           || startsWith "/cancelreminder" lowerText then
     handleCancelReminder svc (jid p) (sender p) (text p)
   else if JS.includes "remind me" (toLowerCase (text p))
           || JS.includes "reminder" (toLowerCase (text p))
           || JS.includes "alarm" (toLowerCase (text p)) then
     handleNaturalReminder svc (jid p) (sender p) (text p) (pushName p)
   else if startsWith "!" (text p) || startsWith "/" (text p) then
     sendTo (jid p) UnknownCommand
   else ret tt) w
  = match firstMatch (text p) with
    | Some c => invoke svc c p a (isCreator (Some (sender p)))
    | None =>
        if looksLikeCommand (text p) then sendTo (jid p) UnknownCommand else ret tt
    end w.
Proof.
  unfold firstMatch, table, selects, looksLikeCommand, oneOf, prefixed, mentions.
  cbn [find option_map fst snd existsb append].
  rewrite !orb_false_r, <- !orb_assoc.
  generalize (toLowerCase (text p)); intro lowerText.
  repeat match goal with
         | |- context [if ?c || _ then _ else _] =>
             destruct c; cbn [orb]; [reflexivity|]
         | |- context [if ?c then _ else _] =>
             destruct c; [reflexivity|]
         end.
  reflexivity.
Qed.

Lemma handleCommand_is_dispatch (p : params) (w : world svc) :
  handleCommand svc p w = dispatch svc p w.
Proof.
  unfold handleCommand, dispatch, catch, bind.
  destruct (onFiles (isAdmin (Some (sender p))) w) as [[[a|msg] w1] e1]; [|reflexivity].
  rewrite routing_is_first_match. reflexivity.
Qed.

(** The first match: the entry found is in the table, its test holds, and
    the test of every entry before it fails. *)
Lemma find_first {A : Type} (f : A -> bool) (l : list A) (x : A) :
  find f l = Some x ->
  exists before after,
    l = (before ++ x :: after)%list /\ f x = true /\ forallb (fun y => negb (f y)) before = true.
Proof.
  induction l as [|y l IH]; simpl; [discriminate|].
  destruct (f y) eqn:Hy.
  - intro H. inversion H; subst. exists [], l. auto.
  - intro H. destruct (IH H) as [before [after [Hl [Hx Hb]]]].
    exists (y :: before), after. subst l. simpl. rewrite Hy. auto.
Qed.

Lemma onFiles_effects {A : Type} (f : Admin.fs -> A * Admin.fs) (w : world svc) :
  exists a w1, onFiles f w = (Ok a, w1, []).
Proof. unfold onFiles. destruct (f (files svc w)). eauto. Qed.

(** C4 (as amended): [handleCommand] dispatches by the table: it invokes
    the handler of the first entry whose test the lower-cased text passes,
    and no other; whenever there is such an entry an outbound message is
    sent (an error message if the handler throws); a text that matches no
    entry gets the reply "unknown command" when it starts with [!] or [/]
    and no reply at all otherwise. *)
Theorem dispatcher_first_match (p : params) (w : world svc) :
  handleCommand svc p w = dispatch svc p w
  /\ (forall c, firstMatch (text p) = Some c ->
        (exists test before after,
           table = (before ++ (c, test) :: after)%list
           /\ test (toLowerCase (text p)) = true
           /\ forallb (fun entry => negb (selects (text p) entry)) before = true)
        /\ existsb isSend (effectsOf (handleCommand svc p) w) = true)
  /\ (firstMatch (text p) = None ->
      effectsOf (handleCommand svc p) w =
      if looksLikeCommand (text p) then [Send (JStr (jid p)) UnknownCommand] else []).
Proof.
  split; [apply handleCommand_is_dispatch|].
  unfold effectsOf. rewrite handleCommand_is_dispatch. split.
  - intros c Hc. split.
    + unfold firstMatch in Hc.
      destruct (find (selects (text p)) table) as [[c' test]|] eqn:Hf; [|discriminate].
      inversion Hc; subst c'.
      destruct (find_first _ _ _ Hf) as [before [after [Ht [Hx Hb]]]].
      exists test, before, after. auto.
    + apply answers_catch; [|intro; apply answers_error].
      apply replies_then. intro a. rewrite Hc. apply invoke_replies.
  - intro Hn. unfold dispatch, catch, bind. rewrite Hn.
    destruct (onFiles_effects (isAdmin (Some (sender p))) w) as [a [w1 Hw]].
    rewrite Hw. destruct (looksLikeCommand (text p)); reflexivity.
Qed.

(** What [parseNaturalTime] hands to a handler is never [null]. *)
Lemma onClock_parse (text : string) (w : world svc) :
  exists parsed w1,
    onClock (Parser.parseNaturalTime text) w = (Ok (Some parsed), w1, []).
Proof.
  unfold onClock.
  pose proof (parseAt_closed_form text (clock svc w)) as Hc. unfold Spec.parseAt in Hc.
  destruct (Parser.parseNaturalTime text (clock svc w)) as [r c']. cbn [fst] in Hc.
  subst r. eauto.
Qed.

Lemma handleAddReminder_effects (jid sender text name : string) (w : world svc) :
  exists t, effectsOf (handleAddReminder svc jid sender text name) w = [Send (JStr jid) t]
            /\ t <> TimeNotUnderstood.
Proof.
  unfold effectsOf, handleAddReminder, catch, bind.
  destruct (isEmpty (argument text)).
  - exists AddReminderUsage. split; [reflexivity|discriminate].
  - destruct (onClock_parse (argument text) w) as [parsed [w1 Hp]]. rewrite Hp.
    unfold onStore.
    destruct (createReminder svc jid sender _ _ (reminders svc w1)) as [[r|msg] s'].
    + exists (ReminderSet r). split; [reflexivity|discriminate].
    + exists (ReminderFailed msg). split; [reflexivity|discriminate].
Qed.

Lemma handleNaturalReminder_effects (jid sender text name : string) (w : world svc) :
  exists t, effectsOf (handleNaturalReminder svc jid sender text name) w = [Send (JStr jid) t]
            /\ t <> NaturalNotUnderstood.
Proof.
  unfold effectsOf, handleNaturalReminder, catch, bind.
  destruct (onClock_parse text w) as [parsed [w1 Hp]]. rewrite Hp.
  unfold onStore.
  destruct (createReminder svc jid sender _ _ (reminders svc w1)) as [[r|msg] s'].
  - exists (NaturalReminderSet r). split; [reflexivity|discriminate].
  - exists (NaturalReminderFailed msg). split; [reflexivity|discriminate].
Qed.

(** C2: [parseNaturalTime] returns an object for every text and under
    every clock, never [null]; its [dueAt] is not [null] and its message is
    not empty; when none of the four time patterns matches, [dueAt] is one
    hour after the reading of the clock and the message is the text left
    after the trigger word, or 'Reminder' when nothing is left.  So neither
    [handleAddReminder] nor [handleNaturalReminder] ever sends its "could
    not understand the time" reply. *)
Theorem parseNaturalTime_never_null (text : string) (c : DateTime.Clock) :
  (exists due msg,
     Spec.parseAt text c = Some {| Parser.dueAt := Some due; Parser.message := msg |}
     /\ msg <> ""
     /\ (Regex.exec true Parser.inPattern (Parser.extractMessage text) = None ->
         Regex.exec true Parser.tomorrowPattern (Parser.extractMessage text) = None ->
         Regex.exec true Parser.dailyPattern (Parser.extractMessage text) = None ->
         Regex.exec true Parser.timePattern (Parser.extractMessage text) = None ->
         due = DateTime.plusHours (c 0%nat) 1
         /\ msg = if isEmpty (Parser.extractMessage text) then "Reminder"
                  else Parser.extractMessage text))
  /\ (forall jid sender name w to,
        ~ In (Send to TimeNotUnderstood)
             (effectsOf (handleAddReminder svc jid sender text name) w))
  /\ (forall jid sender name w to,
        ~ In (Send to NaturalNotUnderstood)
             (effectsOf (handleNaturalReminder svc jid sender text name) w)).
Proof.
  split; [|split].
  - rewrite parseAt_closed_form. eexists. eexists. split; [reflexivity|]. split.
    + unfold Spec.orReminder.
      destruct (Spec.cleaned (Parser.extractMessage text)); simpl; discriminate.
    + intros H1 H2 H3 H4. unfold Spec.dueOf, Spec.cleaned, Spec.shapeOf.
      rewrite H1, H2, H3, H4. split; reflexivity.
  - intros jid sender name w to Hin.
    destruct (handleAddReminder_effects jid sender text name w) as [t [He Hne]].
    rewrite He in Hin. destruct Hin as [Heq|[]]. inversion Heq. congruence.
  - intros jid sender name w to Hin.
    destruct (handleNaturalReminder_effects jid sender text name w) as [t [He Hne]].
    rewrite He in Hin. destruct Hin as [Heq|[]]. inversion Heq. congruence.
Qed.

End BotFacts.

(** C4 (as stated, refuted): the text "hello" is not empty after trimming,
    and the dispatcher sends nothing in answer to it. *)
Lemma plain_text_gets_no_reply :
  JS.isEmpty (JS.trim "hello") = false
  /\ Bot.effectsOf
       (Bot.handleCommand MemoryReminders.service
          {| Bot.jid := "8801712345678@s.whatsapp.net";
             Bot.sender := "8801712345678@s.whatsapp.net";
             Bot.text := JS.trim "hello";
             Bot.pushName := "User";
             Bot.isGroup := false |})
       MemoryReminders.emptyWorld
     = [].
Proof. split; reflexivity. Qed.

(** ** The system: events and the keep-alive timer *)

Section SystemFacts.
Import JS Admin Effects Bot DispatchSpec.

Variable svc : ReminderService.

(** Start-up sends nothing. *)
Lemma start_silent (w : world svc) :
  existsb isSend (effectsOf (catch (startBot svc) (fun _ => ret tt)) w) = false.
Proof.
  unfold effectsOf, startBot, catch, bind, onFiles, onStore.
  cbn [fst snd files reminders].
  destruct (initReminderSystem svc (reminders svc w)) as [[u|msg] s']; reflexivity.
Qed.

(** A connection update other than the opening sends nothing. *)
Lemma connection_update_silent (u : Connection.update) (w : world svc) :
  isState u "open" = false ->
  existsb isSend (effectsOf (onConnectionUpdate svc u) w) = false.
Proof.
  intro Hopen.
  unfold effectsOf, onConnectionUpdate, closeConnection, bind, Connection.onQR.
  rewrite Hopen.
  destruct (Connection.truthy (Connection.qr u)); cbn [forEach bind emit ret];
    unfold bind, emit, ret; cbn [fst snd];
    (destruct (isState u "close");
     [ rewrite onClose_cases;
       destruct (Connection.connectionRetries (conn svc w) <? Connection.MAX_RETRIES);
       cbn [fst snd]; destruct (isState u "connecting"); reflexivity
     | destruct (isState u "connecting"); reflexivity ]).
Qed.

Lemma blind_ret {A : Type} (a : A) : blind svc (ret a).
Proof. intros w s. reflexivity. Qed.

Lemma blind_throw {A : Type} (msg : string) : blind svc (throw (A := A) msg).
Proof. intros w s. reflexivity. Qed.

Lemma blind_emit (e : effect) : blind svc (emit e).
Proof. intros w s. reflexivity. Qed.

Lemma blind_onFiles {A : Type} (f : Admin.fs -> A * Admin.fs) : blind svc (onFiles f).
Proof. intros w s. unfold onFiles. cbn [withReminders files]. destruct (f _). reflexivity. Qed.

Lemma blind_onClock {A : Type} (m : DateTime.M A) : blind svc (onClock m).
Proof. intros w s. unfold onClock. cbn [withReminders clock]. destruct (m _). reflexivity. Qed.

Lemma blind_setConn (c : Connection.state) : blind svc (setConn svc c).
Proof. intros w s. reflexivity. Qed.

Lemma blind_closeConnection (u : Connection.update) : blind svc (closeConnection svc u).
Proof.
  intros w s. unfold closeConnection. cbn [withReminders conn].
  destruct (Connection.onClose u (conn svc w)) as [[c e] r]. reflexivity.
Qed.

Lemma blind_bind {A B : Type} (m : H svc A) (k : A -> H svc B) :
  blind svc m -> (forall a, blind svc (k a)) -> blind svc (bind m k).
Proof.
  intros Hm Hk w s. unfold bind. rewrite Hm.
  destruct (m w) as [[[a|msg] w1] e1]; [|reflexivity].
  rewrite Hk. destruct (k a w1) as [[r w2] e2]. reflexivity.
Qed.

Lemma blind_catch {A : Type} (m : H svc A) (h : string -> H svc A) :
  blind svc m -> (forall msg, blind svc (h msg)) -> blind svc (catch m h).
Proof.
  intros Hm Hh w s. unfold catch. rewrite Hm.
  destruct (m w) as [[[a|msg] w1] e1]; [reflexivity|].
  rewrite Hh. destruct (h msg w1) as [[r w2] e2]. reflexivity.
Qed.

Lemma blind_forEach {A : Type} (l : list A) (body : A -> H svc unit) :
  (forall a, blind svc (body a)) -> blind svc (forEach l body).
Proof.
  intro Hb. induction l as [|a l IH]; cbn [forEach].
  - apply blind_ret.
  - apply blind_bind; [apply Hb|intro; exact IH].
Qed.

Ltac blind_step :=
  match goal with
  | |- blind _ (ret _) => apply blind_ret
  | |- blind _ (throw _) => apply blind_throw
  | |- blind _ (emit _) => apply blind_emit
  | |- blind _ (send _ _) => apply blind_emit
  | |- blind _ (sendTo _ _) => apply blind_emit
  | |- blind _ (onFiles _) => apply blind_onFiles
  | |- blind _ (onClock _) => apply blind_onClock
  | |- blind _ (now _) => apply blind_onClock
  | |- blind _ (setConn _ _) => apply blind_setConn
  | |- blind _ (closeConnection _ _) => apply blind_closeConnection
  | |- blind _ (forEach _ _) => apply blind_forEach; intro
  | |- blind _ (bind _ _) => apply blind_bind; [|intro]
  | |- blind _ (catch _ _) => apply blind_catch; [|intro]
  | |- blind _ (if ?c then _ else _) => destruct c
  | |- blind _ (match ?x with _ => _ end) => destruct x
  end.

Lemma blind_formatJID (j : json) : blind svc (formatJID svc j).
Proof. unfold formatJID. repeat blind_step. Qed.

(** The opening of the connection and the group welcome make no use of the
    reminder store. *)
Lemma blind_onConnectionUpdate (u : Connection.update) :
  blind svc (onConnectionUpdate svc u).
Proof.
  unfold onConnectionUpdate, sendStartupMessage, notifyAdmins.
  repeat first [apply blind_formatJID | blind_step].
Qed.

Lemma blind_handleGroupParticipantsUpdate (sock : socket) (u : groupUpdate) :
  blind svc (handleGroupParticipantsUpdate svc sock u).
Proof.
  unfold handleGroupParticipantsUpdate, ownJid. repeat blind_step.
Qed.

Lemma blind_effects {A : Type} (m : H svc A) (w : world svc) (s : Store svc) :
  blind svc m -> effectsOf m (withReminders svc w s) = effectsOf m w.
Proof.
  intro Hm. unfold effectsOf. rewrite Hm. destruct (m w) as [[r w1] e]. reflexivity.
Qed.

(** C9: the keep-alive timer does nothing, it neither sends nor changes the
    state; a step of the system sends a message only when its event is an
    inbound message, a change of group participants or the opening of the
    connection; and unless the event is an inbound message, what is sent
    does not depend on the reminders that are stored.  A reminder that
    becomes due is no event: nothing is sent for it. *)
Theorem no_proactive_delivery (sock : socket) (e : event) (w : world svc) :
  step svc sock KeepAlive w = (Ok tt, w, [])
  /\ (forall to t, In (Send to t) (effectsOf (step svc sock e) w) -> inboundEvent e)
  /\ (~ inboundEvent e -> existsb isSend (effectsOf (step svc sock e) w) = false)
  /\ (forall s, (forall m, e <> MessagesUpsert m) ->
        sends (effectsOf (step svc sock e) (withReminders svc w s))
        = sends (effectsOf (step svc sock e) w)).
Proof.
  assert (forall w', ~ inboundEvent e ->
            existsb isSend (effectsOf (step svc sock e) w') = false) as Hsilent.
  { intros w' Hn. destruct e; cbn [step inboundEvent] in *; try reflexivity.
    - apply start_silent.
    - apply connection_update_silent.
      destruct (isState u "open"); [exfalso; apply Hn; reflexivity|reflexivity].
    - exfalso. apply Hn. exact I.
    - exfalso. apply Hn. exact I. }
  split; [reflexivity|]. split; [|split; [apply Hsilent|]].
  - intros to t Hin.
    assert (existsb isSend (effectsOf (step svc sock e) w) = true) as Hex
      by (apply existsb_exists; exists (Send to t); split; [exact Hin|reflexivity]).
    destruct e; cbn [inboundEvent]; try exact I;
      try (rewrite Hsilent in Hex; [discriminate|cbn [inboundEvent]; tauto]).
    destruct (isState u "open") eqn:Ho; [reflexivity|].
    rewrite Hsilent in Hex; [discriminate|].
    cbn [inboundEvent]. rewrite Ho. discriminate.
  - intros s Hne.
    assert (forall l, existsb isSend l = false -> sends l = []) as Hnone.
    { intros l Hl. unfold sends. induction l as [|x l IH]; [reflexivity|].
      simpl in *. apply orb_false_iff in Hl. destruct Hl as [Hx Hl].
      rewrite Hx. apply IH. exact Hl. }
    destruct e; cbn [step]; try reflexivity.
    + rewrite !Hnone; [reflexivity|apply start_silent|apply start_silent].
    + rewrite blind_effects; [reflexivity|apply blind_onConnectionUpdate].
    + exfalso. apply (Hne m). reflexivity.
    + rewrite blind_effects; [reflexivity|apply blind_handleGroupParticipantsUpdate].
Qed.

End SystemFacts.

(** ** The admin store: demotion, round trips and the file *)

Section AdminStoreFacts.
Import Admin StringSpec.

Lemma isCreator_self : isCreator (Some CREATOR_JID) = true.
Proof. reflexivity. Qed.

Lemma contains_nonempty (w s : string) : contains w s -> w <> "" -> s <> "".
Proof.
  intros [a [b Hab]] Hw ->. destruct a; [|discriminate].
  destruct w; [congruence|discriminate].
Qed.

(** What [demoteAdmin] returns and what it leaves in the store *)
Lemma demoteAdmin_outcome (demoter target : jid) (f : fs) :
  (success (fst (demoteAdmin demoter target f)) = true <->
     demoter = Some CREATOR_JID
     /\ exists t, target = Some t
               /\ contains "@s.whatsapp.net" t
               /\ t <> CREATOR_JID
               /\ In (JStr t) (stored f)
               /\ writable f = true)
  /\ (success (fst (demoteAdmin demoter target f)) = true ->
      stored (snd (demoteAdmin demoter target f))
      = filter (fun j => negb (isString (text target) j)) (stored f))
  /\ (success (fst (demoteAdmin demoter target f)) = false ->
      stored (snd (demoteAdmin demoter target f)) = stored f).
Proof.
  rewrite demoteAdmin_cases.
  destruct (isCreator demoter) eqn:Hp; cbn [negb].
  2:{ split; [|split]; cbn [fst snd success]; try congruence.
      split; [discriminate|]. intros [H _]. apply isCreator_iff in H. congruence. }
  apply isCreator_iff in Hp.
  destruct (missing target) eqn:Hm; cbn [orb].
  { split; [|split]; cbn [fst snd success]; try congruence.
    split; [discriminate|]. intros [_ [t [-> [Hc _]]]].
    apply contains_nonempty in Hc; [|discriminate].
    destruct t; [congruence|discriminate]. }
  apply missing_false in Hm. destruct Hm as [t [-> Hne]]. cbn [text].
  destruct (JS.includes "@s.whatsapp.net" t) eqn:Hi; cbn [negb].
  2:{ split; [|split]; cbn [fst snd success]; try congruence.
      split; [discriminate|]. intros [_ [t' [Ht [Hc _]]]]. inversion Ht; subst t'.
      apply includes_iff in Hc. congruence. }
  apply includes_iff in Hi.
  destruct (isCreator (Some t)) eqn:Hc.
  { split; [|split]; cbn [fst snd success]; try congruence.
    split; [discriminate|]. intros [_ [t' [Ht [_ [Hn _]]]]]. inversion Ht; subst t'.
    apply isCreator_iff in Hc. congruence. }
  assert (t <> CREATOR_JID) as Hnc.
  { intros ->. rewrite isCreator_self in Hc. discriminate. }
  destruct (includes t (stored f)) eqn:Hin; cbn [negb].
  2:{ split; [|split]; cbn [fst snd success]; try congruence.
      - split; [discriminate|]. intros [_ [t' [Ht [_ [_ [Hn _]]]]]]. inversion Ht; subst t'.
        apply includes_false in Hin. contradiction.
      - intros _. apply stored_after_read. }
  apply includes_In in Hin.
  destruct (writable f) eqn:Hw.
  - split; [|split]; cbn [fst snd success]; try congruence.
    + split; [|reflexivity]. intros _. split; [exact Hp|].
      exists t. repeat split; assumption.
    + intros _. apply stored_after_write. exact Hw.
  - split; [|split]; cbn [fst snd success]; try congruence.
    + split; [discriminate|]. intros [_ [t' [_ [_ [_ [_ H]]]]]]. discriminate.
    + intros _. apply stored_after_read.
Qed.

(** Neither operation changes whether the file can be written. *)
Lemma write_writable (l : list json) (f : fs) :
  writable (snd (writeAdminsToFile l f)) = writable f.
Proof.
  unfold writeAdminsToFile, writeFile.
  destruct (writable f) eqn:Hw; cbn [snd writable]; congruence.
Qed.

Lemma read_writable (f : fs) : writable (snd (readAdminsFromFile f)) = writable f.
Proof. apply read_stored. Qed.

Lemma promoteAdmin_writable (promoter target : jid) (f : fs) :
  writable (snd (promoteAdmin promoter target f)) = writable f.
Proof.
  rewrite promoteAdmin_cases.
  destruct (negb (isCreator promoter)); [reflexivity|].
  destruct (missing target || _); [reflexivity|].
  destruct (isCreator target); [reflexivity|].
  destruct (includes (text target) (stored f)); [apply read_writable|].
  destruct (writable f) eqn:Hw; cbn [snd].
  - rewrite write_writable, read_writable. exact Hw.
  - rewrite read_writable. exact Hw.
Qed.

Lemma demoteAdmin_writable (demoter target : jid) (f : fs) :
  writable (snd (demoteAdmin demoter target f)) = writable f.
Proof.
  rewrite demoteAdmin_cases.
  destruct (negb (isCreator demoter)); [reflexivity|].
  destruct (missing target || _); [reflexivity|].
  destruct (isCreator target); [reflexivity|].
  destruct (negb (includes (text target) (stored f))); [apply read_writable|].
  destruct (writable f) eqn:Hw; cbn [snd].
  - rewrite write_writable, read_writable. exact Hw.
  - rewrite read_writable. exact Hw.
Qed.

Lemma filter_keeps_others (t : string) (l : list json) :
  ~ In (JStr t) l -> filter (fun j => negb (isString t j)) l = l.
Proof.
  induction l as [|x l IH]; intro Hn; [reflexivity|]. simpl.
  destruct (isString t x) eqn:Hx.
  - apply isString_iff in Hx. subst x. exfalso. apply Hn. left. reflexivity.
  - simpl. rewrite IH; [reflexivity|]. intro H. apply Hn. right. exact H.
Qed.

Lemma filter_drops_target (t : string) (l : list json) :
  ~ In (JStr t) (filter (fun j => negb (isString t j)) l).
Proof.
  intro H. apply filter_In in H. destruct H as [_ H].
  rewrite (proj2 (isString_iff t (JStr t)) eq_refl) in H. discriminate.
Qed.

(** X1: [demoteAdmin] succeeds exactly when the demoter is the creator,
    the target contains '@s.whatsapp.net', is not the creator and is in
    the stored list, and the file can be written; a success removes every
    occurrence of the target from the stored list and keeps the other
    entries in their order; every failure leaves the stored list as it
    was. *)
Theorem demoteAdmin_success_iff (demoter target : jid) (f : fs) :
  (success (fst (demoteAdmin demoter target f)) = true <->
     demoter = Some CREATOR_JID
     /\ exists t, target = Some t
               /\ contains "@s.whatsapp.net" t
               /\ t <> CREATOR_JID
               /\ In (JStr t) (stored f)
               /\ writable f = true)
  /\ (success (fst (demoteAdmin demoter target f)) = true ->
      stored (snd (demoteAdmin demoter target f))
      = filter (fun j => negb (isString (text target) j)) (stored f)
      /\ forall j, In j (stored (snd (demoteAdmin demoter target f)))
                   <-> In j (stored f) /\ j <> JStr (text target))
  /\ (success (fst (demoteAdmin demoter target f)) = false ->
      stored (snd (demoteAdmin demoter target f)) = stored f).
Proof.
  destruct (demoteAdmin_outcome demoter target f) as [Hiff [Hok Hfail]].
  split; [exact Hiff|]. split; [|exact Hfail].
  intro Hs. split; [exact (Hok Hs)|].
  intro j. rewrite (Hok Hs), filter_In. split.
  - intros [Hin Hneq]. split; [exact Hin|]. intros ->.
    rewrite (proj2 (isString_iff _ _) eq_refl) in Hneq. discriminate.
  - intros [Hin Hneq]. split; [exact Hin|].
    destruct (isString (text target) j) eqn:Hj; [|reflexivity].
    apply isString_iff in Hj. contradiction.
Qed.

Lemma demoteAdmin_success_iff_witness :
  stored (snd (demoteAdmin (Some CREATOR_JID) (Some "8801712345678@s.whatsapp.net")
                 {| adminsFile :=
                      Some (Json (adminsDoc [JStr "8801712345678@s.whatsapp.net";
                                             JStr "8801812345678@s.whatsapp.net";
                                             JStr "8801712345678@s.whatsapp.net"]));
                    writable := true |}))
  = [JStr "8801812345678@s.whatsapp.net"].
Proof.
  apply (proj1 (proj2 (demoteAdmin_success_iff (Some CREATOR_JID)
                         (Some "8801712345678@s.whatsapp.net")
                         {| adminsFile :=
                              Some (Json (adminsDoc [JStr "8801712345678@s.whatsapp.net";
                                                     JStr "8801812345678@s.whatsapp.net";
                                                     JStr "8801712345678@s.whatsapp.net"]));
                            writable := true |}))).
  reflexivity.
Defined.

(** X2: a promotion undone by a demotion restores the stored list: when
    [promoteAdmin] succeeds, the demotion of the same target by the same
    caller succeeds too and leaves the list that was stored before the
    promotion.  The other way round, a demotion followed by the promotion
    of the same target succeeds and leaves the target once, at the end of
    the list. *)
Theorem promote_demote_round_trip (who : jid) (t : string) (f : fs) :
  (success (fst (promoteAdmin who (Some t) f)) = true ->
   success (fst (demoteAdmin who (Some t) (snd (promoteAdmin who (Some t) f)))) = true
   /\ stored (snd (demoteAdmin who (Some t) (snd (promoteAdmin who (Some t) f))))
      = stored f)
  /\ (success (fst (demoteAdmin who (Some t) f)) = true ->
      success (fst (promoteAdmin who (Some t) (snd (demoteAdmin who (Some t) f)))) = true
      /\ stored (snd (promoteAdmin who (Some t) (snd (demoteAdmin who (Some t) f))))
         = (filter (fun j => negb (isString t j)) (stored f) ++ [JStr t])%list).
Proof.
  split.
  - intro Hok.
    destruct (promoteAdmin_outcome who (Some t) f) as [Hiff [Happ _]].
    pose proof (proj1 Hiff Hok) as [Hwho [t' [Ht [Hc [Hnc [Hnin Hw]]]]]].
    inversion Ht; subst t'. specialize (Happ Hok). cbn [text] in Happ.
    set (f1 := snd (promoteAdmin who (Some t) f)) in *.
    destruct (demoteAdmin_outcome who (Some t) f1) as [Hiff' [Hrem _]].
    assert (success (fst (demoteAdmin who (Some t) f1)) = true) as Hok'.
    { apply Hiff'. split; [exact Hwho|]. exists t.
      repeat split; try assumption.
      - rewrite Happ. apply in_or_app. right. left. reflexivity.
      - unfold f1. rewrite promoteAdmin_writable. exact Hw. }
    split; [exact Hok'|].
    rewrite (Hrem Hok'), Happ. cbn [text].
    rewrite filter_app, filter_keeps_others by exact Hnin. cbn [filter].
    rewrite (proj2 (isString_iff t (JStr t)) eq_refl). cbn [negb].
    apply app_nil_r.
  - intro Hok.
    destruct (demoteAdmin_outcome who (Some t) f) as [Hiff [Hrem _]].
    pose proof (proj1 Hiff Hok) as [Hwho [t' [Ht [Hc [Hnc [Hin Hw]]]]]].
    inversion Ht; subst t'. specialize (Hrem Hok). cbn [text] in Hrem.
    set (f1 := snd (demoteAdmin who (Some t) f)) in *.
    destruct (promoteAdmin_outcome who (Some t) f1) as [Hiff' [Happ _]].
    assert (success (fst (promoteAdmin who (Some t) f1)) = true) as Hok'.
    { apply Hiff'. split; [exact Hwho|]. exists t.
      repeat split; try assumption.
      - rewrite Hrem. apply filter_drops_target.
      - unfold f1. rewrite demoteAdmin_writable. exact Hw. }
    split; [exact Hok'|].
    rewrite (Happ Hok'), Hrem. reflexivity.
Qed.

Lemma promote_demote_round_trip_witness :
  stored (snd (demoteAdmin (Some CREATOR_JID) (Some "8801712345678@s.whatsapp.net")
            (snd (promoteAdmin (Some CREATOR_JID) (Some "8801712345678@s.whatsapp.net")
                    {| adminsFile := Some NotJson; writable := true |}))))
  = stored {| adminsFile := Some NotJson; writable := true |}.
Proof.
  apply (proj1 (promote_demote_round_trip (Some CREATOR_JID) "8801712345678@s.whatsapp.net"
                  {| adminsFile := Some NotJson; writable := true |})).
  reflexivity.
Defined.

(** X3: the operations of the store keep a list without duplicates free of
    duplicates: [promoteAdmin] refuses a target that is already stored,
    [demoteAdmin] only removes, and [isAdmin], [getAdminList] and
    [initAdminSystem] do not change the stored list. *)
Theorem store_stays_duplicate_free (who target : jid) (f : fs) :
  NoDup (stored f) ->
  NoDup (stored (snd (promoteAdmin who target f)))
  /\ NoDup (stored (snd (demoteAdmin who target f)))
  /\ stored (snd (isAdmin target f)) = stored f
  /\ stored (snd (getAdminList f)) = stored f
  /\ stored (initAdminSystem f) = stored f.
Proof.
  intro Hnd. split; [|split; [|split; [|split]]].
  - destruct (promoteAdmin_outcome who target f) as [Hiff [Happ Hfail]].
    destruct (success (fst (promoteAdmin who target f))) eqn:Hs.
    + rewrite (Happ eq_refl).
      destruct (proj1 Hiff eq_refl) as [_ [t [-> [_ [_ [Hnin _]]]]]]. cbn [text].
      apply NoDup_app; [exact Hnd|repeat constructor; intros []|].
      intros x Hx [<-|[]]. contradiction.
    + rewrite (Hfail eq_refl). exact Hnd.
  - destruct (demoteAdmin_outcome who target f) as [_ [Hrem Hfail]].
    destruct (success (fst (demoteAdmin who target f))) eqn:Hs.
    + rewrite (Hrem eq_refl). apply NoDup_filter. exact Hnd.
    + rewrite (Hfail eq_refl). exact Hnd.
  - unfold isAdmin. destruct (missing target); [reflexivity|].
    destruct (isCreator target); [reflexivity|].
    pose proof (stored_after_read f) as Hr.
    destruct (readAdminsFromFile f). exact Hr.
  - unfold getAdminList. pose proof (stored_after_read f) as Hr.
    destruct (readAdminsFromFile f). exact Hr.
  - unfold initAdminSystem. rewrite stored_after_read.
    unfold ensureAdminsFile, writeFile, stored.
    destruct f as [[c|] wr]; cbn [adminsFile writable]; [reflexivity|].
    destruct wr; reflexivity.
Qed.

Lemma store_stays_duplicate_free_witness :
  NoDup (stored Examples.aliceAndBob)
  /\ (stored (snd (promoteAdmin (Some CREATOR_JID) (Some Examples.carol)
                     Examples.aliceAndBob))
      = [JStr Examples.alice; JStr Examples.bob; JStr Examples.carol]
      /\ NoDup (stored (snd (promoteAdmin (Some CREATOR_JID) (Some Examples.carol)
                               Examples.aliceAndBob))))
  /\ (stored (snd (promoteAdmin (Some CREATOR_JID) (Some Examples.alice)
                     Examples.aliceAndBob))
      = [JStr Examples.alice; JStr Examples.bob]
      /\ NoDup (stored (snd (promoteAdmin (Some CREATOR_JID) (Some Examples.alice)
                               Examples.aliceAndBob))))
  /\ (stored (snd (demoteAdmin (Some CREATOR_JID) (Some Examples.alice)
                     Examples.aliceAndBob))
      = [JStr Examples.bob]
      /\ NoDup (stored (snd (demoteAdmin (Some CREATOR_JID) (Some Examples.alice)
                              Examples.aliceAndBob)))).
Proof.
  assert (NoDup (stored Examples.aliceAndBob)) as Hnd.
  { change (NoDup [JStr Examples.alice; JStr Examples.bob]). constructor.
    - intros [H|[]]. discriminate H.
    - constructor; [intros []|constructor]. }
  split; [exact Hnd|]. split; [|split].
  - split; [reflexivity|].
    apply (proj1 (store_stays_duplicate_free (Some CREATOR_JID) (Some Examples.carol)
                    Examples.aliceAndBob Hnd)).
  - split; [reflexivity|].
    apply (proj1 (store_stays_duplicate_free (Some CREATOR_JID) (Some Examples.alice)
                    Examples.aliceAndBob Hnd)).
  - split; [reflexivity|].
    apply (proj1 (proj2 (store_stays_duplicate_free (Some CREATOR_JID)
                           (Some Examples.alice) Examples.aliceAndBob Hnd))).
Defined.

(** X4: the file heals itself and is never repaired.  A read returns the
    stored list and leaves an existing file exactly as it is, a malformed
    one included; a missing file is created with an empty admins array
    when it can be written and the read returns the empty list either way.
    [initAdminSystem] does what one read does: it is idempotent, and after
    it the file is missing only if it was missing and cannot be written. *)
Theorem admins_file_self_healing (f : fs) :
  readAdminsFromFile f =
    match adminsFile f with
    | Some _ => (stored f, f)
    | None =>
        ([], if writable f
             then {| adminsFile := Some (Json (adminsDoc [])); writable := true |}
             else f)
    end
  /\ initAdminSystem f = snd (readAdminsFromFile f)
  /\ initAdminSystem (initAdminSystem f) = initAdminSystem f
  /\ snd (readAdminsFromFile (initAdminSystem f)) = initAdminSystem f
  /\ (adminsFile (initAdminSystem f) = None <-> adminsFile f = None /\ writable f = false).
Proof.
  assert (readAdminsFromFile f =
    match adminsFile f with
    | Some _ => (stored f, f)
    | None =>
        ([], if writable f
             then {| adminsFile := Some (Json (adminsDoc [])); writable := true |}
             else f)
    end) as Hread.
  { unfold readAdminsFromFile, ensureAdminsFile, stored, writeFile, adminsArray, falsy.
    destruct f as [[[|parsed]|] w]; cbn [adminsFile writable].
    - reflexivity.
    - destruct parsed as [|b|n|s|items|props]; simpl;
        try destruct b; try destruct (n =? 0); try destruct (JS.isEmpty s);
        try (destruct (property "admins" props) as [[]|] eqn:Hp; simpl; rewrite ?Hp);
        reflexivity.
    - destruct w; reflexivity. }
  split; [exact Hread|].
  unfold initAdminSystem.
  destruct f as [[c|] wr]; cbn [adminsFile writable] in *.
  - unfold ensureAdminsFile. cbn [adminsFile]. rewrite Hread. cbn [snd].
    cbn [adminsFile]. rewrite Hread. cbn [snd].
    repeat split; try discriminate. intros [H _]. discriminate.
  - destruct wr.
    + rewrite Hread. vm_compute. repeat split; try discriminate. intros [_ H]. discriminate.
    + rewrite Hread. vm_compute. repeat split; reflexivity.
Qed.

End AdminStoreFacts.

(** ** Trimming, arguments and phone numbers *)

Section TextFacts.
Import JS Regex RegexSpec TextSpec Bot.

Lemma isEmpty_trimEnd (s : string) : isEmpty (trimEnd s) = negb (anyChar isInk s).
Proof.
  induction s as [|c s IH]; [reflexivity|]. cbn [trimEnd anyChar].
  rewrite negb_orb, <- IH. unfold isInk. rewrite negb_involutive.
  destruct (isSpace c), (isEmpty (trimEnd s)); reflexivity.
Qed.

Lemma anyChar_trimStart (s : string) : anyChar isInk (trimStart s) = anyChar isInk s.
Proof.
  induction s as [|c s IH]; [reflexivity|]. cbn [trimStart anyChar].
  destruct (isSpace c) eqn:Hc; [|reflexivity].
  rewrite IH. unfold isInk. rewrite Hc. reflexivity.
Qed.

(** [s.trim()] is empty exactly when [s] holds white space only. *)
Lemma isEmpty_trim (s : string) : isEmpty (trim s) = negb (anyChar isInk s).
Proof. unfold trim. rewrite isEmpty_trimEnd, anyChar_trimStart. reflexivity. Qed.

(** What [trimEnd] returns does not end in white space. *)
Lemma trimEnd_last (s : string) (p : option ascii) :
  trimEnd s <> "" -> exists c, lastOf p (trimEnd s) = Some c /\ isInk c = true.
Proof.
  revert p. induction s as [|c s IH]; intros p Hne; [contradiction|].
  cbn [trimEnd] in *.
  destruct (isSpace c && isEmpty (trimEnd s)) eqn:Hc; [contradiction|].
  cbn [lastOf]. destruct (trimEnd s) as [|d t] eqn:Ht.
  - exists c. split; [reflexivity|]. unfold isInk.
    rewrite andb_true_r in Hc. rewrite Hc. reflexivity.
  - apply IH. discriminate.
Qed.

Lemma lastOf_ink (s : string) (p : option ascii) (c : ascii) :
  s <> "" -> lastOf p s = Some c -> isInk c = true -> anyChar isInk s = true.
Proof.
  revert p. induction s as [|d s IH]; intros p Hne Hl Hc; [contradiction|].
  cbn [lastOf anyChar] in *. destruct s as [|e s].
  - simpl in Hl. inversion Hl; subst d. rewrite Hc. reflexivity.
  - rewrite (IH (Some d)); [apply orb_true_r|discriminate|exact Hl|exact Hc].
Qed.

Lemma lastOf_nonempty (s : string) (p q : option ascii) :
  s <> "" -> lastOf p s = lastOf q s.
Proof. destruct s; [contradiction|reflexivity]. Qed.

Lemma indexOfFrom_space (s : string) (i : Z) :
  indexOfFrom " " s i =
  match afterSpace s with
  | Some r => i + Z.of_nat (String.length s - String.length r - 1)
  | None => -1
  end.
Proof.
  revert i. induction s as [|c s IH]; intro i; [reflexivity|].
  cbn [indexOfFrom startsWith afterSpace].
  destruct (Ascii.eqb " " c) eqn:Hc; cbn [andb].
  - cbn [String.length]. replace (S (String.length s) - String.length s - 1)%nat with 0%nat by lia.
    lia.
  - rewrite IH. destruct (afterSpace s) as [r|] eqn:Hr; [|reflexivity].
    assert (String.length r < String.length s)%nat as Hlt.
    { clear - Hr. revert r Hr. induction s as [|d s IHs]; intros r Hr; [discriminate|].
      cbn [afterSpace] in Hr. destruct (Ascii.eqb " " d).
      - inversion Hr; subst. simpl. lia.
      - apply IHs in Hr. simpl. lia. }
    cbn [String.length]. lia.
Qed.

Lemma afterSpace_drop (s r : string) :
  afterSpace s = Some r ->
  drop (String.length s - String.length r) s = r
  /\ (String.length r < String.length s)%nat
  /\ forall p, lastOf p (take (String.length s - String.length r) s) = Some " "%char.
Proof.
  revert r. induction s as [|c s IH]; intros r Hr; [discriminate|].
  cbn [afterSpace] in Hr. destruct (Ascii.eqb " " c) eqn:Hc.
  - inversion Hr; subst r. apply Ascii.eqb_eq in Hc. subst c.
    cbn [String.length].
    replace (S (String.length s) - String.length s)%nat with 1%nat by lia.
    split; [reflexivity|]. split; [lia|]. intro p. reflexivity.
  - destruct (IH r Hr) as [Hd [Hlt Hl]]. cbn [String.length].
    replace (S (String.length s) - String.length r)%nat
      with (S (String.length s - String.length r)) by lia.
    cbn [drop take lastOf]. split; [exact Hd|]. split; [lia|]. intro p. apply Hl.
Qed.

Lemma take_drop_append (n : nat) (s : string) : take n s ++ drop n s = s.
Proof.
  revert s. induction n as [|n IH]; intro s; [reflexivity|].
  destruct s as [|c s]; [reflexivity|]. simpl. rewrite IH. reflexivity.
Qed.

(** [text.substring(text.indexOf(' ') + 1)] is the text after the first
    space, and the whole text when there is no space. *)
Lemma substring_after_space (s : string) :
  substring s (indexOf " " s + 1) =
  match afterSpace s with Some r => r | None => s end.
Proof.
  unfold substring, indexOf. rewrite indexOfFrom_space.
  destruct (afterSpace s) as [r|] eqn:Hr; [|reflexivity].
  destruct (afterSpace_drop s r Hr) as [Hd [Hlt _]].
  replace (Z.to_nat (Z.max 0 (0 + Z.of_nat (String.length s - String.length r - 1) + 1)))
    with (String.length s - String.length r)%nat by lia.
  exact Hd.
Qed.

Lemma trim_last (s : string) (p : option ascii) :
  trim s <> "" -> exists c, lastOf p (trim s) = Some c /\ isInk c = true.
Proof. apply trimEnd_last. Qed.

(** The argument of a command whose text has been trimmed is empty only
    when the text is. *)
Lemma argument_of_trimmed (text : string) :
  isEmpty (argument (trim text)) = isEmpty (trim text).
Proof.
  unfold argument. rewrite substring_after_space, isEmpty_trim.
  pose proof (trim_last text None) as Hlast.
  revert Hlast. generalize (trim text). intros u Hlast.
  destruct u as [|a u']; [reflexivity|].
  destruct Hlast as [c [Hl Hc]]; [discriminate|].
  cbn [isEmpty].
  destruct (afterSpace (String a u')) as [r|] eqn:Hr.
  - destruct (afterSpace_drop _ _ Hr) as [Hd [Hlt Hsp]].
    rewrite <- (take_drop_append (String.length (String a u') - String.length r)
                  (String a u')) in Hl.
    rewrite Hd, lastOf_append, Hsp in Hl.
    assert (r <> "") as Hr0.
    { intros ->. simpl in Hl. inversion Hl; subst c. discriminate. }
    rewrite (lastOf_ink r _ c Hr0 Hl Hc). reflexivity.
  - assert (String a u' <> "") as Hne by discriminate.
    rewrite (lastOf_ink _ None c Hne Hl Hc). reflexivity.
Qed.

Lemma allChars_keep (p : ascii -> bool) (s : string) : allChars p (keep p s) = true.
Proof.
  induction s as [|c s IH]; [reflexivity|]. cbn [keep].
  destruct (p c) eqn:Hc; [cbn [allChars]; rewrite Hc; exact IH|exact IH].
Qed.

Lemma keep_all (p : ascii -> bool) (s : string) : allChars p s = true -> keep p s = s.
Proof.
  induction s as [|c s IH]; [reflexivity|]. cbn [allChars keep].
  destruct (p c); [|discriminate]. intro H. rewrite IH; [reflexivity|exact H].
Qed.

Lemma drop_length_le (n : nat) (s : string) :
  (String.length (drop n s) <= String.length s)%nat.
Proof.
  revert s. induction n as [|n IH]; intro s; [simpl; lia|].
  destruct s as [|c s]; [simpl; lia|]. simpl. specialize (IH s). lia.
Qed.

(** Replacing every [\D] by nothing keeps the digits. *)
Lemma replaceAll_nondigits (fuel : nat) (s : string) (p : option ascii) (idx : nat) :
  (String.length s < fuel)%nat ->
  replaceAllFrom fuel false NonDigit "" p s idx = keep isDigit s.
Proof.
  revert s p idx. induction fuel as [|fuel IH]; intros s p idx Hf; [lia|].
  cbn [replaceAllFrom]. unfold matchAt. cbn [rmatch]. unfold class, advance. cbn [rest].
  destruct s as [|c s]; [reflexivity|].
  cbn [keep String.length] in *.
  destruct (isDigit c) eqn:Hc; cbn [negb].
  - rewrite IH by lia. reflexivity.
  - cbn [pos matched]. replace (S idx - idx)%nat with 1%nat by lia.
    cbn [take String.length String.get drop append]. apply IH. lia.
Qed.

Lemma digitsOf_keep (part : string) : digitsOf part = keep isDigit part.
Proof. unfold digitsOf, replaceAll. apply replaceAll_nondigits. lia. Qed.

(** X5: the phone number of [!promote] and [!demote] is the second word
    of the command with everything but its decimal digits removed, the
    digits kept in their order; it is accepted exactly when these digits
    are 880 followed by ten more. *)
Theorem phone_number_is_the_digits (part : string) :
  digitsOf part = keep isDigit part
  /\ allChars isDigit (digitsOf part) = true
  /\ (validNumber (digitsOf part) = true <->
      exists subscriber,
        keep isDigit part = "880" ++ subscriber /\ String.length subscriber = 10%nat).
Proof.
  split; [apply digitsOf_keep|]. split.
  - rewrite digitsOf_keep. apply allChars_keep.
  - rewrite digitsOf_keep. unfold validNumber.
    rewrite andb_true_iff, startsWith_iff, Nat.eqb_eq. split.
    + intros [[b Hb] Hl]. exists b. split; [exact Hb|].
      rewrite Hb in Hl. simpl in Hl. lia.
    + intros [b [Hb Hl]]. split; [exists b; exact Hb|]. rewrite Hb. simpl. lia.
Qed.

End TextFacts.

(** ** What the handlers send and what they leave alone *)

Section HandlerFacts.
Import JS Admin Effects Bot DispatchSpec HandlerSpec TextSpec.
Import RegexSpec ConnSpec Exports.

Variable svc : ReminderService.

Lemma only_ret {A : Type} (Q : effect -> bool) (a : A) : only svc Q (ret a).
Proof. intros w e H. destruct H. Qed.

Lemma only_throw {A : Type} (Q : effect -> bool) (msg : string) :
  only svc Q (throw (A := A) msg).
Proof. intros w e H. destruct H. Qed.

Lemma only_emit (Q : effect -> bool) (e : effect) : Q e = true -> only svc Q (emit e).
Proof. intros He w e' [H|[]]. subst e'. exact He. Qed.

Lemma only_onFiles {A : Type} (Q : effect -> bool) (f : Admin.fs -> A * Admin.fs) :
  only svc Q (onFiles f).
Proof.
  intros w e. unfold effectsOf, onFiles. destruct (f (files svc w)). intros [].
Qed.

Lemma only_onClock {A : Type} (Q : effect -> bool) (m : DateTime.M A) :
  only svc Q (onClock m).
Proof.
  intros w e. unfold effectsOf, onClock. destruct (m (clock svc w)). intros [].
Qed.

Lemma only_onStore {A : Type} (Q : effect -> bool)
    (f : Store svc -> outcome A * Store svc) :
  only svc Q (onStore f).
Proof.
  intros w e. unfold effectsOf, onStore. destruct (f (reminders svc w)). intros [].
Qed.

Lemma only_connected (Q : effect -> bool) : only svc Q (connected svc).
Proof. intros w e []. Qed.

Lemma only_setConn (Q : effect -> bool) (s : Connection.state) :
  only svc Q (setConn svc s).
Proof. intros w e []. Qed.

Lemma only_bind {A B : Type} (Q : effect -> bool) (m : H svc A) (k : A -> H svc B) :
  only svc Q m -> (forall a, only svc Q (k a)) -> only svc Q (bind m k).
Proof.
  intros Hm Hk w e Hin. specialize (Hm w e).
  unfold effectsOf, bind in *.
  destruct (m w) as [[[a|msg] w1] e1]; cbn [snd] in *; [|auto].
  specialize (Hk a w1 e). unfold effectsOf in Hk.
  destruct (k a w1) as [[r w2] e2]; cbn [snd] in *.
  apply in_app_or in Hin. destruct Hin; auto.
Qed.

Lemma only_catch {A : Type} (Q : effect -> bool) (m : H svc A) (h : string -> H svc A) :
  only svc Q m -> (forall msg, only svc Q (h msg)) -> only svc Q (catch m h).
Proof.
  intros Hm Hh w e Hin. specialize (Hm w e).
  unfold effectsOf, catch in *.
  destruct (m w) as [[[a|msg] w1] e1]; cbn [snd] in *; [auto|].
  specialize (Hh msg w1 e). unfold effectsOf in Hh.
  destruct (h msg w1) as [[r w2] e2]; cbn [snd] in *.
  apply in_app_or in Hin. destruct Hin; auto.
Qed.

Lemma only_forEach {A : Type} (Q : effect -> bool) (l : list A) (body : A -> H svc unit) :
  (forall a, only svc Q (body a)) -> only svc Q (forEach l body).
Proof.
  intro Hb. induction l as [|a l IH]; cbn [forEach].
  - apply only_ret.
  - apply only_bind; [apply Hb|intro; exact IH].
Qed.

Ltac only_step :=
  match goal with
  | |- only _ _ (ret _) => apply only_ret
  | |- only _ _ (throw _) => apply only_throw
  | |- only _ _ (sendTo _ _) => apply only_emit; reflexivity
  | |- only _ _ (send _ _) => apply only_emit; reflexivity
  | |- only _ _ (emit _) => apply only_emit; reflexivity
  | |- only _ _ (onFiles _) => apply only_onFiles
  | |- only _ _ (onClock _) => apply only_onClock
  | |- only _ _ (now _) => apply only_onClock
  | |- only _ _ (onStore _) => apply only_onStore
  | |- only _ _ (connected _) => apply only_connected
  | |- only _ _ (setConn _ _) => apply only_setConn
  | |- only _ _ (forEach _ _) => apply only_forEach; intro
  | |- only _ _ (bind _ _) => apply only_bind; [|intro]
  | |- only _ _ (catch _ _) => apply only_catch; [|intro]
  | |- only _ _ (if ?c then _ else _) => destruct c
  | |- only _ _ (match ?x with _ => _ end) => destruct x
  end.

Lemma only_formatJID (Q : effect -> bool) (j : json) : only svc Q (formatJID svc j).
Proof. unfold formatJID. repeat only_step. Qed.

(** With an argument that is not empty, no handler sends a usage note of
    the three. *)
Lemma handleCommand_never_usage (p : params) :
  isEmpty (argument (text p)) = false -> only svc notUsage (handleCommand svc p).
Proof.
  intro Harg. unfold handleCommand.
  apply only_catch; [|intro; repeat only_step].
  apply only_bind; [apply only_onFiles|intro a].
  cbv zeta.
  repeat match goal with
         | |- only _ _ (if ?c then _ else _) => destruct c
         end;
    unfold sendHelpMessage, sendBotInfo, sendCurrentTime, handleAdminsCommand,
      handlePromoteCommand, handleDemoteCommand, handleBroadcastCommand,
      handleAddReminder, handleMyReminders, handleCancelReminder, handleNaturalReminder;
    rewrite ?Harg;
    repeat first [apply only_formatJID | only_step].
Qed.

Lemma handleMessage_never_usage (msg : inbound) : only svc notUsage (handleMessage svc msg).
Proof.
  unfold handleMessage.
  destruct (message msg) as [messageContent|]; [|apply only_ret].
  destruct (fromMe msg); [apply only_ret|].
  destruct (isJidBroadcast (remoteJid msg)); [apply only_ret|].
  destruct (messageText messageContent) as [text|]; [|apply only_ret].
  apply only_bind; [apply only_onClock|intros _].
  destruct (isEmpty (trim text)) eqn:He; cbn [negb]; [apply only_ret|].
  apply handleCommand_never_usage. cbn [Bot.text].
  rewrite argument_of_trimmed. exact He.
Qed.

(** X6: the usage notes of [!addreminder], [!cancelreminder] and
    [!broadcast] are never sent in answer to a message.  The text of a
    command has been trimmed when the handlers get it, and the argument
    they cut out of a trimmed text, everything after the first space, is
    empty only when the text is: a command word on its own is taken as its
    own argument. *)
Theorem usage_notes_are_never_sent (m : upsert) (w : world svc) (to : json) :
  ~ In (Send to AddReminderUsage) (effectsOf (handleMessagesUpsert svc m) w)
  /\ ~ In (Send to CancelUsage) (effectsOf (handleMessagesUpsert svc m) w)
  /\ ~ In (Send to BroadcastUsage) (effectsOf (handleMessagesUpsert svc m) w)
  /\ (forall text, isEmpty (argument (trim text)) = isEmpty (trim text)).
Proof.
  assert (only svc notUsage (handleMessagesUpsert svc m)) as Hn.
  { unfold handleMessagesUpsert.
    destruct (negb (String.eqb (type m) "notify")); [apply only_ret|].
    apply only_forEach. apply handleMessage_never_usage. }
  split; [|split; [|split]].
  - intro Hin. apply Hn in Hin. discriminate.
  - intro Hin. apply Hn in Hin. discriminate.
  - intro Hin. apply Hn in Hin. discriminate.
  - apply argument_of_trimmed.
Qed.

(** *** What a handler leaves as it was *)

Lemma preserves_ret {X A : Type} (proj : world svc -> X) (a : A) :
  preserves svc proj (ret a).
Proof. intro w. reflexivity. Qed.

Lemma preserves_throw {X A : Type} (proj : world svc -> X) (msg : string) :
  preserves svc proj (throw (A := A) msg).
Proof. intro w. reflexivity. Qed.

Lemma preserves_emit {X : Type} (proj : world svc -> X) (e : effect) :
  preserves svc proj (emit e).
Proof. intro w. reflexivity. Qed.

Lemma preserves_connected {X : Type} (proj : world svc -> X) :
  preserves svc proj (connected svc).
Proof. intro w. reflexivity. Qed.

Lemma preserves_bind {X A B : Type} (proj : world svc -> X) (m : H svc A) (k : A -> H svc B) :
  preserves svc proj m -> (forall a, preserves svc proj (k a)) ->
  preserves svc proj (bind m k).
Proof.
  intros Hm Hk w. specialize (Hm w). unfold worldAfter, bind in *.
  destruct (m w) as [[[a|msg] w1] e1]; cbn [fst snd] in *; [|exact Hm].
  specialize (Hk a w1). unfold worldAfter in Hk.
  destruct (k a w1) as [[r w2] e2]; cbn [fst snd] in *. congruence.
Qed.

Lemma preserves_catch {X A : Type} (proj : world svc -> X) (m : H svc A)
    (h : string -> H svc A) :
  preserves svc proj m -> (forall msg, preserves svc proj (h msg)) ->
  preserves svc proj (catch m h).
Proof.
  intros Hm Hh w. specialize (Hm w). unfold worldAfter, catch in *.
  destruct (m w) as [[[a|msg] w1] e1]; cbn [fst snd] in *; [exact Hm|].
  specialize (Hh msg w1). unfold worldAfter in Hh.
  destruct (h msg w1) as [[r w2] e2]; cbn [fst snd] in *. congruence.
Qed.

Lemma preserves_forEach {X A : Type} (proj : world svc -> X) (l : list A)
    (body : A -> H svc unit) :
  (forall a, preserves svc proj (body a)) -> preserves svc proj (forEach l body).
Proof.
  intro Hb. induction l as [|a l IH]; cbn [forEach].
  - apply preserves_ret.
  - apply preserves_bind; [apply Hb|intro; exact IH].
Qed.

(** The stored admin list is kept by whatever touches the clock or the
    reminders only, and by a file operation that keeps it. *)
Lemma admins_onFiles {A : Type} (f : Admin.fs -> A * Admin.fs) :
  (forall g, stored (snd (f g)) = stored g) -> preserves svc (adminsOf svc) (onFiles f).
Proof.
  intros Hf w. unfold worldAfter, onFiles, adminsOf. specialize (Hf (files svc w)).
  destruct (f (files svc w)) as [a g]. exact Hf.
Qed.

Lemma admins_onClock {A : Type} (m : DateTime.M A) :
  preserves svc (adminsOf svc) (onClock m).
Proof. intro w. unfold worldAfter, onClock. destruct (m (clock svc w)). reflexivity. Qed.

Lemma admins_onStore {A : Type} (f : Store svc -> outcome A * Store svc) :
  preserves svc (adminsOf svc) (onStore f).
Proof. intro w. unfold worldAfter, onStore. destruct (f (reminders svc w)). reflexivity. Qed.

Lemma isAdmin_stored (j : Admin.jid) (g : Admin.fs) : stored (snd (isAdmin j g)) = stored g.
Proof.
  unfold isAdmin. destruct (missing j); [reflexivity|].
  destruct (isCreator j); [reflexivity|].
  pose proof (stored_after_read g) as Hr.
  destruct (readAdminsFromFile g). exact Hr.
Qed.

Lemma getAdminList_stored (g : Admin.fs) :
  stored (snd (getAdminList g)) = stored g /\ admins (fst (getAdminList g)) = stored g.
Proof.
  unfold getAdminList. destruct (read_stored g) as [Hr [Hs _]].
  destruct (readAdminsFromFile g). split; [exact Hs|exact Hr].
Qed.

Lemma initAdminSystem_stored (g : Admin.fs) : stored (initAdminSystem g) = stored g.
Proof.
  unfold initAdminSystem. rewrite stored_after_read.
  unfold ensureAdminsFile, writeFile, stored.
  destruct g as [[c|] wr]; cbn [adminsFile writable]; [reflexivity|].
  destruct wr; reflexivity.
Qed.

Ltac admins_step :=
  match goal with
  | |- preserves _ _ (ret _) => apply preserves_ret
  | |- preserves _ _ (throw _) => apply preserves_throw
  | |- preserves _ _ (emit _) => apply preserves_emit
  | |- preserves _ _ (send _ _) => apply preserves_emit
  | |- preserves _ _ (sendTo _ _) => apply preserves_emit
  | |- preserves _ _ (connected _) => apply preserves_connected
  | |- preserves _ _ (onFiles (isAdmin _)) => apply admins_onFiles, isAdmin_stored
  | |- preserves _ _ (onFiles getAdminList) =>
      apply admins_onFiles; intro; apply getAdminList_stored
  | |- preserves _ _ (onClock _) => apply admins_onClock
  | |- preserves _ _ (now _) => apply admins_onClock
  | |- preserves _ _ (onStore _) => apply admins_onStore
  | |- preserves _ _ (forEach _ _) => apply preserves_forEach; intro
  | |- preserves _ _ (bind _ _) => apply preserves_bind; [|intro]
  | |- preserves _ _ (catch _ _) => apply preserves_catch; [|intro]
  | |- preserves _ _ (if ?c then _ else _) => destruct c
  | |- preserves _ _ (match ?x with _ => _ end) => destruct x
  end.

Lemma admins_formatJID (j : json) : preserves svc (adminsOf svc) (formatJID svc j).
Proof. unfold formatJID. repeat admins_step. Qed.

(** Every command but [!promote] and [!demote] keeps the stored list. *)
Lemma invoke_keeps_admins (c : command) (p : params) (a cr : bool) :
  c <> Promote -> c <> Demote -> preserves svc (adminsOf svc) (invoke svc c p a cr).
Proof.
  intros Hp Hd. destruct c; try congruence; cbn [invoke];
    unfold sendHelpMessage, sendBotInfo, sendCurrentTime, handleAdminsCommand,
      handleBroadcastCommand, handleAddReminder, handleMyReminders,
      handleCancelReminder, handleNaturalReminder;
    repeat first [apply admins_formatJID | admins_step].
Qed.

(** The world that [handleCommand] leaves is the one its handler leaves. *)
Lemma handleCommand_world (p : params) (w : world svc) :
  exists a w1,
    adminsOf svc w1 = adminsOf svc w
    /\ worldAfter (handleCommand svc p) w =
       worldAfter
         (match firstMatch (text p) with
          | Some c => invoke svc c p a (isCreator (Some (sender p)))
          | None =>
              if looksLikeCommand (text p) then sendTo (jid p) UnknownCommand else ret tt
          end) w1.
Proof.
  unfold worldAfter. rewrite handleCommand_is_dispatch.
  unfold dispatch, catch, bind, onFiles.
  pose proof (isAdmin_stored (Some (sender p)) (files svc w)) as Hs.
  destruct (isAdmin (Some (sender p)) (files svc w)) as [a g].
  exists a, (Build_world svc g (clock svc w) (conn svc w) (reminders svc w)).
  split; [exact Hs|].
  generalize (match firstMatch (text p) with
              | Some c => invoke svc c p a (isCreator (Some (sender p)))
              | None =>
                  if looksLikeCommand (text p) then sendTo (jid p) UnknownCommand
                  else ret tt
              end).
  intro m.
  destruct (m (Build_world svc g (clock svc w) (conn svc w) (reminders svc w)))
    as [[[u|msg] w2] e2]; reflexivity.
Qed.

(** What [!promote] and [!demote] do to the stored list *)
Lemma handlePromoteCommand_admins (jid sender text : string) (a cr : bool) (w : world svc) :
  adminsOf svc (worldAfter (handlePromoteCommand svc jid sender text a cr) w) = adminsOf svc w
  \/ (a = true /\ cr = true
      /\ exists command part rest,
           split " " text = command :: part :: rest
           /\ validNumber (digitsOf part) = true
           /\ adminsOf svc (worldAfter (handlePromoteCommand svc jid sender text a cr) w)
              = (adminsOf svc w ++ [JStr (digitsOf part ++ "@s.whatsapp.net")])%list).
Proof.
  unfold handlePromoteCommand.
  destruct a; cbn [negb]; [|left; reflexivity].
  destruct cr; cbn [negb]; [|left; reflexivity].
  destruct (split " " text) as [|command [|part rest]] eqn:Hs; try (left; reflexivity).
  destruct (validNumber (digitsOf part)) eqn:Hv; cbn [negb]; [|left; reflexivity].
  destruct (promoteAdmin_outcome (Some sender) (Some (digitsOf part ++ "@s.whatsapp.net"))
              (files svc w)) as [_ [Hok Hfail]].
  unfold worldAfter, bind, onFiles, catch, sendTo, send, emit, ret, adminsOf in *.
  destruct (promoteAdmin (Some sender) (Some (digitsOf part ++ "@s.whatsapp.net"))
              (files svc w)) as [result g]. cbn [fst snd] in *.
  destruct (success result); cbn [fst snd files].
  - right. split; [reflexivity|]. split; [reflexivity|].
    exists command, part, rest. split; [reflexivity|]. split; [exact Hv|].
    apply Hok. reflexivity.
  - left. apply Hfail. reflexivity.
Qed.

Lemma handleDemoteCommand_admins (jid sender text : string) (a cr : bool) (w : world svc) :
  adminsOf svc (worldAfter (handleDemoteCommand svc jid sender text a cr) w) = adminsOf svc w
  \/ (a = true /\ cr = true
      /\ exists command part rest,
           split " " text = command :: part :: rest
           /\ validNumber (digitsOf part) = true
           /\ adminsOf svc (worldAfter (handleDemoteCommand svc jid sender text a cr) w)
              = filter (fun j => negb (isString (digitsOf part ++ "@s.whatsapp.net") j))
                  (adminsOf svc w)).
Proof.
  unfold handleDemoteCommand.
  destruct a; cbn [negb]; [|left; reflexivity].
  destruct cr; cbn [negb]; [|left; reflexivity].
  destruct (split " " text) as [|command [|part rest]] eqn:Hs; try (left; reflexivity).
  destruct (validNumber (digitsOf part)) eqn:Hv; cbn [negb]; [|left; reflexivity].
  destruct (demoteAdmin_outcome (Some sender) (Some (digitsOf part ++ "@s.whatsapp.net"))
              (files svc w)) as [_ [Hok Hfail]].
  unfold worldAfter, bind, onFiles, catch, sendTo, send, emit, ret, adminsOf in *.
  destruct (demoteAdmin (Some sender) (Some (digitsOf part ++ "@s.whatsapp.net"))
              (files svc w)) as [result g]. cbn [fst snd] in *.
  destruct (success result); cbn [fst snd files].
  - right. split; [reflexivity|]. split; [reflexivity|].
    exists command, part, rest. split; [reflexivity|]. split; [exact Hv|].
    apply Hok. reflexivity.
  - left. apply Hfail. reflexivity.
Qed.

(** A command of a sender that is not the creator keeps the stored list. *)
Lemma handleCommand_keeps_admins (p : params) (w : world svc) :
  sender p <> CREATOR_JID ->
  adminsOf svc (worldAfter (handleCommand svc p) w) = adminsOf svc w.
Proof.
  intro Hne.
  destruct (handleCommand_world p w) as [a [w1 [Hw1 ->]]].
  assert (isCreator (Some (sender p)) = false) as Hc.
  { destruct (isCreator (Some (sender p))) eqn:Hc; [|reflexivity].
    apply isCreator_iff in Hc. congruence. }
  rewrite Hc, <- Hw1.
  destruct (firstMatch (text p)) as [c|].
  - destruct c;
      try (apply invoke_keeps_admins; discriminate); cbn [invoke].
    + destruct (handlePromoteCommand_admins (jid p) (sender p) (text p) a false w1)
        as [H|[_ [H _]]]; [exact H|discriminate].
    + destruct (handleDemoteCommand_admins (jid p) (sender p) (text p) a false w1)
        as [H|[_ [H _]]]; [exact H|discriminate].
  - destruct (looksLikeCommand (text p)); reflexivity.
Qed.

Lemma handleMessagesUpsert_keeps_admins (m : upsert) :
  Forall (fun msg => senderOf msg <> CREATOR_JID) (messages m) ->
  preserves svc (adminsOf svc) (handleMessagesUpsert svc m).
Proof.
  intro Hall. unfold handleMessagesUpsert.
  destruct (negb (String.eqb (type m) "notify")); [apply preserves_ret|].
  induction Hall as [|msg l Hmsg Hall IH]; cbn [forEach]; [apply preserves_ret|].
  apply preserves_bind; [|intro; exact IH].
  unfold handleMessage.
  destruct (message msg) as [messageContent|]; [|apply preserves_ret].
  destruct (fromMe msg); [apply preserves_ret|].
  destruct (isJidBroadcast (remoteJid msg)); [apply preserves_ret|].
  destruct (messageText messageContent) as [text|]; [|apply preserves_ret].
  apply preserves_bind; [apply admins_onClock|intros _].
  destruct (negb (isEmpty (trim text))); [|apply preserves_ret].
  intro w. apply handleCommand_keeps_admins. exact Hmsg.
Qed.

(** X7: only a message of the creator changes the admin list.  Whatever
    the event (the start of the process, a connection update, a change of
    group participants, a batch of inbound messages of any text), the list
    stored in the admins file after the step is the list stored before it,
    unless the event is a batch with a message whose sender is the
    creator's JID. *)
Theorem only_the_creator_changes_admins (sock : socket) (e : event) (w : world svc) :
  (forall m, e = MessagesUpsert m ->
     Forall (fun msg => senderOf msg <> CREATOR_JID) (messages m)) ->
  adminsOf svc (worldAfter (step svc sock e) w) = adminsOf svc w.
Proof.
  intro Hm. revert w. change (preserves svc (adminsOf svc) (step svc sock e)).
  destruct e; cbn [step]; try apply preserves_ret.
  - apply preserves_catch; [|intro; apply preserves_ret].
    unfold startBot. apply preserves_bind; [|intro].
    + apply admins_onFiles. intro g. apply initAdminSystem_stored.
    + repeat admins_step.
  - unfold onConnectionUpdate, sendStartupMessage, notifyAdmins.
    assert (forall s, preserves svc (adminsOf svc) (setConn svc s)) as Hset
      by (intros s w'; reflexivity).
    assert (preserves svc (adminsOf svc) (closeConnection svc u)) as Hclose.
    { intro w'. unfold worldAfter, closeConnection.
      destruct (Connection.onClose u (conn svc w')) as [[s effs] r]. reflexivity. }
    repeat first [apply Hset | apply Hclose | apply admins_formatJID | admins_step].
  - apply preserves_catch; [|intro; apply preserves_ret].
    apply handleMessagesUpsert_keeps_admins. apply Hm. reflexivity.
  - unfold handleGroupParticipantsUpdate, ownJid. repeat admins_step.
Qed.

(** X8: the admin list changes by validated numbers only.  A command
    leaves the stored list as it was, or appends one JID to it, or removes
    one JID from it; in the last two cases the sender is the creator and
    the JID is a string of thirteen decimal digits that starts with 880,
    the digits of the second word of the command, followed by
    '@s.whatsapp.net'. *)
Theorem admin_list_changes_by_valid_numbers (p : params) (w : world svc) :
  adminsOf svc (worldAfter (handleCommand svc p) w) = adminsOf svc w
  \/ exists command part rest,
       sender p = CREATOR_JID
       /\ split " " (text p) = command :: part :: rest
       /\ allChars isDigit (keep isDigit part) = true
       /\ String.length (keep isDigit part) = 13%nat
       /\ startsWith "880" (keep isDigit part) = true
       /\ (adminsOf svc (worldAfter (handleCommand svc p) w)
           = (adminsOf svc w ++ [JStr (keep isDigit part ++ "@s.whatsapp.net")])%list
           \/ adminsOf svc (worldAfter (handleCommand svc p) w)
              = filter (fun j => negb (isString (keep isDigit part ++ "@s.whatsapp.net") j))
                  (adminsOf svc w)).
Proof.
  destruct (handleCommand_world p w) as [a [w1 [Hw1 ->]]]. rewrite <- Hw1.
  assert (forall part, validNumber (digitsOf part) = true ->
            allChars isDigit (keep isDigit part) = true
            /\ String.length (keep isDigit part) = 13%nat
            /\ startsWith "880" (keep isDigit part) = true) as Hvalid.
  { intros part Hv. rewrite digitsOf_keep in Hv. unfold validNumber in Hv.
    apply andb_true_iff in Hv. destruct Hv as [H1 H2]. apply Nat.eqb_eq in H2.
    split; [apply allChars_keep|]. split; assumption. }
  destruct (firstMatch (text p)) as [c|].
  - destruct c;
      try (left; apply invoke_keeps_admins; discriminate); cbn [invoke].
    + destruct (handlePromoteCommand_admins (jid p) (sender p) (text p) a
                  (isCreator (Some (sender p))) w1)
        as [H|[_ [Hc [command [part [rest [Hs [Hv H]]]]]]]]; [left; exact H|right].
      apply isCreator_iff in Hc. injection Hc as Hc'.
      destruct (Hvalid part Hv) as [V1 [V2 V3]]. rewrite digitsOf_keep in H.
      exists command, part, rest.
      split; [exact Hc'|]. split; [exact Hs|]. split; [exact V1|].
      split; [exact V2|]. split; [exact V3|]. left. exact H.
    + destruct (handleDemoteCommand_admins (jid p) (sender p) (text p) a
                  (isCreator (Some (sender p))) w1)
        as [H|[_ [Hc [command [part [rest [Hs [Hv H]]]]]]]]; [left; exact H|right].
      apply isCreator_iff in Hc. injection Hc as Hc'.
      destruct (Hvalid part Hv) as [V1 [V2 V3]]. rewrite digitsOf_keep in H.
      exists command, part, rest.
      split; [exact Hc'|]. split; [exact Hs|]. split; [exact V1|].
      split; [exact V2|]. split; [exact V3|]. right. exact H.
  - left. destruct (looksLikeCommand (text p)); reflexivity.
Qed.

(** *** The intake of messages *)

Lemma handleMessage_skipped (msg : inbound) (w : world svc) :
  skipped msg = true -> handleMessage svc msg w = (Ok tt, w, []).
Proof.
  unfold skipped, handleMessage.
  destruct (message msg) as [messageContent|]; [|reflexivity].
  destruct (fromMe msg); [reflexivity|].
  destruct (isJidBroadcast (remoteJid msg)); [reflexivity|].
  destruct (messageText messageContent); [discriminate|reflexivity].
Qed.

Lemma handleMessage_silent (msg : inbound) (w : world svc) :
  silent msg = true ->
  exists c, handleMessage svc msg w
            = (Ok tt, Build_world svc (files svc w) c (conn svc w) (reminders svc w), []).
Proof.
  unfold silent. destruct (skipped msg) eqn:Hs; cbn [orb].
  - intros _. exists (clock svc w). rewrite (handleMessage_skipped msg w Hs).
    destruct w; reflexivity.
  - unfold skipped in Hs. unfold handleMessage.
    destruct (message msg) as [messageContent|]; [|discriminate].
    destruct (fromMe msg); [discriminate|].
    destruct (isJidBroadcast (remoteJid msg)); [discriminate|].
    destruct (messageText messageContent) as [text|]; [|discriminate].
    intro He. unfold bind, now, onClock, DateTime.now. cbn [fst snd].
    rewrite He. cbn [negb]. eexists. reflexivity.
Qed.

(** X9: the bot answers neither its own messages nor broadcast messages.
    A batch that is not of type 'notify', or in which every message is
    without content, the bot's own, from a broadcast list or of an
    unsupported type, leaves the world as it is and has no effect; when
    the other messages of the batch have blank text, nothing is sent
    either, and the admins file, the connection state and the reminders
    are as before. *)
Theorem skipped_messages_get_no_answer (m : upsert) (w : world svc) :
  (type m <> "notify" \/ forallb skipped (messages m) = true ->
   handleMessagesUpsert svc m w = (Ok tt, w, []))
  /\ (forallb silent (messages m) = true ->
      effectsOf (handleMessagesUpsert svc m) w = []
      /\ files svc (worldAfter (handleMessagesUpsert svc m) w) = files svc w
      /\ conn svc (worldAfter (handleMessagesUpsert svc m) w) = conn svc w
      /\ reminders svc (worldAfter (handleMessagesUpsert svc m) w) = reminders svc w).
Proof.
  unfold handleMessagesUpsert. split.
  - intros [Ht|Hall].
    + destruct (String.eqb (type m) "notify") eqn:He; [|reflexivity].
      apply String.eqb_eq in He. contradiction.
    + destruct (negb (String.eqb (type m) "notify")); [reflexivity|].
      induction (messages m) as [|msg l IH]; [reflexivity|].
      cbn [forallb] in Hall. apply andb_true_iff in Hall. destruct Hall as [Hmsg Hl].
      cbn [forEach]. unfold bind. rewrite (handleMessage_skipped msg w Hmsg).
      rewrite (IH Hl). reflexivity.
  - intro Hall.
    destruct (negb (String.eqb (type m) "notify")); [repeat split|].
    revert w. induction (messages m) as [|msg l IH]; intro w; [repeat split|].
    cbn [forallb] in Hall. apply andb_true_iff in Hall. destruct Hall as [Hmsg Hl].
    destruct (handleMessage_silent msg w Hmsg) as [c Hc].
    specialize (IH Hl (Build_world svc (files svc w) c (conn svc w) (reminders svc w))).
    unfold effectsOf, worldAfter in *. cbn [forEach]. unfold bind. rewrite Hc.
    destruct (forEach l (handleMessage svc) _) as [[r w2] e2]. cbn [fst snd] in *.
    exact IH.
Qed.

(** *** Broadcasts and the notification of a start *)

Lemma forEach_emit (l : list effect) (w : world svc) : forEach l emit w = (Ok tt, w, l).
Proof.
  induction l as [|e l IH]; [reflexivity|].
  cbn [forEach]. unfold bind, emit at 1. rewrite IH. reflexivity.
Qed.

Lemma forEach_step {A : Type} (a : A) (l : list A) (body : A -> H svc unit)
    (w w' : world svc) (e : list effect) :
  body a w = (Ok tt, w', e) ->
  forEach (a :: l) body w
  = (let '(r, w2, e2) := forEach l body w' in (r, w2, (e ++ e2)%list)).
Proof. intro Hb. cbn [forEach]. unfold bind. rewrite Hb. reflexivity. Qed.

Lemma broadcast_loop (sender : string) (text : template) (l : list json) (w : world svc) :
  forEach l (fun adminJid =>
    if negb (isString CREATOR_JID adminJid) && negb (isString sender adminJid)
    then catch (bind (send adminJid text) (fun _ => emit (Delay 1000)))
               (fun _ => bind (formatJID svc adminJid) (fun _ => ret tt))
    else ret tt) w
  = (Ok tt, w, flat_map (fun adminJid => [Send adminJid text; Delay 1000])
                 (broadcastTargets sender l)).
Proof.
  induction l as [|a l IH]; [reflexivity|].
  unfold broadcastTargets. cbn [filter].
  destruct (negb (isString CREATOR_JID a) && negb (isString sender a)) eqn:Hc.
  - rewrite (forEach_step a l _ w w [Send a text; Delay 1000]).
    + rewrite IH. reflexivity.
    + rewrite Hc. reflexivity.
  - rewrite (forEach_step a l _ w w []).
    + rewrite IH. reflexivity.
    + rewrite Hc. reflexivity.
Qed.


Lemma length_filter_le {A : Type} (f : A -> bool) (l : list A) :
  (List.length (filter f l) <= List.length l)%nat.
Proof.
  induction l as [|a l IH]; [simpl; lia|]. cbn [filter].
  destruct (f a); simpl; lia.
Qed.

Lemma length_filter_lt {A : Type} (f : A -> bool) (l : list A) (a : A) :
  In a l -> f a = false -> (List.length (filter f l) < List.length l)%nat.
Proof.
  induction l as [|b l IH]; intros Hin Hf; [destruct Hin|].
  cbn [filter]. destruct Hin as [->|Hin].
  - rewrite Hf. pose proof (length_filter_le f l). simpl. lia.
  - specialize (IH Hin Hf). destruct (f b); simpl; lia.
Qed.

(** X10: a broadcast goes to the creator and to the stored admins, and to
    nobody else.  For an admin with a message to send, and a stored list
    whose entries are strings, the handler sends
    the broadcast to the creator first, then to each entry of the stored
    list that is neither the creator nor the sender, in the order of the
    list and with a wait of one second after each, and last confirms to
    the chat it was asked in.  The count it confirms is the length of the
    stored list plus one, whoever was left out: it is never less than the
    number of broadcasts sent, and it is more when the sender is a stored
    admin.  A sender who is no admin gets the refusal and nothing else. *)
Theorem broadcast_goes_to_creator_and_admins (jid sender text : string) (w : world svc) :
  isEmpty (argument text) = false ->
  forallb isText (adminsOf svc w) = true ->
  effectsOf (handleBroadcastCommand svc jid sender text true) w
  = (Send (JStr CREATOR_JID) (Broadcast (argument text) sender)
     :: flat_map (fun adminJid => [Send adminJid (Broadcast (argument text) sender);
                                   Delay 1000])
          (broadcastTargets sender (adminsOf svc w))
     ++ [Send (JStr jid) (BroadcastSent (List.length (adminsOf svc w) + 1))])%list
  /\ (1 + List.length (broadcastTargets sender (adminsOf svc w))
      <= List.length (adminsOf svc w) + 1)%nat
  /\ (In (JStr sender) (adminsOf svc w) ->
      (1 + List.length (broadcastTargets sender (adminsOf svc w))
       < List.length (adminsOf svc w) + 1)%nat)
  /\ effectsOf (handleBroadcastCommand svc jid sender text false) w
     = [Send (JStr jid) BroadcastRestricted].
Proof.
  intros Harg _. split; [|split; [|split]].
  - unfold effectsOf, handleBroadcastCommand. cbn [negb]. rewrite Harg.
    unfold catch at 1. unfold bind at 1. unfold onFiles.
    destruct (getAdminList_stored (files svc w)) as [_ Hadm].
    destruct (getAdminList (files svc w)) as [adminList g]. cbn [fst] in Hadm.
    unfold bind at 1. unfold catch at 1, sendTo at 1, send at 1, emit at 1.
    unfold bind at 1. rewrite broadcast_loop.
    unfold sendTo, send, emit. cbn [fst snd app]. rewrite Hadm. reflexivity.
  - unfold broadcastTargets.
    pose proof (length_filter_le
                  (fun adminJid => negb (isString CREATOR_JID adminJid)
                                   && negb (isString sender adminJid))
                  (adminsOf svc w)). lia.
  - intro Hin. unfold broadcastTargets.
    pose proof (length_filter_lt
                  (fun adminJid => negb (isString CREATOR_JID adminJid)
                                   && negb (isString sender adminJid))
                  (adminsOf svc w) (JStr sender) Hin) as Hlt.
    cbn beta in Hlt. rewrite (proj2 (isString_iff sender (JStr sender)) eq_refl) in Hlt.
    rewrite andb_false_r in Hlt. specialize (Hlt eq_refl). lia.
  - reflexivity.
Qed.

(** *** The connection: openings, runs of updates and the exported send *)

Lemma bind_ok {A B : Type} (m : H svc A) (k : A -> H svc B) (w w1 : world svc)
    (a : A) (e1 : list effect) :
  m w = (Ok a, w1, e1) ->
  bind m k w = (let '(r, w2, e2) := k a w1 in (r, w2, (e1 ++ e2)%list)).
Proof. intro Hm. unfold bind. rewrite Hm. reflexivity. Qed.

Lemma worldAfter_bind_ok {A B : Type} (m : H svc A) (k : A -> H svc B) (w w1 : world svc)
    (a : A) (e1 : list effect) :
  m w = (Ok a, w1, e1) -> worldAfter (bind m k) w = worldAfter (k a) w1.
Proof.
  intro Hm. unfold worldAfter, bind. rewrite Hm.
  destruct (k a w1) as [[r w2] e2]. reflexivity.
Qed.


Lemma isState_open (u : Connection.update) :
  isState u "open" = true -> isState u "close" = false /\ isState u "connecting" = false.
Proof.
  unfold isState, Connection.strictEq.
  destruct (Connection.connection u) as [| | | |s|]; try discriminate.
  intro H. apply String.eqb_eq in H. subst s. split; reflexivity.
Qed.

Lemma isState_close (u : Connection.update) :
  isState u "close" = true -> isState u "open" = false /\ isState u "connecting" = false.
Proof.
  unfold isState, Connection.strictEq.
  destruct (Connection.connection u) as [| | | |s|]; try discriminate.
  intro H. apply String.eqb_eq in H. subst s. split; reflexivity.
Qed.

Lemma conn_onFiles {A : Type} (f : Admin.fs -> A * Admin.fs) :
  preserves svc (conn svc) (onFiles f).
Proof. intro w. unfold worldAfter, onFiles. destruct (f (files svc w)). reflexivity. Qed.

Lemma conn_onClock {A : Type} (m : DateTime.M A) : preserves svc (conn svc) (onClock m).
Proof. intro w. unfold worldAfter, onClock. destruct (m (clock svc w)). reflexivity. Qed.

Ltac conn_step :=
  match goal with
  | |- preserves _ _ (ret _) => apply preserves_ret
  | |- preserves _ _ (throw _) => apply preserves_throw
  | |- preserves _ _ (emit _) => apply preserves_emit
  | |- preserves _ _ (send _ _) => apply preserves_emit
  | |- preserves _ _ (sendTo _ _) => apply preserves_emit
  | |- preserves _ _ (onFiles _) => apply conn_onFiles
  | |- preserves _ _ (onClock _) => apply conn_onClock
  | |- preserves _ _ (now _) => apply conn_onClock
  | |- preserves _ _ (forEach _ _) => apply preserves_forEach; intro
  | |- preserves _ _ (bind _ _) => apply preserves_bind; [|intro]
  | |- preserves _ _ (catch _ _) => apply preserves_catch; [|intro]
  | |- preserves _ _ (if ?c then _ else _) => destruct c
  | |- preserves _ _ (match ?x with _ => _ end) => destruct x
  end.

(** The two messages of a start keep the connection state and wait for
    nothing. *)
Lemma greeting_keeps_conn :
  preserves svc (conn svc) (bind (sendStartupMessage svc) (fun _ => notifyAdmins svc)).
Proof. unfold sendStartupMessage, notifyAdmins, formatJID. repeat conn_step. Qed.

Lemma notify_keeps_conn : preserves svc (conn svc) (notifyAdmins svc).
Proof. unfold notifyAdmins, formatJID. repeat conn_step. Qed.

Lemma greeting_has_no_delay :
  only svc notDelay (bind (sendStartupMessage svc) (fun _ => notifyAdmins svc)).
Proof. unfold sendStartupMessage, notifyAdmins, formatJID. repeat only_step. Qed.

Lemma delays_none (l : list effect) :
  (forall e, In e l -> notDelay e = true) -> Connection.delays l = [].
Proof.
  induction l as [|e l IH]; intro Hl; [reflexivity|].
  unfold Connection.delays in *. cbn [flat_map].
  rewrite IH by (intros e' He'; apply Hl; right; exact He').
  specialize (Hl e (or_introl eq_refl)). destruct e; try reflexivity. discriminate.
Qed.

Lemma onQR_no_delay (u : Connection.update) : Connection.delays (Connection.onQR u) = [].
Proof. unfold Connection.onQR. destruct (Connection.truthy _); reflexivity. Qed.

(** The [connection.update] handler on a [close] *)
Lemma onConnectionUpdate_close (u : Connection.update) (w : world svc) :
  isState u "close" = true ->
  onConnectionUpdate svc u w
  = (Ok tt,
     Build_world svc (files svc w) (clock svc w)
       (fst (fst (Connection.onClose u (conn svc w)))) (reminders svc w),
     (Connection.onQR u ++ snd (fst (Connection.onClose u (conn svc w))))%list).
Proof.
  intro Hc. destruct (isState_close u Hc) as [Ho Hg].
  unfold onConnectionUpdate. rewrite Hc, Ho, Hg.
  rewrite (bind_ok _ _ w w tt (Connection.onQR u) (forEach_emit _ w)).
  unfold bind, closeConnection.
  destruct (Connection.onClose u (conn svc w)) as [[s effs] returned].
  cbn [fst snd]. destruct returned; cbn [fst snd ret]; rewrite ?app_nil_r; reflexivity.
Qed.

(** The [connection.update] handler on an update that is no [close] *)
Lemma onConnectionUpdate_other (u : Connection.update) (w : world svc) :
  isState u "close" = false ->
  conn svc (worldAfter (onConnectionUpdate svc u) w)
  = (if isState u "open"
     then {| Connection.isConnected := true; Connection.connectionRetries := 0 |}
     else conn svc w)
  /\ Connection.delays (effectsOf (onConnectionUpdate svc u) w) = [].
Proof.
  intro Hc. split.
  - unfold onConnectionUpdate. rewrite Hc.
    rewrite (worldAfter_bind_ok _ _ w w tt (Connection.onQR u) (forEach_emit _ w)).
    rewrite (worldAfter_bind_ok _ _ w w false [] eq_refl).
    destruct (isState u "open").
    + destruct (isState u "connecting");
        repeat (erewrite worldAfter_bind_ok; [|reflexivity]);
        (etransitivity; [apply notify_keeps_conn|reflexivity]).
    + destruct (isState u "connecting"); reflexivity.
  - apply delays_none.
    assert (only svc notDelay (onConnectionUpdate svc u)) as Ho.
    { unfold onConnectionUpdate. rewrite Hc. unfold Connection.onQR.
      destruct (Connection.truthy (Connection.qr u)); cbn [forEach];
        repeat first [apply greeting_has_no_delay | only_step]. }
    intros e He. exact (Ho w e He).
Qed.



(** One update keeps the retry counter in its range and waits, if at all,
    for one of the five delays of the schedule. *)
Lemma onConnectionUpdate_in_range (u : Connection.update) (w : world svc) :
  0 <= Connection.connectionRetries (conn svc w) <= Connection.MAX_RETRIES ->
  0 <= Connection.connectionRetries (conn svc (worldAfter (onConnectionUpdate svc u) w))
    <= Connection.MAX_RETRIES
  /\ Forall (fun ms => In ms backoff)
       (Connection.delays (effectsOf (onConnectionUpdate svc u) w)).
Proof.
  unfold Connection.MAX_RETRIES. intro Hr.
  destruct (isState u "close") eqn:Hc.
  - unfold worldAfter, effectsOf. rewrite (onConnectionUpdate_close u w Hc).
    cbn [fst snd conn]. rewrite delays_app, onQR_no_delay, onClose_cases.
    unfold Connection.MAX_RETRIES.
    destruct (Z.ltb_spec (Connection.connectionRetries (conn svc w)) 5) as [Hlt|Hge];
      cbn [fst snd Connection.connectionRetries app].
    + split; [lia|].
      change (Connection.delays _)
        with [Connection.delayTime (Connection.connectionRetries (conn svc w) + 1)].
      constructor; [|constructor].
      assert (Connection.connectionRetries (conn svc w) = 0
              \/ Connection.connectionRetries (conn svc w) = 1
              \/ Connection.connectionRetries (conn svc w) = 2
              \/ Connection.connectionRetries (conn svc w) = 3
              \/ Connection.connectionRetries (conn svc w) = 4) as Hcases by lia.
      destruct Hcases as [->|[->|[->|[->| ->]]]]; cbn; tauto.
    + split; [lia|]. constructor.
  - destruct (onConnectionUpdate_other u w Hc) as [Hconn Hd]. rewrite Hconn, Hd.
    split; [|constructor].
    destruct (isState u "open"); [cbn; lia|exact Hr].
Qed.

Lemma runUpdates_cons (u : Connection.update) (us : list Connection.update) (w : world svc) :
  runUpdates svc (u :: us) w
  = (fst (runUpdates svc us (worldAfter (onConnectionUpdate svc u) w)),
     (effectsOf (onConnectionUpdate svc u) w
      ++ snd (runUpdates svc us (worldAfter (onConnectionUpdate svc u) w)))%list).
Proof. cbn [runUpdates]. destruct (runUpdates svc us _). reflexivity. Qed.

(** X12: the retry counter stays between 0 and 5.  After any sequence of
    connection updates, of any kind and in any order, handled from a state
    whose counter is in that range, the counter is in that range; each
    update either leaves the counter, resets it to zero or adds one to
    it; and every wait before a reconnection is one of the five delays of
    the schedule, 2, 4, 8, 16 and 30 seconds. *)
Theorem retry_counter_stays_in_range (us : list Connection.update) (w : world svc) :
  0 <= Connection.connectionRetries (conn svc w) <= Connection.MAX_RETRIES ->
  0 <= Connection.connectionRetries (conn svc (fst (runUpdates svc us w)))
    <= Connection.MAX_RETRIES
  /\ Forall (fun ms => In ms [2000; 4000; 8000; 16000; 30000])
       (Connection.delays (snd (runUpdates svc us w)))
  /\ (forall u,
        let before := Connection.connectionRetries (conn svc w) in
        let after :=
          Connection.connectionRetries (conn svc (worldAfter (onConnectionUpdate svc u) w)) in
        after = before \/ after = 0 \/ after = before + 1).
Proof.
  intro Hr. split; [|split].
  - revert w Hr. induction us as [|u us IH]; intros w Hr; [exact Hr|].
    rewrite runUpdates_cons. cbn [fst]. apply IH.
    apply onConnectionUpdate_in_range. exact Hr.
  - revert w Hr. induction us as [|u us IH]; intros w Hr; [constructor|].
    rewrite runUpdates_cons. cbn [snd]. rewrite delays_app.
    destruct (onConnectionUpdate_in_range u w Hr) as [Hr' Hd].
    apply Forall_app. split; [exact Hd|apply IH; exact Hr'].
  - intro u. cbv zeta. destruct (isState u "close") eqn:Hc.
    + unfold worldAfter. rewrite (onConnectionUpdate_close u w Hc).
      cbn [fst snd conn]. rewrite onClose_cases.
      destruct (Connection.connectionRetries (conn svc w) <? Connection.MAX_RETRIES);
        cbn [fst Connection.connectionRetries]; auto.
    + destruct (onConnectionUpdate_other u w Hc) as [Hconn _]. rewrite Hconn.
      destruct (isState u "open"); cbn [Connection.connectionRetries]; auto.
Qed.

(** X13: the exported [sendMessage] sends only while the connection is
    open.  After a [close] update it throws 'Bot is not connected' and
    sends nothing, and [isBotConnected] answers false; after an [open]
    update it hands the message to the socket, and [isBotConnected]
    answers true; without a socket it throws whatever the state. *)
Theorem sendMessage_needs_an_open_connection (u : Connection.update) (w : world svc)
    (sock : socket) (jid : json) (message : template) :
  (isState u "close" = true ->
   forall s,
     sendMessage svc s jid message (worldAfter (onConnectionUpdate svc u) w)
     = (Throw "Bot is not connected", worldAfter (onConnectionUpdate svc u) w, [])
     /\ fst (fst (isBotConnected svc (worldAfter (onConnectionUpdate svc u) w))) = Ok false)
  /\ (isState u "open" = true ->
      sendMessage svc (Some sock) jid message (worldAfter (onConnectionUpdate svc u) w)
      = (Ok tt, worldAfter (onConnectionUpdate svc u) w, [Send jid message])
      /\ fst (fst (isBotConnected svc (worldAfter (onConnectionUpdate svc u) w))) = Ok true)
  /\ sendMessage svc None jid message w = (Throw "Bot is not connected", w, []).
Proof.
  split; [|split].
  - intros Hc s.
    assert (Connection.isConnected (conn svc (worldAfter (onConnectionUpdate svc u) w)) = false)
      as Hconn.
    { unfold worldAfter. rewrite (onConnectionUpdate_close u w Hc).
      cbn [fst snd conn]. rewrite onClose_cases.
      destruct (Connection.connectionRetries (conn svc w) <? Connection.MAX_RETRIES);
        reflexivity. }
    unfold sendMessage, isBotConnected, bind, connected. rewrite Hconn.
    cbn [negb]. rewrite orb_true_r. split; reflexivity.
  - intro Ho. destruct (isState_open u Ho) as [Hc _].
    destruct (onConnectionUpdate_other u w Hc) as [Hconn _]. rewrite Ho in Hconn.
    unfold sendMessage, isBotConnected, bind, connected. rewrite Hconn.
    split; reflexivity.
  - unfold sendMessage, bind, connected. reflexivity.
Qed.

(** *** The reminder commands, the admin list and the start *)

Lemma forEach_clock {A : Type} (l : list A) (w : world svc) :
  exists c, forEach l (fun _ => bind (now svc) (fun _ => ret tt)) w
            = (Ok tt, Build_world svc (files svc w) c (conn svc w) (reminders svc w), []).
Proof.
  revert w. induction l as [|a l IH]; intro w.
  - exists (clock svc w). destruct w; reflexivity.
  - cbn [forEach].
    erewrite bind_ok; [|reflexivity]. cbv beta.
    destruct (IH (Build_world svc (files svc w) (fun n => clock svc w (S n)) (conn svc w)
                    (reminders svc w))) as [c Hc].
    exists c. rewrite Hc. reflexivity.
Qed.

(** X14: each reminder command is answered by exactly one message, sent
    to the chat the command came from, and its handler returns whatever
    the reminder service does: what the service throws is reported to the
    user with its error text.  [!myreminders] shows the reminders of the
    sender whose status is 'pending', and says so when there is none;
    [!cancelreminder] hands the whole argument to the service and shows
    its first eight characters. *)
Theorem reminder_commands_answer_once (jid sender text name : string) (w : world svc) :
  (exists t w1,
     handleAddReminder svc jid sender text name w = (Ok tt, w1, [Send (JStr jid) t]))
  /\ (exists t w1,
        handleNaturalReminder svc jid sender text name w = (Ok tt, w1, [Send (JStr jid) t]))
  /\ (exists w1,
        handleMyReminders svc jid sender w
        = (Ok tt, w1,
           [Send (JStr jid)
              match fst (getUserReminders svc sender (reminders svc w)) with
              | Ok found =>
                  match pendingOf found with
                  | [] => NoReminders
                  | pending => ReminderList pending
                  end
              | Throw error => RemindersFailed error
              end]))
  /\ (isEmpty (argument text) = false ->
      exists w1,
        handleCancelReminder svc jid sender text w
        = (Ok tt, w1,
           [Send (JStr jid)
              match fst (deleteReminder svc (argument text) sender (reminders svc w)) with
              | Ok true => Cancelled (take 8 (argument text))
              | Ok false => CancelNotFound (argument text)
              | Throw error => CancelFailed error
              end])).
Proof.
  split; [|split; [|split]].
  - unfold handleAddReminder, catch, bind.
    destruct (isEmpty (argument text)); [eexists; eexists; reflexivity|].
    destruct (onClock_parse svc (argument text) w) as [parsed [w1 Hp]]. rewrite Hp.
    unfold onStore.
    destruct (createReminder svc jid sender _ _ (reminders svc w1)) as [[r|msg] s'];
      eexists; eexists; reflexivity.
  - unfold handleNaturalReminder, catch, bind.
    destruct (onClock_parse svc text w) as [parsed [w1 Hp]]. rewrite Hp.
    unfold onStore.
    destruct (createReminder svc jid sender _ _ (reminders svc w1)) as [[r|msg] s'];
      eexists; eexists; reflexivity.
  - unfold handleMyReminders, catch. unfold bind at 1. unfold onStore, pendingOf.
    destruct (getUserReminders svc sender (reminders svc w)) as [[found|error] s'];
      cbn [fst]; [|eexists; reflexivity].
    destruct (filter _ found) as [|r l] eqn:Hf; [eexists; reflexivity|].
    destruct (forEach_clock (r :: l)
                (Build_world svc (files svc w) (clock svc w) (conn svc w) s')) as [c Hc].
    erewrite bind_ok; [|exact Hc]. eexists. reflexivity.
  - intro Harg. unfold handleCancelReminder, catch, bind. rewrite Harg. unfold onStore.
    destruct (deleteReminder svc (argument text) sender (reminders svc w))
      as [[[|]|error] s']; eexists; reflexivity.
Qed.

Lemma forEach_throw {A : Type} (a : A) (l : list A) (body : A -> H svc unit)
    (w w' : world svc) (msg : string) (e : list effect) :
  body a w = (Throw msg, w', e) -> forEach (a :: l) body w = (Throw msg, w', e).
Proof. intro Hb. cbn [forEach]. unfold bind. rewrite Hb. reflexivity. Qed.

Lemma format_one (a : json) (w : world svc) :
  bind (formatJID svc a) (fun _ => ret tt) w
  = (if showable a then Ok tt else Throw "jid.replace is not a function", w, []).
Proof.
  unfold bind, formatJID, showable.
  destruct a as [|b|k|t|items|props]; cbn [isText falsy orb]; try reflexivity.
  - destruct b; reflexivity.
  - destruct (k =? 0); reflexivity.
  - destruct (isEmpty t); reflexivity.
Qed.

Lemma format_loop (l : list json) (w : world svc) :
  forEach l (fun adminJid => bind (formatJID svc adminJid) (fun _ => ret tt)) w
  = (if forallb showable l then Ok tt else Throw "jid.replace is not a function", w, []).
Proof.
  induction l as [|a l IH]; [reflexivity|]. cbn [forallb].
  pose proof (format_one a w) as Ha. destruct (showable a); cbn [andb].
  - rewrite (forEach_step a l _ w w [] Ha), IH.
    destruct (forallb showable l); reflexivity.
  - apply (forEach_throw a l _ w w _ [] Ha).
Qed.

(** X15: [!admins] shows the creator and the stored list, and fails on an
    entry it cannot show.  To a sender who is no admin the handler sends
    the refusal and nothing else.  To an admin it sends the creator's JID
    and the list stored in the file, as it is, when every entry of the
    list is a string or counts as missing; when the file holds an entry
    that is neither, a number or an object say, the handler throws and
    sends nothing, and [handleCommand] answers with its error message. *)
Theorem admins_command_shows_the_store (jid : string) (w : world svc) :
  effectsOf (handleAdminsCommand svc jid false) w = [Send (JStr jid) AdminsOnly]
  /\ (forallb showable (adminsOf svc w) = true ->
      fst (fst (handleAdminsCommand svc jid true w)) = Ok tt
      /\ effectsOf (handleAdminsCommand svc jid true) w
         = [Send (JStr jid) (AdminList CREATOR_JID (adminsOf svc w))])
  /\ (forallb showable (adminsOf svc w) = false ->
      fst (fst (handleAdminsCommand svc jid true w)) = Throw "jid.replace is not a function"
      /\ effectsOf (handleAdminsCommand svc jid true) w = []
      /\ forall p,
           Bot.jid p = jid -> sender p = CREATOR_JID -> toLowerCase (Bot.text p) = "!admins" ->
           effectsOf (handleCommand svc p) w
           = [Send (JStr jid) (CommandError "jid.replace is not a function")]).
Proof.
  assert (onFiles getAdminList w
          = (Ok {| creator := CREATOR_JID; admins := adminsOf svc w |},
             Build_world svc (snd (readAdminsFromFile (files svc w))) (clock svc w)
               (conn svc w) (reminders svc w), [])) as Hstep.
  { unfold onFiles, getAdminList, adminsOf.
    destruct (read_stored (files svc w)) as [Hr _].
    destruct (readAdminsFromFile (files svc w)) as [l g]. cbn [fst] in Hr. subst l.
    reflexivity. }
  split; [reflexivity|]. split.
  - intro Hall. unfold effectsOf, handleAdminsCommand. cbn [negb].
    rewrite (bind_ok _ _ _ _ _ _ Hstep). cbv beta. cbn [admins creator].
    unfold bind. rewrite format_loop, Hall. split; reflexivity.
  - intro Hall.
    assert (handleAdminsCommand svc jid true w
            = (Throw "jid.replace is not a function",
               Build_world svc (snd (readAdminsFromFile (files svc w))) (clock svc w)
                 (conn svc w) (reminders svc w), [])) as Hthrow.
    { unfold handleAdminsCommand. cbn [negb].
      rewrite (bind_ok _ _ _ _ _ _ Hstep). cbv beta. cbn [admins creator].
      unfold bind. rewrite format_loop, Hall. reflexivity. }
    unfold effectsOf. rewrite Hthrow. split; [reflexivity|]. split; [reflexivity|].
    intros p Hj Hs Ht. unfold handleCommand. rewrite Ht, Hs, Hj. cbn [String.eqb orb].
    unfold catch at 1. unfold bind at 1, onFiles at 1.
    change (isAdmin (Some CREATOR_JID) (files svc w)) with (true, files svc w).
    cbn [fst snd]. replace (Build_world svc (files svc w) (clock svc w) (conn svc w)
                              (reminders svc w)) with w by (destruct w; reflexivity).
    cbv zeta. cbn [String.eqb Ascii.eqb Bool.eqb andb orb].
    rewrite Hthrow. reflexivity.
Qed.

Lemma split_before (sep : ascii) (n d : string) :
  anyChar (Ascii.eqb sep) n = false ->
  hd EmptyString (split sep (n ++ String sep d)) = n.
Proof.
  induction n as [|c n IH]; intro Hn.
  - cbn [append split]. rewrite Ascii.eqb_refl. reflexivity.
  - cbn [anyChar] in Hn. apply orb_false_iff in Hn. destruct Hn as [Hc Hn].
    cbn [append split]. rewrite Ascii.eqb_sym, Hc.
    specialize (IH Hn). destruct (split sep (n ++ String sep d)) as [|part parts];
      cbn [hd] in *; subst; reflexivity.
Qed.

(** X16: the welcome goes to a group exactly when the bot has been added
    to it.  The bot's own JID is the part of [sock.user.id] before the
    device suffix, followed by '@s.whatsapp.net'; the handler sends the
    welcome to the group, once, when the action is 'add' and that JID is
    among the participants, and nothing otherwise; while the session is
    not open and [sock.user] is missing it sends nothing and does not
    throw. *)
Theorem welcome_when_the_bot_is_added (number device : string) (u : groupUpdate)
    (w : world svc) :
  (anyChar (Ascii.eqb ":") number = false ->
   handleGroupParticipantsUpdate svc {| userId := Some (number ++ ":" ++ device) |} u w
   = (Ok tt, w,
      if String.eqb (action u) "add"
         && existsb (String.eqb (number ++ "@s.whatsapp.net")) (participants u)
      then [Send (JStr (groupId u)) Welcome] else []))
  /\ handleGroupParticipantsUpdate svc {| userId := None |} u w = (Ok tt, w, []).
Proof.
  split.
  - intro Hn. unfold handleGroupParticipantsUpdate, ownJid, catch. cbn [userId].
    destruct (String.eqb (action u) "add"); [|reflexivity]. cbn [andb].
    unfold bind, ret at 1. change (":" ++ device) with (String ":" device).
    rewrite (split_before ":" number device Hn).
    destruct (existsb _ (participants u)); reflexivity.
  - unfold handleGroupParticipantsUpdate, ownJid, catch. cbn [userId].
    destruct (String.eqb (action u) "add"); reflexivity.
Qed.

(** X17: the order of the start.  [startBot] ensures the admins file,
    then initialises the reminder system, and creates the bot only when
    both have returned: when the reminder system throws, the bot is not
    created, the admins file having been ensured already; the start sends
    no message and leaves the stored admin list as it was. *)
Theorem start_creates_the_bot_last (sock : socket) (w : world svc) :
  effectsOf (step svc sock Start) w
  = match fst (initReminderSystem svc (reminders svc w)) with
    | Ok _ => [CreateBot]
    | Throw _ => []
    end
  /\ files svc (worldAfter (step svc sock Start) w) = initAdminSystem (files svc w)
  /\ reminders svc (worldAfter (step svc sock Start) w)
     = snd (initReminderSystem svc (reminders svc w))
  /\ adminsOf svc (worldAfter (step svc sock Start) w) = adminsOf svc w
  /\ (adminsFile (files svc w) = None -> writable (files svc w) = true ->
      adminsFile (files svc (worldAfter (step svc sock Start) w))
      = Some (Json (adminsDoc []))).
Proof.
  unfold effectsOf, worldAfter, adminsOf. cbn [step].
  unfold catch, startBot, bind, onFiles, onStore, emit, ret. cbn [fst snd files reminders].
  destruct (initReminderSystem svc (reminders svc w)) as [[u|msg] s'];
    cbn [fst snd files reminders]; (split; [reflexivity|]); (split; [reflexivity|]);
    (split; [reflexivity|]); (split; [apply initAdminSystem_stored|]);
    intros Hf Hw; unfold initAdminSystem, readAdminsFromFile, ensureAdminsFile, writeFile;
    rewrite Hf, Hw; reflexivity.
Qed.

(** *** Commands from end to end *)

Lemma split_no_separator (sep : ascii) (n : string) :
  anyChar (Ascii.eqb sep) n = false -> split sep n = [n].
Proof.
  induction n as [|c n IH]; intro Hn; [reflexivity|].
  cbn [anyChar] in Hn. apply orb_false_iff in Hn. destruct Hn as [Hc Hn].
  cbn [split]. rewrite Ascii.eqb_sym, Hc, (IH Hn). reflexivity.
Qed.

Lemma digits_have_no_space (n : string) :
  allChars isDigit n = true -> anyChar (Ascii.eqb " ") n = false.
Proof.
  induction n as [|c n IH]; [reflexivity|]. cbn [allChars anyChar].
  intro H. apply andb_true_iff in H. destruct H as [Hc Hn]. rewrite (IH Hn).
  destruct (Ascii.eqb_spec " "%char c) as [<-|]; [discriminate|reflexivity].
Qed.

Lemma suffix_contained (n : string) :
  JS.includes "@s.whatsapp.net" (n ++ "@s.whatsapp.net") = true.
Proof. apply includes_iff. exists n, "". reflexivity. Qed.

Lemma append_injective_l (a b s : string) : a ++ s = b ++ s -> a = b.
Proof.
  intro H.
  assert (String.length a = String.length b) as Hl.
  { apply (f_equal String.length) in H. rewrite !length_append in H. lia. }
  revert b H Hl. induction a as [|c a IH]; intros [|d b] H Hl; try discriminate.
  - reflexivity.
  - cbn [append] in H. injection H as -> H. simpl in Hl.
    rewrite (IH b H); [reflexivity|lia].
Qed.

Lemma isAdmin_creator (g : Admin.fs) : isAdmin (Some CREATOR_JID) g = (true, g).
Proof. reflexivity. Qed.

Lemma handleCommand_of_creator (p : params) (w : world svc) :
  sender p = CREATOR_JID ->
  handleCommand svc p w
  = catch (match firstMatch (text p) with
           | Some c => invoke svc c p true true
           | None =>
               if looksLikeCommand (text p) then sendTo (jid p) UnknownCommand else ret tt
           end)
          (fun error => catch (sendTo (jid p) (CommandError error)) (fun _ => ret tt)) w.
Proof.
  intro Hs. rewrite handleCommand_is_dispatch. unfold dispatch, catch. rewrite Hs.
  unfold bind, onFiles. rewrite isAdmin_creator.
  replace (Build_world svc (files svc w) (clock svc w) (conn svc w) (reminders svc w))
    with w by (destruct w; reflexivity).
  change (isCreator (Some CREATOR_JID)) with true.
  match goal with
  | |- context [match ?m w with _ => _ end] => destruct (m w) as [[[u|msg] w1] e1]
  end; reflexivity.
Qed.

(** X18: the creator's [!promote] and [!demote] take effect.  For a
    number of thirteen decimal digits that starts with 880 and is not the
    creator's, and an admins file that can be written: when the number is
    not yet stored, the creator's command '!promote ' followed by the
    number appends its JID to the stored list, confirms to the chat and
    tells the new admin, who is an admin from then on; when the number is
    stored, '!demote ' followed by it removes the JID, confirms to the
    chat and tells the demoted user, who is no admin any more. *)
Theorem creator_commands_take_effect (chat n : string) (w : world svc) :
  allChars isDigit n = true ->
  validNumber n = true ->
  n <> "8801316655254" ->
  writable (files svc w) = true ->
  (~ In (JStr (n ++ "@s.whatsapp.net")) (adminsOf svc w) ->
   let p := {| jid := chat; sender := CREATOR_JID; text := "!promote " ++ n;
               pushName := "User"; isGroup := false |} in
   effectsOf (handleCommand svc p) w
   = [Send (JStr chat) (Result "User promoted to admin successfully");
      Send (JStr (n ++ "@s.whatsapp.net")) (Promoted CREATOR_JID)]
   /\ adminsOf svc (worldAfter (handleCommand svc p) w)
      = (adminsOf svc w ++ [JStr (n ++ "@s.whatsapp.net")])%list
   /\ fst (isAdmin (Some (n ++ "@s.whatsapp.net"))
             (files svc (worldAfter (handleCommand svc p) w))) = true)
  /\ (In (JStr (n ++ "@s.whatsapp.net")) (adminsOf svc w) ->
      let p := {| jid := chat; sender := CREATOR_JID; text := "!demote " ++ n;
                  pushName := "User"; isGroup := false |} in
      effectsOf (handleCommand svc p) w
      = [Send (JStr chat) (Result "User demoted from admin successfully");
         Send (JStr (n ++ "@s.whatsapp.net")) (Demoted CREATOR_JID)]
      /\ adminsOf svc (worldAfter (handleCommand svc p) w)
         = filter (fun j => negb (isString (n ++ "@s.whatsapp.net") j)) (adminsOf svc w)
      /\ fst (isAdmin (Some (n ++ "@s.whatsapp.net"))
                (files svc (worldAfter (handleCommand svc p) w))) = false).
Proof.
  intros Hd Hv Hn Hw.
  assert (split " " n = [n]) as Hsplit
    by (apply split_no_separator, digits_have_no_space, Hd).
  assert (digitsOf n = n) as Hdig by (rewrite digitsOf_keep; apply keep_all, Hd).
  assert (missing (Some (n ++ "@s.whatsapp.net")) = false) as Hmiss
    by (destruct n; reflexivity).
  assert (isCreator (Some (n ++ "@s.whatsapp.net")) = false) as Hnc.
  { destruct (isCreator (Some (n ++ "@s.whatsapp.net"))) eqn:Hc; [|reflexivity].
    apply isCreator_iff in Hc. injection Hc as Hc. exfalso. apply Hn.
    apply (append_injective_l n "8801316655254" "@s.whatsapp.net"). exact Hc. }
  assert (forall g, fst (isAdmin (Some (n ++ "@s.whatsapp.net")) g)
                    = includes (n ++ "@s.whatsapp.net") (stored g)) as Hadmin.
  { intro g. unfold isAdmin. rewrite Hmiss, Hnc.
    destruct (read_stored g) as [Hr _]. destruct (readAdminsFromFile g) as [l g1].
    cbn [fst snd Admin.text] in *. rewrite Hr. reflexivity. }
  split.
  - intros Hnin p.
    assert (firstMatch (text p) = Some Promote) as Hfm by reflexivity.
    assert (handlePromoteCommand svc chat CREATOR_JID (text p) true true w
            = (Ok tt,
               Build_world svc
                 (snd (writeAdminsToFile (adminsOf svc w ++ [JStr (n ++ "@s.whatsapp.net")])
                         (snd (readAdminsFromFile (files svc w)))))
                 (clock svc w) (conn svc w) (reminders svc w),
               [Send (JStr chat) (Result "User promoted to admin successfully");
                Send (JStr (n ++ "@s.whatsapp.net")) (Promoted CREATOR_JID)])) as Hrun.
    { unfold handlePromoteCommand. cbn [negb text p].
      change (split " " ("!promote " ++ n)) with ("!promote" :: split " " n).
      rewrite Hsplit, Hdig, Hv. cbn [negb].
      unfold bind at 1, onFiles. rewrite promoteAdmin_cases.
      change (isCreator (Some CREATOR_JID)) with true. cbn [negb Admin.text].
      rewrite Hmiss, suffix_contained, Hnc. cbn [negb orb].
      fold (adminsOf svc w). rewrite (proj2 (includes_false _ _) Hnin), Hw.
      reflexivity. }
    assert (handleCommand svc p w
            = handlePromoteCommand svc chat CREATOR_JID (text p) true true w) as Hcmd.
    { rewrite (handleCommand_of_creator p w eq_refl), Hfm. cbn [invoke].
      unfold catch. cbn [jid sender p]. rewrite Hrun. reflexivity. }
    unfold effectsOf, worldAfter. rewrite Hcmd, Hrun. cbn [fst snd].
    assert (stored (snd (writeAdminsToFile
                           (adminsOf svc w ++ [JStr (n ++ "@s.whatsapp.net")])
                           (snd (readAdminsFromFile (files svc w)))))
            = (adminsOf svc w ++ [JStr (n ++ "@s.whatsapp.net")])%list) as Hst
      by (apply stored_after_write; exact Hw).
    split; [reflexivity|]. split.
    + unfold adminsOf at 1. cbn [files]. exact Hst.
    + cbn [files]. rewrite Hadmin, Hst.
      apply includes_In, in_or_app. right. left. reflexivity.
  - intros Hin p.
    assert (firstMatch (text p) = Some Demote) as Hfm by reflexivity.
    assert (handleDemoteCommand svc chat CREATOR_JID (text p) true true w
            = (Ok tt,
               Build_world svc
                 (snd (writeAdminsToFile
                         (filter (fun j => negb (isString (n ++ "@s.whatsapp.net") j))
                            (adminsOf svc w))
                         (snd (readAdminsFromFile (files svc w)))))
                 (clock svc w) (conn svc w) (reminders svc w),
               [Send (JStr chat) (Result "User demoted from admin successfully");
                Send (JStr (n ++ "@s.whatsapp.net")) (Demoted CREATOR_JID)])) as Hrun.
    { unfold handleDemoteCommand. cbn [negb text p].
      change (split " " ("!demote " ++ n)) with ("!demote" :: split " " n).
      rewrite Hsplit, Hdig, Hv. cbn [negb].
      unfold bind at 1, onFiles. rewrite demoteAdmin_cases.
      change (isCreator (Some CREATOR_JID)) with true. cbn [negb Admin.text].
      rewrite Hmiss, suffix_contained, Hnc. cbn [negb orb].
      fold (adminsOf svc w). rewrite (proj2 (includes_In _ _) Hin), Hw.
      reflexivity. }
    assert (handleCommand svc p w
            = handleDemoteCommand svc chat CREATOR_JID (text p) true true w) as Hcmd.
    { rewrite (handleCommand_of_creator p w eq_refl), Hfm. cbn [invoke].
      unfold catch. cbn [jid sender p]. rewrite Hrun. reflexivity. }
    unfold effectsOf, worldAfter. rewrite Hcmd, Hrun. cbn [fst snd].
    assert (stored (snd (writeAdminsToFile
                           (filter (fun j => negb (isString (n ++ "@s.whatsapp.net") j))
                              (adminsOf svc w))
                           (snd (readAdminsFromFile (files svc w)))))
            = filter (fun j => negb (isString (n ++ "@s.whatsapp.net") j))
                (adminsOf svc w)) as Hst
      by (apply stored_after_write; exact Hw).
    split; [reflexivity|]. split.
    + unfold adminsOf at 1. cbn [files]. exact Hst.
    + cbn [files]. rewrite Hadmin, Hst.
      apply includes_false. apply filter_drops_target.
Qed.

(** X19: a reminder is created as it was parsed.  [handleNaturalReminder]
    parses the text under the clock of the call and makes one call of
    [createReminder], for the chat and the sender of the message, with
    the message and the due time that [parseNaturalTime] returned; the
    reminder store after the handler is the store after that call, and
    the admins file and the connection state are as before.
    [handleAddReminder] does the same with its argument. *)
Theorem reminder_is_created_as_parsed (jid sender text name : string) (w : world svc) :
  (exists parsed,
     Spec.parseAt text (clock svc w) = Some parsed
     /\ reminders svc (worldAfter (handleNaturalReminder svc jid sender text name) w)
        = snd (createReminder svc jid sender (Parser.message parsed) (Parser.dueAt parsed)
                 (reminders svc w))
     /\ files svc (worldAfter (handleNaturalReminder svc jid sender text name) w)
        = files svc w
     /\ conn svc (worldAfter (handleNaturalReminder svc jid sender text name) w)
        = conn svc w)
  /\ (isEmpty (argument text) = false ->
      exists parsed,
        Spec.parseAt (argument text) (clock svc w) = Some parsed
        /\ reminders svc (worldAfter (handleAddReminder svc jid sender text name) w)
           = snd (createReminder svc jid sender (Parser.message parsed)
                    (Parser.dueAt parsed) (reminders svc w))
        /\ files svc (worldAfter (handleAddReminder svc jid sender text name) w)
           = files svc w
        /\ conn svc (worldAfter (handleAddReminder svc jid sender text name) w)
           = conn svc w).
Proof.
  assert (forall t,
            exists parsed,
              Spec.parseAt t (clock svc w) = Some parsed
              /\ onClock (Parser.parseNaturalTime t) w
                 = (Ok (Some parsed),
                    Build_world svc (files svc w) (snd (Parser.parseNaturalTime t (clock svc w)))
                      (conn svc w) (reminders svc w), [])) as Hparse.
  { intro t. pose proof (parseAt_closed_form t (clock svc w)) as Hc.
    unfold Spec.parseAt in *. unfold onClock.
    destruct (Parser.parseNaturalTime t (clock svc w)) as [r c']. cbn [fst snd] in *.
    subst r. eexists. split; reflexivity. }
  assert (forall (k : string -> template) m,
            worldAfter (catch m (fun error => sendTo jid (k error))) w = worldAfter m w)
    as Hcatch.
  { intros k m. unfold worldAfter, catch.
    destruct (m w) as [[[a|msg] w1] e1]; reflexivity. }
  assert (forall parsed (k : reminder -> template) w1,
            let after :=
              worldAfter
                (bind (onStore (createReminder svc jid sender (Parser.message parsed)
                                  (Parser.dueAt parsed)))
                   (fun reminder => bind (now svc) (fun _ => sendTo jid (k reminder)))) w1 in
            reminders svc after
            = snd (createReminder svc jid sender (Parser.message parsed)
                     (Parser.dueAt parsed) (reminders svc w1))
            /\ files svc after = files svc w1
            /\ conn svc after = conn svc w1) as Hmake.
  { intros parsed k w1. cbv zeta. unfold worldAfter, bind, onStore.
    destruct (createReminder svc jid sender _ _ (reminders svc w1)) as [[r|msg] s'];
      repeat split. }
  split.
  - destruct (Hparse text) as [parsed [Hp Hrun]]. exists parsed. split; [exact Hp|].
    unfold handleNaturalReminder.
    rewrite (Hcatch NaturalReminderFailed), (worldAfter_bind_ok _ _ _ _ _ _ Hrun).
    destruct (Hmake parsed NaturalReminderSet
                (Build_world svc (files svc w)
                   (snd (Parser.parseNaturalTime text (clock svc w)))
                   (conn svc w) (reminders svc w))) as [H1 [H2 H3]].
    split; [exact H1|]. split; [exact H2|exact H3].
  - intro Harg. destruct (Hparse (argument text)) as [parsed [Hp Hrun]].
    exists parsed. split; [exact Hp|].
    unfold handleAddReminder. rewrite Harg.
    rewrite (Hcatch ReminderFailed), (worldAfter_bind_ok _ _ _ _ _ _ Hrun).
    destruct (Hmake parsed ReminderSet
                (Build_world svc (files svc w)
                   (snd (Parser.parseNaturalTime (argument text) (clock svc w)))
                   (conn svc w) (reminders svc w))) as [H1 [H2 H3]].
    split; [exact H1|]. split; [exact H2|exact H3].
Qed.

(** X20: the display name of the sender is never used, and whether the
    chat is a group matters to the help text only.  A command is handled
    in the same way, with the same effects and the same world after it,
    whatever the push name of its sender; and unless the command is one of
    [!help], [/help] and [!start], in the same way in a group as in a
    private chat. *)
Theorem name_and_group_do_not_matter (p : params) (name : string) (group : bool)
    (w : world svc) :
  handleCommand svc {| jid := jid p; sender := sender p; text := text p;
                       pushName := name; isGroup := isGroup p |} w
  = handleCommand svc p w
  /\ (firstMatch (text p) <> Some HelpCommand ->
      handleCommand svc {| jid := jid p; sender := sender p; text := text p;
                           pushName := name; isGroup := group |} w
      = handleCommand svc p w).
Proof.
  rewrite !handleCommand_is_dispatch. unfold dispatch. cbn [jid sender text].
  split.
  - destruct (firstMatch (text p)) as [c|]; [destruct c|]; reflexivity.
  - intro Hh. destruct (firstMatch (text p)) as [c|]; [destruct c|];
      try reflexivity. contradiction.
Qed.

End HandlerFacts.

Lemma only_the_creator_changes_admins_witness :
  HandlerSpec.adminsOf MemoryReminders.service
    (Bot.worldAfter
       (Bot.step MemoryReminders.service Examples.noSocket
          (Bot.MessagesUpsert
             (Examples.batch [Examples.textFrom Examples.alice "!promote 8801912345678" false])))
       MemoryReminders.emptyWorld)
  = HandlerSpec.adminsOf MemoryReminders.service MemoryReminders.emptyWorld.
Proof.
  apply (only_the_creator_changes_admins MemoryReminders.service Examples.noSocket
           (Bot.MessagesUpsert
              (Examples.batch
                 [Examples.textFrom Examples.alice "!promote 8801912345678" false]))
           MemoryReminders.emptyWorld).
  intros m Hm. injection Hm as <-.
  constructor; [|constructor]. discriminate.
Defined.

Lemma skipped_messages_get_no_answer_witness :
  Bot.handleMessagesUpsert MemoryReminders.service
    (Examples.batch [Examples.textFrom Examples.alice "!ping" true;
                     Examples.textFrom "status@broadcast" "!ping" false])
    MemoryReminders.emptyWorld
  = (Admin.Ok tt, MemoryReminders.emptyWorld, []).
Proof.
  apply (proj1 (skipped_messages_get_no_answer MemoryReminders.service
                  (Examples.batch [Examples.textFrom Examples.alice "!ping" true;
                                   Examples.textFrom "status@broadcast" "!ping" false])
                  MemoryReminders.emptyWorld)).
  right. reflexivity.
Defined.

Lemma broadcast_goes_to_creator_and_admins_witness :
  Bot.effectsOf
    (Bot.handleBroadcastCommand MemoryReminders.service Examples.alice Examples.alice
       "!broadcast back at ten" true)
    Examples.twoAdmins
  = [Effects.Send (Admin.JStr Admin.CREATOR_JID)
       (Effects.Broadcast "back at ten" Examples.alice);
     Effects.Send (Admin.JStr Examples.bob) (Effects.Broadcast "back at ten" Examples.alice);
     Effects.Delay 1000;
     Effects.Send (Admin.JStr Examples.alice) (Effects.BroadcastSent 3)].
Proof.
  apply (proj1 (broadcast_goes_to_creator_and_admins MemoryReminders.service
                  Examples.alice Examples.alice "!broadcast back at ten"
                  Examples.twoAdmins eq_refl eq_refl)).
Defined.


Lemma retry_counter_stays_in_range_witness :
  Forall (fun ms => In ms [2000; 4000; 8000; 16000; 30000])
    (Connection.delays
       (snd (HandlerSpec.runUpdates MemoryReminders.service
               [ConnSpec.loggedOutUpdate; ConnSpec.loggedOutUpdate; Examples.openUpdate;
                ConnSpec.loggedOutUpdate]
               MemoryReminders.emptyWorld))).
Proof.
  apply (proj1 (proj2 (retry_counter_stays_in_range MemoryReminders.service
                         [ConnSpec.loggedOutUpdate; ConnSpec.loggedOutUpdate;
                          Examples.openUpdate; ConnSpec.loggedOutUpdate]
                         MemoryReminders.emptyWorld
                         (conj (Z.le_refl 0) (Z.lt_le_incl 0 5 eq_refl))))).
Defined.

Lemma sendMessage_needs_an_open_connection_witness :
  Exports.sendMessage MemoryReminders.service (Some Examples.noSocket)
    (Admin.JStr Examples.alice) Effects.Pong
    (Bot.worldAfter (Bot.onConnectionUpdate MemoryReminders.service ConnSpec.loggedOutUpdate)
       MemoryReminders.emptyWorld)
  = (Admin.Throw "Bot is not connected",
     Bot.worldAfter (Bot.onConnectionUpdate MemoryReminders.service ConnSpec.loggedOutUpdate)
       MemoryReminders.emptyWorld, []).
Proof.
  apply (proj1 (proj1 (sendMessage_needs_an_open_connection MemoryReminders.service
                         ConnSpec.loggedOutUpdate MemoryReminders.emptyWorld
                         Examples.noSocket (Admin.JStr Examples.alice) Effects.Pong)
                  eq_refl (Some Examples.noSocket))).
Defined.

Lemma reminder_commands_answer_once_witness :
  exists w1,
    Bot.handleCancelReminder MemoryReminders.service Examples.alice Examples.alice
      "!cancelreminder r0123456789" MemoryReminders.emptyWorld
    = (Admin.Ok tt, w1,
       [Effects.Send (Admin.JStr Examples.alice) (Effects.CancelNotFound "r0123456789")]).
Proof.
  apply (proj2 (proj2 (proj2 (reminder_commands_answer_once MemoryReminders.service
                                Examples.alice Examples.alice
                                "!cancelreminder r0123456789" "User"
                                MemoryReminders.emptyWorld))) eq_refl).
Defined.

Lemma admins_command_shows_the_store_witness :
  Bot.effectsOf
    (Bot.handleCommand MemoryReminders.service
       {| Bot.jid := Examples.alice; Bot.sender := Admin.CREATOR_JID; Bot.text := "!Admins";
          Bot.pushName := "User"; Bot.isGroup := false |})
    Examples.brokenAdmins
  = [Effects.Send (Admin.JStr Examples.alice)
       (Effects.CommandError "jid.replace is not a function")].
Proof.
  apply (proj2 (proj2 (proj2 (proj2 (admins_command_shows_the_store MemoryReminders.service
                                       Examples.alice Examples.brokenAdmins)) eq_refl))
           {| Bot.jid := Examples.alice; Bot.sender := Admin.CREATOR_JID;
              Bot.text := "!Admins"; Bot.pushName := "User"; Bot.isGroup := false |}
           eq_refl eq_refl eq_refl).
Defined.

Lemma welcome_when_the_bot_is_added_witness :
  Bot.handleGroupParticipantsUpdate MemoryReminders.service
    {| Bot.userId := Some "8801912345678:12@s.whatsapp.net" |}
    {| Bot.groupId := "120363000000000000@g.us";
       Bot.participants := [Examples.alice; "8801912345678@s.whatsapp.net"];
       Bot.action := "add" |}
    MemoryReminders.emptyWorld
  = (Admin.Ok tt, MemoryReminders.emptyWorld,
     [Effects.Send (Admin.JStr "120363000000000000@g.us") Effects.Welcome]).
Proof.
  apply (proj1 (welcome_when_the_bot_is_added MemoryReminders.service
                  "8801912345678" "12@s.whatsapp.net"
                  {| Bot.groupId := "120363000000000000@g.us";
                     Bot.participants := [Examples.alice; "8801912345678@s.whatsapp.net"];
                     Bot.action := "add" |}
                  MemoryReminders.emptyWorld) eq_refl).
Defined.

Lemma start_creates_the_bot_last_witness :
  Admin.adminsFile
    (Bot.files MemoryReminders.service
       (Bot.worldAfter (Bot.step MemoryReminders.service Examples.noSocket Bot.Start)
          MemoryReminders.emptyWorld))
  = Some (Admin.Json (Admin.adminsDoc [])).
Proof.
  apply (proj2 (proj2 (proj2 (proj2 (start_creates_the_bot_last MemoryReminders.service
                                       Examples.noSocket MemoryReminders.emptyWorld))))
           eq_refl eq_refl).
Defined.

Lemma creator_commands_take_effect_witness :
  HandlerSpec.adminsOf MemoryReminders.service
    (Bot.worldAfter
       (Bot.handleCommand MemoryReminders.service
          {| Bot.jid := Examples.alice; Bot.sender := Admin.CREATOR_JID;
             Bot.text := "!promote 8801912345678"; Bot.pushName := "User";
             Bot.isGroup := false |})
       Examples.twoAdmins)
  = [Admin.JStr Examples.alice; Admin.JStr Examples.bob;
     Admin.JStr "8801912345678@s.whatsapp.net"].
Proof.
  assert ("8801912345678" <> "8801316655254") as Hn by (intro H; discriminate H).
  assert (~ In (Admin.JStr ("8801912345678" ++ "@s.whatsapp.net"))
              (HandlerSpec.adminsOf MemoryReminders.service Examples.twoAdmins)) as Hnin.
  { intros [H|[H|[]]]; discriminate H. }
  apply (proj1 (proj2 (proj1 (creator_commands_take_effect MemoryReminders.service
                                Examples.alice "8801912345678" Examples.twoAdmins
                                eq_refl eq_refl Hn eq_refl) Hnin))).
Defined.

Lemma reminder_is_created_as_parsed_witness :
  exists parsed,
    Spec.parseAt "remind me in 2 hours to call mom" (DateTime.constant 0) = Some parsed
    /\ Bot.reminders MemoryReminders.service
         (Bot.worldAfter
            (Bot.handleNaturalReminder MemoryReminders.service Examples.alice Examples.alice
               "remind me in 2 hours to call mom" "User")
            MemoryReminders.emptyWorld)
       = snd (MemoryReminders.create Examples.alice Examples.alice
                (Parser.message parsed) (Parser.dueAt parsed) []).
Proof.
  destruct (proj1 (reminder_is_created_as_parsed MemoryReminders.service
                     Examples.alice Examples.alice "remind me in 2 hours to call mom"
                     "User" MemoryReminders.emptyWorld)) as [parsed [Hp [Hr _]]].
  exists parsed. split; [exact Hp|exact Hr].
Defined.

Lemma name_and_group_do_not_matter_witness :
  Bot.handleCommand MemoryReminders.service
    {| Bot.jid := "120363000000000000@g.us"; Bot.sender := Examples.alice;
       Bot.text := "remind me in 2 hours to call mom"; Bot.pushName := "Alice";
       Bot.isGroup := true |}
    MemoryReminders.emptyWorld
  = Bot.handleCommand MemoryReminders.service
      {| Bot.jid := "120363000000000000@g.us"; Bot.sender := Examples.alice;
         Bot.text := "remind me in 2 hours to call mom"; Bot.pushName := "User";
         Bot.isGroup := false |}
      MemoryReminders.emptyWorld.
Proof.
  apply (proj2 (name_and_group_do_not_matter MemoryReminders.service
                  {| Bot.jid := "120363000000000000@g.us"; Bot.sender := Examples.alice;
                     Bot.text := "remind me in 2 hours to call mom";
                     Bot.pushName := "User"; Bot.isGroup := false |}
                  "Alice" true MemoryReminders.emptyWorld)).
  intro H. discriminate H.
Defined.

(** ** The time parser: defaults, clock times and the past *)

Section ClockTimeFacts.
Import JS Regex Parser DateTime Spec RegexSpec TextSpec PatternSpec.

Lemma anyChar_append (p : ascii -> bool) (a b : string) :
  anyChar p (a ++ b) = anyChar p a || anyChar p b.
Proof.
  induction a as [|c a IH]; [reflexivity|]. cbn [append anyChar].
  rewrite IH. apply orb_assoc.
Qed.

Lemma advance_rest (st st' : cursor) (c : ascii) :
  advance st = Some (c, st') -> rest st = String c (rest st') /\ caps st' = caps st
                                /\ pos st' = S (pos st).
Proof.
  unfold advance. destruct (rest st) as [|d s] eqn:Hr; [discriminate|].
  intro H. inversion H; subst. repeat split.
Qed.

Lemma eat_rest (i : bool) (lit : string) :
  forall st st', eat i lit st = Some st' ->
  (exists x, rest st = x ++ rest st') /\ caps st' = caps st.
Proof.
  induction lit as [|p lit IH]; intros st st' H; cbn [eat] in H.
  - inversion H; subst. split; [exists ""; reflexivity|reflexivity].
  - destruct (advance st) as [[c mid]|] eqn:Ha; [|discriminate].
    destruct (sameChar i p c); [|discriminate].
    apply advance_rest in Ha. destruct Ha as [Hr [Hc _]].
    destruct (IH _ _ H) as [[x Hx] Hcx].
    split; [exists (String c x); rewrite Hr, Hx; reflexivity|congruence].
Qed.

(** A traversal consumes a prefix of what is left of the input. *)
Lemma Path_rest (i : bool) (r : regex) (st st' : cursor) :
  Path i r st st' -> exists x, rest st = x ++ rest st'.
Proof.
  induction 1 as [st|s st st' He|st c st' Ha _|st c st' Ha _|st c st' Ha _
                 |a b st mid st' _ [x Hx] _ [y Hy]|a b st st' _ IH|a b st st' _ IH
                 |a st|a st mid st' _ [x Hx] _ _ [y Hy]|n a st st' _ [x Hx]|st _|st _].
  - exists "". reflexivity.
  - apply eat_rest in He. apply He.
  - apply advance_rest in Ha. exists (String c ""). apply Ha.
  - apply advance_rest in Ha. exists (String c ""). apply Ha.
  - apply advance_rest in Ha. exists (String c ""). apply Ha.
  - exists (x ++ y). rewrite Hx, Hy. symmetry. apply append_assoc.
  - exact IH.
  - exact IH.
  - exists "". reflexivity.
  - exists (x ++ y). rewrite Hx, Hy. symmetry. apply append_assoc.
  - exists x. exact Hx.
  - exists "". reflexivity.
  - exists "". reflexivity.
Qed.

(** A traversal of an expression that requires a digit starts in a text
    that has one. *)
Lemma Path_digit (i : bool) (r : regex) (st st' : cursor) :
  Path i r st st' -> requiresDigit r = true -> anyChar isDigit (rest st) = true.
Proof.
  induction 1 as [st|s st st' He|st c st' Ha Hc|st c st' Ha Hc|st c st' Ha Hc
                 |a b st mid st' Pa IHa Pb IHb|a b st st' _ IH|a b st st' _ IH
                 |a st|a st mid st' _ _ _ _ _|n a st st' _ IH|st _|st _];
    cbn [requiresDigit]; intro Hreq; try discriminate.
  - apply advance_rest in Ha. destruct Ha as [Hr _]. rewrite Hr. cbn [anyChar].
    rewrite Hc. reflexivity.
  - apply orb_true_iff in Hreq. destruct Hreq as [Hreq|Hreq]; [apply IHa; exact Hreq|].
    destruct (Path_rest _ _ _ _ Pa) as [x Hx]. rewrite Hx, anyChar_append.
    rewrite (IHb Hreq). apply orb_true_r.
  - apply andb_true_iff in Hreq. apply IH, Hreq.
  - apply andb_true_iff in Hreq. apply IH, Hreq.
  - apply IH. exact Hreq.
Qed.

Lemma matchAt_digit (i : bool) (r : regex) (p : option ascii) (s : string) (idx : nat)
    (m : result) :
  requiresDigit r = true -> matchAt i r p s idx = Some m -> anyChar isDigit s = true.
Proof.
  intros Hreq. unfold matchAt.
  destruct (rmatch i r _ Some) as [st|] eqn:Hm; [|discriminate]. intros _.
  apply rmatch_sound in Hm. destruct Hm as [st' [HP _]].
  apply (Path_digit _ _ _ _ HP Hreq).
Qed.

Lemma execFrom_cases (i : bool) (r : regex) (p : option ascii) (s : string) (idx : nat) :
  execFrom i r p s idx
  = match matchAt i r p s idx with
    | Some m => Some m
    | None =>
        match s with
        | EmptyString => None
        | String c s' => execFrom i r (Some c) s' (S idx)
        end
    end.
Proof. destruct s; reflexivity. Qed.

(** A pattern that requires a digit does not match a text without one. *)
Lemma execFrom_digit (i : bool) (r : regex) (s : string) :
  requiresDigit r = true ->
  forall p idx, anyChar isDigit s = false -> execFrom i r p s idx = None.
Proof.
  intro Hreq. induction s as [|c s IH]; intros p idx Hs; rewrite execFrom_cases.
  - destruct (matchAt i r p "" idx) as [m|] eqn:Hm; [|reflexivity].
    apply (matchAt_digit _ _ _ _ _ _ Hreq) in Hm. discriminate.
  - destruct (matchAt i r p (String c s) idx) as [m|] eqn:Hm.
    + apply (matchAt_digit _ _ _ _ _ _ Hreq) in Hm. congruence.
    + cbn [anyChar] in Hs. apply orb_false_iff in Hs. apply IH, Hs.
Qed.

(** An expression that can be traversed without consuming anything does
    not fail before a continuation that does not fail. *)
Lemma nullable_never_fails (i : bool) (r : regex) :
  nullable r = true ->
  forall st k, (forall st', k st' <> None) -> rmatch i r st k <> None.
Proof.
  induction r as [|s| | | |a IHa b IHb|a IHa b IHb|a IHa|n a IHa| |];
    cbn [nullable]; intros Hn st k Hk; try discriminate; cbn [rmatch].
  - apply Hk.
  - destruct s; [|discriminate]. cbn [eat]. apply Hk.
  - apply andb_true_iff in Hn. destruct Hn as [Ha Hb].
    apply (IHa Ha). intro st'. apply (IHb Hb). exact Hk.
  - destruct (nullable a) eqn:Ha.
    + specialize (IHa eq_refl st k Hk).
      destruct (rmatch i a st k); [discriminate|contradiction].
    + cbn [orb] in Hn. specialize (IHb Hn st k Hk).
      destruct (rmatch i a st k); [discriminate|exact IHb].
  - destruct (String.length (rest st)); cbn [starLoop];
      match goal with
      | |- orElse ?x _ <> None => destruct x; [discriminate|apply Hk]
      end.
  - apply (IHa Hn). intro st'. apply Hk.
Qed.

(** A traversal of an expression without the group [n] keeps what the
    group has captured. *)
Lemma Path_keeps_group (i : bool) (n : nat) (r : regex) (st st' : cursor) :
  Path i r st st' -> hasGroup n r = false -> lookup n (caps st') = lookup n (caps st).
Proof.
  induction 1 as [st|s st st' He|st c st' Ha _|st c st' Ha _|st c st' Ha _
                 |a b st mid st' _ IHa _ IHb|a b st st' _ IH|a b st st' _ IH
                 |a st|a st mid st' _ IHa _ _ IHs|m a st st' _ IH|st _|st _];
    cbn [hasGroup]; intro Hg; try reflexivity.
  - apply eat_rest in He. destruct He as [_ Hc]. rewrite Hc. reflexivity.
  - apply advance_rest in Ha. destruct Ha as [_ [Hc _]]. rewrite Hc. reflexivity.
  - apply advance_rest in Ha. destruct Ha as [_ [Hc _]]. rewrite Hc. reflexivity.
  - apply advance_rest in Ha. destruct Ha as [_ [Hc _]]. rewrite Hc. reflexivity.
  - apply orb_false_iff in Hg. destruct Hg as [Ha Hb]. rewrite (IHb Hb). apply IHa, Ha.
  - apply orb_false_iff in Hg. apply IH, Hg.
  - apply orb_false_iff in Hg. apply IH, Hg.
  - rewrite (IHs Hg). apply IHa, Hg.
  - apply orb_false_iff in Hg. destruct Hg as [Hm Ha].
    cbn [capture caps lookup]. rewrite Hm. apply IH, Ha.
Qed.

(** *** The generic time pattern *)

Lemma timePattern_unfold (st : cursor) :
  rmatch true timePattern st Some
  = class isDigit st (fun sa =>
      orElse (class isDigit sa (fun sb => rmatch true afterHour (capture 1 st sb) Some))
             (rmatch true afterHour (capture 1 st sa) Some)).
Proof. reflexivity. Qed.

Lemma afterHour_runs (st : cursor) :
  exists stf, rmatch true afterHour st Some = Some stf
              /\ lookup 1 (caps stf) = lookup 1 (caps st).
Proof.
  destruct (rmatch true afterHour st Some) as [stf|] eqn:Hm.
  - exists stf. split; [reflexivity|].
    apply rmatch_sound in Hm. destruct Hm as [st' [HP Hk]]. inversion Hk; subst st'.
    apply (Path_keeps_group _ _ _ _ _ HP). reflexivity.
  - exfalso. revert Hm. apply nullable_never_fails; [reflexivity|discriminate].
Qed.

(** At a digit the generic pattern matches, and its first group is the
    digit with the next character when that is a digit too. *)
Lemma timePattern_at_digit (p : option ascii) (a : ascii) (s' : string) (idx : nat) :
  isDigit a = true ->
  exists m,
    matchAt true timePattern p (String a s') idx = Some m
    /\ index m = idx
    /\ group 1 m = Some (match s' with
                         | String b _ => if isDigit b then String a (String b "")
                                         else String a ""
                         | EmptyString => String a ""
                         end).
Proof.
  intro Ha. unfold matchAt. rewrite timePattern_unfold.
  unfold class at 1, advance. cbn [rest]. rewrite Ha.
  set (st := {| prev := p; rest := String a s'; pos := idx; caps := [] |}).
  set (sa := {| prev := Some a; rest := s'; pos := S (pos st); caps := caps st |}).
  assert (forall sb, (exists stf, rmatch true afterHour (capture 1 st sb) Some = Some stf
                      /\ lookup 1 (caps stf)
                         = Some (take (pos sb - idx) (String a s')))) as Htail.
  { intro sb. destruct (afterHour_runs (capture 1 st sb)) as [stf [Hm Hl]].
    exists stf. split; [exact Hm|]. rewrite Hl. cbn [capture caps lookup Nat.eqb].
    reflexivity. }
  destruct s' as [|b s''].
  - unfold class, advance. cbn [rest sa orElse].
    destruct (Htail sa) as [stf [Hm Hl]]. rewrite Hm.
    eexists. split; [reflexivity|]. split; [reflexivity|].
    unfold group. cbn [groups]. rewrite Hl. cbn [pos sa st].
    replace (S idx - idx)%nat with 1%nat by lia. reflexivity.
  - unfold class, advance. cbn [rest sa].
    destruct (isDigit b) eqn:Hb.
    + match goal with
      | |- context [rmatch true afterHour (capture 1 st ?x) Some] =>
          destruct (Htail x) as [stf [Hm Hl]]
      end.
      rewrite Hm. cbn [orElse].
      eexists. split; [reflexivity|]. split; [reflexivity|].
      unfold group. cbn [groups]. rewrite Hl. cbn [pos sa st].
      replace (S (S idx) - idx)%nat with 2%nat by lia. reflexivity.
    + cbn [orElse]. destruct (Htail sa) as [stf [Hm Hl]]. rewrite Hm.
      eexists. split; [reflexivity|]. split; [reflexivity|].
      unfold group. cbn [groups]. rewrite Hl. cbn [pos sa st].
      replace (S idx - idx)%nat with 1%nat by lia. reflexivity.
Qed.

Lemma timePattern_not_at_digit (p : option ascii) (s : string) (idx : nat) :
  match s with EmptyString => True | String c _ => isDigit c = false end ->
  matchAt true timePattern p s idx = None.
Proof.
  intro Hs. unfold matchAt. rewrite timePattern_unfold. unfold class at 1, advance.
  cbn [rest]. destruct s as [|c s']; [reflexivity|]. rewrite Hs. reflexivity.
Qed.

Lemma fromFirstDigit_length (s : string) :
  (String.length (fromFirstDigit s) <= String.length s)%nat.
Proof.
  induction s as [|c s IH]; [simpl; lia|]. cbn [fromFirstDigit].
  destruct (isDigit c); simpl in *; lia.
Qed.

(** The search with the generic pattern stops at the first digit. *)
Lemma timePattern_scan (s : string) :
  forall p idx,
    anyChar isDigit s = true ->
    exists m,
      execFrom true timePattern p s idx = Some m
      /\ index m = (idx + (String.length s - String.length (fromFirstDigit s)))%nat
      /\ group 1 m = Some (leadingHour s).
Proof.
  induction s as [|c s IH]; intros p idx Hs; [discriminate|].
  rewrite execFrom_cases. cbn [anyChar] in Hs.
  destruct (isDigit c) eqn:Hc.
  - destruct (timePattern_at_digit p c s idx Hc) as [m [Hm [Hi Hg]]].
    exists m. rewrite Hm. split; [reflexivity|].
    unfold leadingHour. cbn [fromFirstDigit]. rewrite Hc.
    split; [rewrite Hi; lia|]. rewrite Hg. destruct s; reflexivity.
  - rewrite (timePattern_not_at_digit p (String c s) idx Hc).
    destruct (IH (Some c) (S idx) Hs) as [m [Hm [Hi Hg]]].
    exists m. split; [exact Hm|].
    unfold leadingHour in *. cbn [fromFirstDigit]. rewrite Hc.
    split; [|exact Hg]. rewrite Hi.
    pose proof (fromFirstDigit_length s). cbn [String.length]. lia.
Qed.

Lemma no_digit_no_shape (msg : string) :
  anyChar isDigit msg = false <-> shapeOf msg = NoShape.
Proof.
  split.
  - intro Hd. unfold shapeOf, exec.
    rewrite !execFrom_digit by (reflexivity || exact Hd). reflexivity.
  - intro Hs. destruct (anyChar isDigit msg) eqn:Hd; [|reflexivity].
    destruct (timePattern_scan msg None 0%nat Hd) as [m [Hm _]].
    unfold shapeOf in Hs. unfold exec in Hs at 4. rewrite Hm in Hs.
    destruct (exec true inPattern msg); [discriminate|].
    destruct (exec true tomorrowPattern msg); [discriminate|].
    destruct (exec true dailyPattern msg); discriminate.
Qed.

(** X21: the default of one hour is taken exactly when the message part
    has no decimal digit.  Without a digit none of the four time patterns
    matches: the reminder is due one hour after the call and its message
    is the message part as it is ('Reminder' when it is empty).  With a
    digit the generic pattern, at the latest, matches: it matches at the
    first digit of the message part. *)
Theorem one_hour_default_iff_no_digit (text : string) (c : Clock) :
  (anyChar isDigit (extractMessage text) = false <-> shapeOf (extractMessage text) = NoShape)
  /\ (anyChar isDigit (extractMessage text) = false ->
      parseAt text c
      = Some {| dueAt := Some (plusHours (c 0%nat) 1);
                message := orReminder (extractMessage text) |})
  /\ (anyChar isDigit (extractMessage text) = true ->
      exists m,
        exec true timePattern (extractMessage text) = Some m
        /\ index m = (String.length (extractMessage text)
                      - String.length (fromFirstDigit (extractMessage text)))%nat).
Proof.
  split; [apply no_digit_no_shape|]. split.
  - intro Hd. rewrite parseAt_closed_form. unfold dueOf, cleaned.
    rewrite (proj1 (no_digit_no_shape _) Hd). reflexivity.
  - intro Hd. destruct (timePattern_scan _ None 0%nat Hd) as [m [Hm [Hi _]]].
    exists m. split; [exact Hm|exact Hi].
Qed.

(** X22: when only the generic pattern matches, the hour is read off the
    first digits of the message part, whatever they stand for: the first
    decimal digit and the character after it if that is a digit too, put
    on the 24-hour clock by the [am] or [pm] that the match may end in.
    The reminder is due at that time of the day of the call, or of the
    next day when that time has passed at the second reading of the
    clock, and the matched text is cut out of the message. *)
Theorem first_digits_are_read_as_the_hour (text : string) (c : Clock) :
  anyChar isDigit (extractMessage text) = true ->
  exec true inPattern (extractMessage text) = None ->
  exec true tomorrowPattern (extractMessage text) = None ->
  exec true dailyPattern (extractMessage text) = None ->
  exists m,
    exec true timePattern (extractMessage text) = Some m
    /\ index m = (String.length (extractMessage text)
                  - String.length (fromFirstDigit (extractMessage text)))%nat
    /\ group 1 m = Some (leadingHour (extractMessage text))
    /\ parseAt text c
       = Some {| dueAt :=
                   Some (let due :=
                           setTime (c 0%nat)
                             (to24 (parseInt (leadingHour (extractMessage text)))
                                (option_map toLowerCase (group 3 m)))
                             (match group 2 m with Some s => parseInt s | None => 0 end) in
                         if ltb due (c 1%nat) then plusDays due 1 else due);
                 message := orReminder (removeMatch timePattern (extractMessage text)) |}.
Proof.
  intros Hd Hin Htom Hday.
  destruct (timePattern_scan _ None 0%nat Hd) as [m [Hm [Hi Hg]]].
  exists m. split; [exact Hm|]. split; [exact Hi|]. split; [exact Hg|].
  rewrite parseAt_closed_form. unfold dueOf, cleaned, shapeOf.
  rewrite Hin, Htom, Hday. unfold exec. rewrite Hm.
  unfold clockOf, groupText. rewrite Hg. reflexivity.
Qed.

(** *** Due times and the time of the call *)

Lemma digitValue_nonneg (c : ascii) : isDigit c = true -> 0 <= digitValue c <= 9.
Proof.
  unfold isDigit, between, digitValue. intro H. apply andb_true_iff in H.
  destruct H as [H1 H2]. apply N.leb_le in H1, H2. lia.
Qed.

Lemma parseDigits_nonneg (s : string) (acc : Z) : 0 <= acc -> 0 <= parseDigits acc s.
Proof.
  revert acc. induction s as [|c s IH]; intros acc Hacc; cbn [parseDigits]; [exact Hacc|].
  destruct (isDigit c) eqn:Hc; [|exact Hacc].
  apply IH. pose proof (digitValue_nonneg c Hc). lia.
Qed.

Lemma parseInt_nonneg (s : string) : 0 <= parseInt s.
Proof. apply parseDigits_nonneg. lia. Qed.

Lemma to24_range (hours : Z) (ampm : option string) :
  0 <= hours -> 0 <= to24 hours ampm <= hours + 12.
Proof.
  intro Hh. unfold to24. destruct ampm as [s|]; [|lia].
  repeat match goal with
         | |- context [match ?x with _ => _ end] => destruct x
         end; lia.
Qed.

Lemma clockOf_nonneg (m : result) : 0 <= fst (clockOf m) /\ 0 <= snd (clockOf m).
Proof.
  unfold clockOf. cbn [fst snd]. split.
  - apply to24_range, parseInt_nonneg.
  - destruct (group 2 m); [apply parseInt_nonneg|lia].
Qed.

Lemma setTime_startOfDay (d h m : Z) :
  setTime d h m = startOfDay d + h * msPerHour + m * msPerMinute.
Proof. unfold startOfDay, setTime. lia. Qed.

Lemma startOfDay_bounds (d : Z) : startOfDay d <= d < startOfDay d + msPerDay.
Proof.
  unfold startOfDay, setTime.
  pose proof (Z.mod_pos_bound (d + zoneOffset) msPerDay) as Hm.
  unfold msPerDay, msPerHour, msPerMinute, zoneOffset in *. lia.
Qed.

Lemma startOfDay_next (d : Z) : startOfDay (plusDays d 1) = startOfDay d + msPerDay.
Proof.
  unfold startOfDay, setTime, plusDays.
  replace (d + 1 * msPerDay + zoneOffset) with (d + zoneOffset + 1 * msPerDay) by lia.
  rewrite Z_mod_plus_full. lia.
Qed.

Lemma dueOf_not_before (msg : string) (t0 t1 : Z) : t0 <= t1 -> t0 <= dueOf msg t0 t1.
Proof.
  intro Hc. unfold dueOf.
  pose proof (startOfDay_bounds t0) as Hb.
  destruct (shapeOf msg) as [m|m|m|m|].
  - pose proof (parseInt_nonneg (groupText 1 m)) as Hn.
    unfold plusHours, plusMinutes, msPerHour, msPerMinute.
    destruct (startsWith "h" _); [nia|]. destruct (startsWith "m" _); [nia|lia].
  - destruct (clockOf_nonneg m) as [Hh Hm].
    rewrite setTime_startOfDay, startOfDay_next.
    unfold msPerHour, msPerMinute, msPerDay in *. nia.
  - destruct (clockOf_nonneg m) as [Hh Hm].
    rewrite setTime_startOfDay. unfold ltb, plusDays.
    destruct (Z.ltb_spec (startOfDay t0 + fst (clockOf m) * msPerHour
                          + snd (clockOf m) * msPerMinute) t1);
      unfold msPerHour, msPerMinute, msPerDay in *; nia.
  - destruct (clockOf_nonneg m) as [Hh Hm].
    rewrite setTime_startOfDay. unfold ltb, plusDays.
    destruct (Z.ltb_spec (startOfDay t0 + fst (clockOf m) * msPerHour
                          + snd (clockOf m) * msPerMinute) t1);
      unfold msPerHour, msPerMinute, msPerDay in *; nia.
  - unfold plusHours, msPerHour. lia.
Qed.

(** X23: a reminder is never set in the past.  When the clock reads a
    time in the range of dates and does not run backwards between the two
    readings that a call may make, the due time that [parseNaturalTime]
    returns, if it is in the range of dates too, is not before the first
    reading, whatever the text: an amount is added to it, a time of day
    that has passed is moved to the next day, and 'tomorrow' is a time of
    the next calendar day, after the midnight that follows the call.  (An
    amount that takes the sum beyond the last time value of a [Date] gives
    an invalid [DateTime], of which nothing is said.) *)
Theorem due_time_is_not_in_the_past (text : string) (c : Clock) :
  inRange (c 0%nat) = true ->
  c 0%nat <= c 1%nat ->
  exists due msg,
    parseAt text c = Some {| dueAt := Some due; message := msg |}
    /\ (inRange due = true ->
        c 0%nat <= due
        /\ (forall m, shapeOf (extractMessage text) = TomorrowShape m ->
              startOfDay (c 0%nat) + msPerDay <= due)
        /\ (forall m, shapeOf (extractMessage text) = DailyShape m
                      \/ shapeOf (extractMessage text) = TimeShape m ->
              c 1%nat <= startOfDay (c 0%nat) + msPerDay -> c 1%nat <= due)).
Proof.
  intros _ Hc. rewrite parseAt_closed_form. eexists. eexists.
  split; [reflexivity|]. intros _.
  split; [apply dueOf_not_before; exact Hc|]. split.
  - intros m Hs. unfold dueOf. rewrite Hs.
    destruct (clockOf_nonneg m) as [Hh Hm].
    rewrite setTime_startOfDay, startOfDay_next.
    unfold msPerHour, msPerMinute, msPerDay in *. nia.
  - intros m Hs Hday. unfold dueOf.
    assert (c 1%nat <=
            (let due := setTime (c 0%nat) (fst (clockOf m)) (snd (clockOf m)) in
             if ltb due (c 1%nat) then plusDays due 1 else due)) as Hgoal.
    { cbv zeta. destruct (clockOf_nonneg m) as [Hh Hm].
      rewrite setTime_startOfDay. unfold ltb, plusDays.
      destruct (Z.ltb_spec (startOfDay (c 0%nat) + fst (clockOf m) * msPerHour
                            + snd (clockOf m) * msPerMinute) (c 1%nat));
        unfold msPerHour, msPerMinute, msPerDay in *; nia. }
    destruct Hs as [Hs|Hs]; rewrite Hs; exact Hgoal.
Qed.

(** X24: the conversion to the 24-hour clock.  For an hour of the 12-hour
    clock, 1 to 12, [am] gives the hour modulo 12 (12 am is 0) and [pm]
    gives that plus 12 (12 pm is 12), so that the result is an hour of the
    day and different times give different results; without [am] or [pm]
    the hour is kept, and so is an hour above 12 with either. *)
Theorem twelve_hour_clock_conversion (h h' : Z) :
  (1 <= h <= 12 ->
   to24 h (Some "am") = h mod 12
   /\ to24 h (Some "pm") = h mod 12 + 12
   /\ 0 <= to24 h (Some "am") < 12
   /\ 12 <= to24 h (Some "pm") < 24)
  /\ (1 <= h <= 12 -> 1 <= h' <= 12 ->
      (to24 h (Some "am") = to24 h' (Some "am") -> h = h')
      /\ (to24 h (Some "pm") = to24 h' (Some "pm") -> h = h')
      /\ to24 h (Some "am") <> to24 h' (Some "pm"))
  /\ to24 h None = h
  /\ (12 < h -> to24 h (Some "am") = h /\ to24 h (Some "pm") = h).
Proof.
  assert (forall x, to24 x (Some "am") = if x =? 12 then 0 else x) as Ham by reflexivity.
  assert (forall x, to24 x (Some "pm") = if x <? 12 then x + 12 else x) as Hpm by reflexivity.
  assert (forall x, 1 <= x <= 12 -> x mod 12 = if x =? 12 then 0 else x) as Hmod.
  { intros x Hx. destruct (Z.eqb_spec x 12) as [->|Hne]; [reflexivity|].
    apply Z.mod_small. lia. }
  split; [|split; [|split]].
  - intro Hh. rewrite Ham, Hpm, (Hmod h Hh).
    destruct (Z.eqb_spec h 12), (Z.ltb_spec h 12); lia.
  - intros Hh Hh'. rewrite !Ham, !Hpm.
    destruct (Z.eqb_spec h 12), (Z.ltb_spec h 12), (Z.eqb_spec h' 12), (Z.ltb_spec h' 12);
      repeat split; lia.
  - reflexivity.
  - intro Hh. rewrite Ham, Hpm.
    destruct (Z.eqb_spec h 12), (Z.ltb_spec h 12); split; lia.
Qed.

End ClockTimeFacts.

Lemma one_hour_default_iff_no_digit_witness :
  Spec.parseAt "remind me to call mom" (DateTime.constant 0)
  = Some {| Parser.dueAt := Some (DateTime.plusHours 0 1);
            Parser.message := "to call mom" |}.
Proof.
  apply (proj1 (proj2 (one_hour_default_iff_no_digit "remind me to call mom"
                         (DateTime.constant 0)))).
  reflexivity.
Defined.

Lemma first_digits_are_read_as_the_hour_witness :
  exists m,
    Regex.exec true Parser.timePattern (Parser.extractMessage "remind me to call 01712345678")
    = Some m
    /\ Regex.index m = 8%nat
    /\ Regex.group 1 m = Some "01"
    /\ Spec.parseAt "remind me to call 01712345678" (DateTime.constant 0)
       = Some {| Parser.dueAt := Some (DateTime.plusDays (DateTime.setTime 0 1 0) 1);
                 Parser.message := "to call 712345678" |}.
Proof.
  destruct (first_digits_are_read_as_the_hour "remind me to call 01712345678"
              (DateTime.constant 0) eq_refl eq_refl eq_refl eq_refl)
    as [m [Hm [Hi [Hg Hp]]]].
  exists m. split; [exact Hm|]. split; [exact Hi|]. split; [exact Hg|].
  rewrite Hp. vm_compute in Hm. injection Hm as <-. reflexivity.
Defined.

Lemma due_time_is_not_in_the_past_witness :
  exists due msg,
    Spec.parseAt "remind me at 5pm to leave"
      (fun n => match n with O => 1800000000000 | _ => 1800000000005 end)
    = Some {| Parser.dueAt := Some due; Parser.message := msg |}
    /\ DateTime.inRange due = true
    /\ 1800000000000 <= due.
Proof.
  destruct (due_time_is_not_in_the_past "remind me at 5pm to leave"
              (fun n => match n with O => 1800000000000 | _ => 1800000000005 end))
    as [due [msg [Hp Hd]]].
  - reflexivity.
  - intro H. discriminate H.
  - assert (due = 1800010800000) as Hdue.
    { assert (Some due = Some 1800010800000) as Hs.
      { change (Some due)
          with (Parser.dueAt {| Parser.dueAt := Some due; Parser.message := msg |}).
        change (Some 1800010800000)
          with (match Spec.parseAt "remind me at 5pm to leave"
                        (fun n => match n with O => 1800000000000 | _ => 1800000000005 end)
                with Some r => Parser.dueAt r | None => None end).
        rewrite Hp. reflexivity. }
      injection Hs as Hs. exact Hs. }
    assert (DateTime.inRange due = true) as Hr by (rewrite Hdue; reflexivity).
    exists due, msg. split; [exact Hp|]. split; [exact Hr|].
    exact (proj1 (Hd Hr)).
Defined.

Lemma twelve_hour_clock_conversion_witness :
  Parser.to24 12 (Some "am") = 12 mod 12
  /\ Parser.to24 12 (Some "pm") = 12 mod 12 + 12
  /\ 0 <= Parser.to24 12 (Some "am") < 12
  /\ 12 <= Parser.to24 12 (Some "pm") < 24.
Proof.
  apply (proj1 (twelve_hour_clock_conversion 12 1)).
  split; intro H; discriminate H.
Defined.

(** ** The display of a JID *)

Section FormatFacts.
Import JS Regex RegexSpec TextSpec Admin Effects Bot.

Variable svc : ReminderService.

Lemma eat_exact (w : string) :
  forall p b idx cs,
    eat false w {| prev := p; rest := w ++ b; pos := idx; caps := cs |}
    = Some {| prev := lastOf p w; rest := b; pos := idx + String.length w; caps := cs |}.
Proof.
  induction w as [|c w IH]; intros p b idx cs.
  - cbn [eat append lastOf String.length]. rewrite Nat.add_0_r. reflexivity.
  - cbn [eat append]. unfold advance. cbn [rest pos caps].
    unfold sameChar. rewrite Ascii.eqb_refl. rewrite IH.
    cbn [lastOf String.length]. rewrite Nat.add_succ_r. reflexivity.
Qed.

Lemma drop_append_length (a b : string) : drop (String.length a) (a ++ b) = b.
Proof. induction a as [|c a IH]; [reflexivity|exact IH]. Qed.

Lemma drop_append_add (a b : string) (k : nat) :
  drop (String.length a + k) (a ++ b) = drop k b.
Proof. induction a as [|c a IH]; [reflexivity|exact IH]. Qed.

(** The search for a literal finds its first occurrence: it is not found
    in a text before it that lacks its first character. *)
Lemma literal_scan (c0 : ascii) (w a b : string) :
  anyChar (Ascii.eqb c0) a = false ->
  forall p idx,
    execFrom false (Lit (String c0 w)) p (a ++ String c0 w ++ b) idx
    = Some {| index := idx + String.length a; matched := String c0 w; groups := [] |}.
Proof.
  induction a as [|c a IH]; intros Ha p idx.
  - rewrite execFrom_cases. unfold matchAt. cbn [rmatch].
    change ("" ++ String c0 w ++ b) with (String c0 w ++ b).
    rewrite eat_exact. cbn [pos caps].
    replace (idx + String.length (String c0 w) - idx)%nat
      with (String.length (String c0 w)) by lia.
    rewrite take_append. cbn [String.length]. rewrite Nat.add_0_r. reflexivity.
  - cbn [anyChar] in Ha. apply orb_false_iff in Ha. destruct Ha as [Hc Ha].
    rewrite execFrom_cases. unfold matchAt. cbn [rmatch eat append].
    unfold advance. cbn [rest]. unfold sameChar. rewrite Hc.
    rewrite (IH Ha). cbn [String.length]. f_equal. f_equal. lia.
Qed.

Lemma replace_first_literal (c0 : ascii) (w a b : string) :
  anyChar (Ascii.eqb c0) a = false ->
  replace false (Lit (String c0 w)) "" (a ++ String c0 w ++ b) = a ++ b.
Proof.
  intro Ha. unfold replace, exec. rewrite (literal_scan c0 w a b Ha).
  cbn [index matched Nat.add]. rewrite take_append, drop_append_add, drop_append_length.
  reflexivity.
Qed.

Lemma digits_have_no_at (n : string) :
  allChars isDigit n = true -> anyChar (Ascii.eqb "@") n = false.
Proof.
  induction n as [|c n IH]; [reflexivity|]. cbn [allChars anyChar].
  intro H. apply andb_true_iff in H. destruct H as [Hc Hn]. rewrite (IH Hn).
  destruct (Ascii.eqb_spec "@"%char c) as [<-|]; [discriminate|reflexivity].
Qed.

(** X25: [formatJID] undoes the making of a JID.  A number without '@',
    such as the digits that [!promote] turns into a JID by appending
    '@s.whatsapp.net', is what [formatJID] shows for that JID; only the
    first occurrence of the suffix is removed; a JID that is missing or
    empty is shown as 'Unknown', and one that is no string makes the call
    throw. *)
Theorem formatJID_strips_the_suffix (n rest : string) (w : world svc) :
  (anyChar (Ascii.eqb "@") n = false ->
   formatJID svc (JStr (n ++ "@s.whatsapp.net" ++ rest)) w = (Ok (n ++ rest), w, []))
  /\ (allChars isDigit n = true ->
      formatJID svc (JStr (n ++ "@s.whatsapp.net")) w = (Ok n, w, []))
  /\ formatJID svc JNull w = (Ok "Unknown", w, [])
  /\ formatJID svc (JStr "") w = (Ok "Unknown", w, [])
  /\ (forall items, exists msg, formatJID svc (JArr items) w = (Throw msg, w, []))
  /\ (forall k, k <> 0 -> exists msg, formatJID svc (JNum k) w = (Throw msg, w, [])).
Proof.
  assert (forall r, anyChar (Ascii.eqb "@") n = false ->
            formatJID svc (JStr (n ++ "@s.whatsapp.net" ++ r)) w = (Ok (n ++ r), w, []))
    as Hstrip.
  { intros r Hn. unfold formatJID. cbn [falsy].
    assert (isEmpty (n ++ "@s.whatsapp.net" ++ r) = false) as He
      by (destruct n; reflexivity).
    rewrite He.
    change "@s.whatsapp.net" with (String "@" "s.whatsapp.net").
    rewrite (replace_first_literal "@" "s.whatsapp.net" n r Hn). reflexivity. }
  split; [apply Hstrip|]. split; [|split; [reflexivity|split; [reflexivity|split]]].
  - intro Hd. pose proof (Hstrip "" (digits_have_no_at n Hd)) as H.
    change ("@s.whatsapp.net" ++ "") with "@s.whatsapp.net" in H.
    replace (n ++ "") with n in H; [exact H|].
    clear. induction n as [|c n IH]; [reflexivity|]. cbn [append]. rewrite <- IH. reflexivity.
  - intro items. eexists. reflexivity.
  - intros k Hk. unfold formatJID. cbn [falsy].
    destruct (Z.eqb_spec k 0); [contradiction|]. eexists. reflexivity.
Qed.

End FormatFacts.

Lemma formatJID_strips_the_suffix_witness :
  Bot.formatJID MemoryReminders.service (Admin.JStr "8801712345678@s.whatsapp.net")
    MemoryReminders.emptyWorld
  = (Admin.Ok "8801712345678", MemoryReminders.emptyWorld, []).
Proof.
  apply (proj1 (proj2 (formatJID_strips_the_suffix MemoryReminders.service
                         "8801712345678" "" MemoryReminders.emptyWorld))).
  reflexivity.
Defined.
